(** * ai-pulse: webhook ingestion and campaign pacing

    A shallow embedding of the call-campaign core of the repository:

    - the webhook function (the Deno [serve] handler with its helpers
      [extractContactId], [extractPhoneNumber], [extractCustomerName],
      [extractDisposition], [extractDuration], [determineCallStatus],
      [calculateCallCost], [findLeadByPhoneNumber], [findLeadByNameAndPhone]);
    - the React hook [useCampaignExecution] ([triggerCall], [startExecution]
      and the interval callback it installs);
    - [updateStats] of the hook [useLeads].

    JavaScript values are embedded as JSON documents, numbers as binary64
    floats, exceptions as an error monad, and the outside world (request
    body, database replies, provider replies) as explicit inputs. *)

From Stdlib Require Import Bool Arith NArith ZArith Lia List.
From Stdlib Require Import Strings.Ascii Strings.String Numbers.DecimalString.
From Stdlib Require Import Floats.PrimFloat Floats.SpecFloat Floats.FloatOps.
Import ListNotations.

Set Warnings "-register-all,-inexact-float".
Open Scope bool_scope.
Open Scope string_scope.

(* ================================================================== *)
(** * JavaScript strings *)
(* ================================================================== *)

(** A string is a sequence of code units.  The development covers the code
    units U+0000..U+00FF (one [ascii] each), on which [toLowerCase] acts
    unit by unit: A-Z and the Latin-1 capitals U+00C0..U+00DE (except the
    multiplication sign U+00D7) move up by 32, everything else stays. *)
Module JsString.

Definition lower_unit (c : ascii) : ascii :=
  let n := N_of_ascii c in
  if ((65 <=? n) && (n <=? 90)
      || (192 <=? n) && (n <=? 222) && negb (n =? 215))%N
  then ascii_of_N (n + 32) else c.

(** [s.toLowerCase()] *)
Fixpoint toLowerCase (s : string) : string :=
  match s with
  | EmptyString => EmptyString
  | String c s' => String (lower_unit c) (toLowerCase s')
  end.

(** [s.includes(k)] *)
Fixpoint includes (s k : string) : bool :=
  String.prefix k s
  || match s with
     | EmptyString => false
     | String _ s' => includes s' k
     end.

(** [s.slice(-n)]: the last [n] code units, or all of [s] when it is shorter. *)
Definition slice_last (n : nat) (s : string) : string :=
  String.substring (String.length s - n) n s.

(** [s.endsWith(k)] *)
Definition endsWith (s k : string) : bool :=
  (String.length k <=? String.length s)%nat
  && String.eqb (slice_last (String.length k) s) k.

Definition is_digit (c : ascii) : bool :=
  let n := N_of_ascii c in ((48 <=? n) && (n <=? 57))%N.

(** [s.replace(/\D/g, '')] *)
Fixpoint strip_non_digits (s : string) : string :=
  match s with
  | EmptyString => EmptyString
  | String c s' =>
      if is_digit c then String c (strip_non_digits s') else strip_non_digits s'
  end.

(** The white space [parseInt] skips, within U+0000..U+00FF. *)
Definition is_space (c : ascii) : bool :=
  let n := N_of_ascii c in
  ((n =? 9) || (n =? 10) || (n =? 11) || (n =? 12) || (n =? 13)
   || (n =? 32) || (n =? 160))%N.

Fixpoint skip_spaces (s : string) : string :=
  match s with
  | String c s' => if is_space c then skip_spaces s' else s
  | EmptyString => s
  end.

(** The decimal digits a string starts with, read as an integer; [None] when
    it starts with no digit. *)
Fixpoint leading_digits (acc : option Z) (s : string) : option Z :=
  match s with
  | String c s' =>
      if is_digit c
      then leading_digits
             (Some (10 * match acc with Some a => a | None => 0 end
                    + (Z.of_N (N_of_ascii c) - 48))%Z) s'
      else acc
  | EmptyString => acc
  end.

End JsString.
Import JsString.

(* ================================================================== *)
(** * JavaScript numbers *)
(* ================================================================== *)

(** The Number nearest to an integer (round to nearest, ties to even). *)
Definition number_of_Z (z : Z) : float :=
  SF2Prim (binary_normalize prec emax z 0 false).

(** [parseInt(s, 10)]: white space, an optional sign, then decimal digits;
    [NaN] when no digit is found. *)
Definition parseInt (s : string) : float :=
  let s := skip_spaces s in
  let '(neg, s) :=
    match s with
    | String "-" s' => (true, s')
    | String "+" s' => (false, s')
    | _ => (false, s)
    end in
  match leading_digits None s with
  | None => nan
  | Some z => if neg then (- number_of_Z z)%float else number_of_Z z
  end.

(* ================================================================== *)
(** * JSON documents and exceptions *)
(* ================================================================== *)

(** A parsed JSON document.  [VNull] also stands for [undefined]: the code
    only ever tests such values for truthiness.  An object lists its
    properties, each key once. *)
Inductive value : Type :=
| VNull
| VBool (b : bool)
| VNum (n : float)
| VStr (s : string)
| VArr (items : list value)
| VObj (fields : list (string * value)).

(** Truthiness: [null], [false], [0], [-0], [NaN] and [""] are falsy. *)
Definition truthy (v : value) : bool :=
  match v with
  | VNull => false
  | VBool b => b
  | VNum n => negb (PrimFloat.eqb n 0 || is_nan n)
  | VStr s => negb (String.eqb s "")
  | VArr _ | VObj _ => true
  end.

Fixpoint lookup (k : string) (fs : list (string * value)) : value :=
  match fs with
  | [] => VNull
  | (k', v) :: fs' => if String.eqb k k' then v else lookup k fs'
  end.

(** [v.k] on a value that is not [null]: a property of an object, and
    [undefined] on anything else (none of the names read by the code is a
    built-in property of a string, number, boolean or array). *)
Definition field (v : value) (k : string) : value :=
  match v with
  | VObj fs => lookup k fs
  | _ => VNull
  end.

(** [v === false] *)
Definition is_false (v : value) : bool :=
  match v with VBool false => true | _ => false end.

(** [typeof v === 'string'] *)
Definition is_string (v : value) : bool :=
  match v with VStr _ => true | _ => false end.

Inductive exn : Type :=
| TypeError      (* reading a property of null, calling what is no function *)
| SyntaxError    (* JSON.parse *)
| NetworkError.  (* a rejected fetch or body read *)

Inductive result (A : Type) : Type :=
| Ok (a : A)
| Throw (e : exn).
Arguments Ok {A} a.
Arguments Throw {A} e.

Definition bind {A B : Type} (c : result A) (k : A -> result B) : result B :=
  match c with
  | Ok a => k a
  | Throw e => Throw e
  end.

Declare Scope js_scope.
Delimit Scope js_scope with js.
Notation "x <- c ;; k" := (bind c (fun x => k))
  (at level 61, c at next level, right associativity) : js_scope.
Open Scope js_scope.

(** [v.k], which throws on [null]. *)
Definition get (v : value) (k : string) : result value :=
  match v with
  | VNull => Throw TypeError
  | _ => Ok (field v k)
  end.

(** The guarded chain [v.k1 && v.k1.k2 && ... && v.k1...kn]: the first falsy
    link, or the last property. *)
Fixpoint path (v : value) (ks : list string) : result value :=
  match ks with
  | [] => Ok v
  | k :: ks' =>
      x <- get v k ;;
      match ks' with
      | [] => Ok x
      | _ => if truthy x then path x ks' else Ok x
      end
  end.

(** A cascade of [if (chain) return chain's last property;] statements: the
    value of the first chain that is truthy, [dflt] when none is. *)
Fixpoint first_truthy (payload : value) (chains : list (list string))
    (dflt : value) : result value :=
  match chains with
  | [] => Ok dflt
  | ks :: rest =>
      x <- path payload ks ;;
      if truthy x then Ok x else first_truthy payload rest dflt
  end.

(** What the JavaScript runtime supplies: the coercions of a value that is
    not already of the target type, and the JSON parser. *)
Class Runtime : Type := {
  (** [String(v)] for [v] not a string *)
  ToString : value -> result string;
  (** [Number(v)] for [v] not a number *)
  ToNumber : value -> result float;
  (** [JSON.parse(text)] *)
  JSON_parse : string -> result value
}.

Definition to_string `{Runtime} (v : value) : result string :=
  match v with
  | VStr s => Ok s
  | _ => ToString v
  end.

Definition to_number `{Runtime} (v : value) : result float :=
  match v with
  | VNum n => Ok n
  | _ => ToNumber v
  end.

(* ================================================================== *)
(** * The webhook function: payload normalisation *)
(* ================================================================== *)

Definition extractContactId (payload : value) : result value :=
  first_truthy payload
    [ ["metadata"; "contactId"];
      ["message"; "artifact"; "assistantOverrides"; "metadata"; "contactId"];
      ["assistantOverrides"; "metadata"; "contactId"];
      ["customer"; "contactId"];
      ["message"; "assistantOverrides"; "metadata"; "contactId"];
      ["message"; "metadata"; "contactId"] ]
    VNull.

Definition extractPhoneNumber (payload : value) : result value :=
  first_truthy payload
    [ ["customer"; "number"];
      ["message"; "artifact"; "customer"; "number"];
      ["message"; "customer"; "number"];
      ["to"];
      ["message"; "to"] ]
    VNull.

Definition extractCustomerName (payload : value) : result value :=
  first_truthy payload
    [ ["customer"; "name"];
      ["message"; "artifact"; "customer"; "name"];
      ["message"; "customer"; "name"] ]
    VNull.

Definition extractDuration (payload : value) : result value :=
  durationSeconds <- get payload "durationSeconds" ;;
  if truthy durationSeconds then Ok durationSeconds else
  message <- get payload "message" ;;
  if truthy message && truthy (field message "durationSeconds")
  then Ok (field message "durationSeconds") else
  duration <- get payload "duration" ;;
  if truthy duration then Ok duration else
  if truthy message && truthy (field message "duration")
  then Ok (field message "duration") else
  Ok (VNum 0).

Definition determineCallStatus (payload : value) : result string :=
  success <- get payload "success" ;;
  message <- get payload "message" ;;
  if is_false success
     || truthy message && is_false (field message "success")
  then Ok "Failed" else
  status <- get payload "status" ;;
  match status with
  | VStr s =>
      if truthy status && includes (toLowerCase s) "fail"
      then Ok "Failed" else Ok "Completed"
  | _ => Ok "Completed"
  end.

Definition minuteRate : float := 0.99%float.

Definition calculateCallCost (durationMinutes : float) : float :=
  (durationMinutes * minuteRate)%float.

(* ================================================================== *)
(** * The webhook function: disposition *)
(* ================================================================== *)

(** [endReason?.toLowerCase().includes(k)]: [undefined] (falsy) on a
    missing end reason, a [TypeError] on one that is not a string. *)
Definition er_includes (endReason : value) (k : string) : result bool :=
  match endReason with
  | VNull => Ok false
  | VStr s => Ok (includes (toLowerCase s) k)
  | _ => Throw TypeError
  end.

(** A chain [c1 || c2 || ...], evaluated left to right up to the first
    operand that holds. *)
Fixpoint any_of (cs : list (result bool)) : result bool :=
  match cs with
  | [] => Ok false
  | c :: cs' => b <- c ;; if b then Ok true else any_of cs'
  end.

(** [(v || "")] as an operand of a string concatenation. *)
Definition or_empty `{Runtime} (v : value) : result string :=
  if truthy v then to_string v else Ok "".

(** "habla español" *)
Definition habla_espanol : string :=
  "habla espa" ++ String (ascii_of_N 241) "ol".

Definition extractDisposition `{Runtime} (payload : value) : result string :=
  endReason <- first_truthy payload
    [ ["endedReason"]; ["message"; "endedReason"];
      ["end_reason"]; ["message"; "end_reason"] ] VNull ;;
  summary <- first_truthy payload
    [ ["message"; "analysis"; "summary"]; ["analysis"; "summary"];
      ["summary"] ] VNull ;;
  transcript <- first_truthy payload
    [ ["message"; "transcript"]; ["transcript"] ] VNull ;;
  (* console.log("Summary:", summary ? summary.substring(0, 100) + ... ) *)
  _ <- (if truthy summary && negb (is_string summary)
        then Throw TypeError else Ok tt) ;;
  s <- or_empty summary ;;
  t <- or_empty transcript ;;
  let content := s ++ " " ++ t in
  let lowerContent := toLowerCase content in
  let has k := Ok (includes lowerContent k) in
  let er k := er_includes endReason k in
  b <- any_of [ has "leave a message"; has "at the tone"; has "voicemail";
                has "can't take your call"; has "after the beep";
                er "voicemail" ] ;;
  if b then Ok "Answering Machine" else
  b <- any_of [ er "customer did not answer"; er "customer-did-not-answer";
                er "twilio failed connection"; er "no-answer";
                er "no_answer" ] ;;
  if b then Ok "No Answer" else
  b <- any_of [ er "assistant forwarded call";
                er "assistant-forwarded-call" ] ;;
  if b then
    if includes lowerContent "education consultant"
       || includes lowerContent "education advisor"
       || includes lowerContent "forwarded to education"
       || includes lowerContent "transferred to education"
    then Ok "Warm Transfer - Education" else
    if includes lowerContent "job consultant"
       || includes lowerContent "job advisor"
       || includes lowerContent "forwarded to job"
       || includes lowerContent "transferred to job"
    then Ok "Warm Transfer - Job" else
    Ok "Warm Transfer"
  else
  if includes lowerContent "do not call"
     || includes lowerContent "don't call"
     || includes lowerContent "remove me"
     || includes lowerContent "stop calling"
     || includes lowerContent "take me off"
     || includes lowerContent "unsubscribe"
  then Ok "Do Not Contact" else
  if includes lowerContent "language barrier"
     || includes lowerContent "no english"
     || includes lowerContent "don't speak english"
     || includes lowerContent habla_espanol
     || includes lowerContent "communication issue"
     || includes lowerContent "language problem"
  then Ok "Language Barrier" else
  if includes lowerContent "not qualified"
     || includes lowerContent "qualification failed"
     || includes lowerContent "no high school diploma"
     || includes lowerContent "no ged"
     || includes lowerContent "under 18"
     || includes lowerContent "not a us citizen"
     || includes lowerContent "no green card"
     || includes lowerContent "currently enrolled in school"
     || includes lowerContent "currently enrolled in college"
     || includes lowerContent "still in school"
     || includes lowerContent "still in college"
  then Ok "Not Qualified" else
  if includes lowerContent "not interested"
     || includes lowerContent "no thanks"
     || includes lowerContent "not right now"
     || includes lowerContent "not looking"
     || includes lowerContent "not for me"
     || includes lowerContent "don't want"
  then Ok "Not Interested" else
  b <- any_of [ er "customer ended call"; er "customer-ended-call" ] ;;
  if b then Ok "Hang Up" else
  if truthy endReason
  then r <- to_string endReason ;; Ok ("Other: " ++ r)
  else Ok "Unknown".

(* ================================================================== *)
(** * Leads and the lead repository *)
(* ================================================================== *)

(** A row of the [leads] table (the [Lead] interface of the hooks). The
    phone number column is nullable. *)
Record Lead : Type := {
  id : string;
  name : string;
  phone_number : option string;
  phone_id : option string;
  status : string;
  disposition : option string;
  duration : float;
  cost : float
}.

(** The object handed to [.update(...)]: the webhook sets all four columns,
    the dispatcher only [status] and [disposition]. *)
Record LeadUpdate : Type := {
  new_status : string;
  new_disposition : string;
  new_duration : option float;
  new_cost : option float
}.

Definition patch (u : LeadUpdate) (l : Lead) : Lead :=
  {| id := id l;
     name := name l;
     phone_number := phone_number l;
     phone_id := phone_id l;
     status := new_status u;
     disposition := Some (new_disposition u);
     duration := match new_duration u with Some d => d | None => duration l end;
     cost := match new_cost u with Some c => c | None => cost l end |}.

(** The repository's [update(fields).eq("id", target)]: the named columns of
    the rows with that id are overwritten. *)
Definition update_eq_id (target : string) (u : LeadUpdate)
    (rows : list Lead) : list Lead :=
  map (fun l => if String.eqb (id l) target then patch u l else l) rows.

(** How one [select] request to the repository ends. *)
Inductive reply : Type :=
| Delivered       (* the rows, as a JSON array *)
| ErrorDocument   (* a JSON object describing an error, no array *)
| Rejected.       (* the fetch, or reading its body, rejects *)

(** The repository as the webhook function meets it: the table, in the
    order the database returns rows, and the fate of each request.
    [on_update] is the [error] the client reports for the update. *)
Record Backend : Type := {
  leads : list Lead;
  on_eq_phone : reply;
  on_like_phone : reply;
  on_scan : reply;
  on_like_name : reply;
  on_update : option exn
}.

(** [data] of a settled [select]. *)
Inductive fetched : Type :=
| Data (rows : list Lead)
| NoArray.

Definition select (r : reply) (rows : list Lead) : result fetched :=
  match r with
  | Delivered => Ok (Data rows)
  | ErrorDocument => Ok NoArray
  | Rejected => Throw NetworkError
  end.

(** [.eq("phone_number", key)] *)
Definition phone_is (key : string) (l : Lead) : bool :=
  match phone_number l with
  | Some p => String.eqb p key
  | None => false
  end.

(** The characters of a pattern that stand for any run of characters:
    [%], and [*], which the REST interface of the repository reads as
    [%]. *)
Definition is_any_run (c : ascii) : bool :=
  Ascii.eqb c "%" || Ascii.eqb c "*".

Definition backslash : ascii := ascii_of_N 92.

(** [s LIKE pattern] as the database evaluates it: [%] stands for any run
    of characters, [_] for any one character, and a backslash takes the
    character after it literally.  (A pattern that ends in a lone
    backslash is an error in the database; the patterns of this program
    end in [%].) *)
Fixpoint like (pattern s : string) : bool :=
  match pattern with
  | EmptyString =>
      match s with EmptyString => true | String _ _ => false end
  | String p rest =>
      if is_any_run p then
        (fix skip (s : string) : bool :=
           like rest s
           || match s with
              | EmptyString => false
              | String _ s' => skip s'
              end) s
      else if Ascii.eqb p "_" then
        match s with
        | EmptyString => false
        | String _ s' => like rest s'
        end
      else if Ascii.eqb p backslash then
        match rest, s with
        | String q rest', String c s' => Ascii.eqb q c && like rest' s'
        | _, _ => false
        end
      else
        match s with
        | EmptyString => false
        | String c s' => Ascii.eqb p c && like rest s'
        end
  end.

(** [.ilike(column, value)]: the value is the pattern, as it is; letter
    case is ignored. *)
Definition ilike (column value : string) : bool :=
  like (toLowerCase value) (toLowerCase column).

(** [.ilike("phone_number", `%${x}%`)] *)
Definition phone_like (x : string) (l : Lead) : bool :=
  match phone_number l with
  | Some p => ilike p ("%" ++ x ++ "%")
  | None => false
  end.

(** [.ilike("name", `%${x}%`)] *)
Definition name_like (x : string) (l : Lead) : bool :=
  ilike (name l) ("%" ++ x ++ "%").

(** The test in the loop of [findLeadByPhoneNumber]. *)
Definition cleaned_match (cleanedPhoneNumber lastTenDigits : string)
    (lead : Lead) : bool :=
  match phone_number lead with
  | None => false
  | Some p =>
      if String.eqb p "" then false else
      let leadCleanNumber := strip_non_digits p in
      let leadLastDigits := slice_last 10 leadCleanNumber in
      String.eqb leadCleanNumber cleanedPhoneNumber
      || String.eqb leadLastDigits lastTenDigits
      || endsWith leadCleanNumber lastTenDigits
      || endsWith cleanedPhoneNumber leadLastDigits
  end.

Definition findLeadByPhoneNumber `{Runtime} (db : Backend)
    (phoneNumber : value) : result (option Lead) :=
  key <- to_string phoneNumber ;;
  data <- select (on_eq_phone db)
            (firstn 1 (filter (phone_is key) (leads db))) ;;
  match data with
  | Data (lead :: _) => Ok (Some lead)
  | _ =>
    match phoneNumber with
    | VStr s =>
      let cleanedPhoneNumber := strip_non_digits s in
      let lastTenDigits := slice_last 10 cleanedPhoneNumber in
      data2 <- select (on_like_phone db)
                 (firstn 1 (filter (phone_like lastTenDigits) (leads db))) ;;
      match data2 with
      | Data (lead :: _) => Ok (Some lead)
      | _ =>
        allLeads <- select (on_scan db) (firstn 25 (leads db)) ;;
        match allLeads with
        | Data rows =>
            Ok (find (cleaned_match cleanedPhoneNumber lastTenDigits) rows)
        | NoArray => Throw TypeError   (* for ... of over an object *)
        end
      end
    | _ => Throw TypeError             (* phoneNumber.replace *)
    end
  end.

(** The test in the loop of [findLeadByNameAndPhone]. *)
Definition last_four_match (lastFourDigits : string) (lead : Lead) : bool :=
  match phone_number lead with
  | None => false
  | Some p =>
      if String.eqb p "" then false
      else endsWith (strip_non_digits p) lastFourDigits
  end.

Definition findLeadByNameAndPhone `{Runtime} (db : Backend)
    (customerName phoneNumber : value) : result (option Lead) :=
  match phoneNumber with
  | VStr s =>
    let cleanedPhoneNumber := strip_non_digits s in
    let lastFourDigits := slice_last 4 cleanedPhoneNumber in
    x <- to_string customerName ;;
    data <- select (on_like_name db)
              (firstn 10
                 (filter (name_like x) (leads db))) ;;
    match data with
    | Data [] => Ok None
    | Data rows => Ok (find (last_four_match lastFourDigits) rows)
    | NoArray => Throw TypeError       (* for ... of over an object *)
    end
  | _ => Throw TypeError               (* phoneNumber.replace *)
  end.

(* ================================================================== *)
(** * The webhook function: the handler *)
(* ================================================================== *)

Record Request : Type := {
  method : string;
  text : result string     (* [await req.text()] *)
}.

(** The JSON body of a response; [error] is present on three of the
    failure replies. *)
Record Body : Type := {
  success : bool;
  message : string;
  error : option exn
}.

Record Response : Type := {
  resp_status : nat;
  resp_body : option Body
}.

(** What one run of the handler does: its response, and the update it
    sent to the repository, if any. *)
Record Outcome : Type := {
  response : Response;
  update : option (string * LeadUpdate)
}.

Definition respond (code : nat) (ok : bool) (msg : string)
    (err : option exn) (upd : option (string * LeadUpdate)) : Outcome :=
  {| response :=
       {| resp_status := code;
          resp_body := Some {| success := ok; message := msg; error := err |} |};
     update := upd |}.

(** [Object.keys(v)] throws on [null] only. *)
Definition object_keys (v : value) : result unit :=
  match v with
  | VNull => Throw TypeError
  | _ => Ok tt
  end.

(** Lines 85-105: the lead is looked up when the payload names no contact
    id but a phone number. *)
Definition resolveContact `{Runtime} (db : Backend)
    (payload contactId phoneNumber : value) : result value :=
  if negb (truthy contactId) && truthy phoneNumber then
    leadResult <- findLeadByPhoneNumber db phoneNumber ;;
    match leadResult with
    | Some lead => Ok (VStr (id lead))
    | None =>
        customerName <- extractCustomerName payload ;;
        if truthy customerName && truthy phoneNumber then
          leadByNameResult <-
            findLeadByNameAndPhone db customerName phoneNumber ;;
          match leadByNameResult with
          | Some lead => Ok (VStr (id lead))
          | None => Ok contactId
          end
        else Ok contactId
    end
  else Ok contactId.

(** The body of the outer [try], from the parsed text on. *)
Definition process `{Runtime} (db : Backend) (rawBody : string)
    : result Outcome :=
  match JSON_parse rawBody with
  | Throw _ => Ok (respond 200 false "Invalid JSON payload" None None)
  | Ok payload =>
    _ <- object_keys payload ;;
    contactId <- extractContactId payload ;;
    phoneNumber <- extractPhoneNumber payload ;;
    disposition <- extractDisposition payload ;;
    duration <- extractDuration payload ;;
    seconds <- to_number duration ;;
    let durationMinutes := (seconds / 60)%float in
    let cost := calculateCallCost durationMinutes in
    status <- determineCallStatus payload ;;
    contactId <- resolveContact db payload contactId phoneNumber ;;
    if negb (truthy contactId) && negb (truthy phoneNumber) then
      Ok (respond 200 false
            "Failed to find contact information in webhook" None None)
    else if truthy contactId then
      target <- to_string contactId ;;
      let sent :=
        Some (target,
              {| new_status := status;
                 new_disposition := disposition;
                 new_duration := Some durationMinutes;
                 new_cost := Some cost |}) in
      match on_update db with
      | Some e => Ok (respond 200 false "Failed to update lead" (Some e) sent)
      | None =>
          (* no status given: a Response is 200 by default *)
          Ok (respond 200 true "Webhook processed successfully" None sent)
      end
    else
      Ok (respond 200 true "Webhook processed successfully" None None)
  end.

Definition serve `{Runtime} (db : Backend) (req : Request) : Outcome :=
  if String.eqb (method req) "OPTIONS" then
    {| response := {| resp_status := 200; resp_body := None |};
       update := None |}
  else
    match (rawBody <- text req ;; process db rawBody) with
    | Ok outcome => outcome
    | Throw e =>
        respond 200 false "Failed to process webhook" (Some e) None
    end.

(** The table once the handler has run: its update is applied unless the
    repository reported an error for it. *)
Definition table_after (db : Backend) (o : Outcome) : list Lead :=
  match update o, on_update db with
  | Some (target, u), None => update_eq_id target u (leads db)
  | _, _ => leads db
  end.

(* ================================================================== *)
(** * useLeads: statistics *)
(* ================================================================== *)

Record LeadStats : Type := {
  completed : nat;
  inProgress : nat;
  remaining : nat;
  failed : nat;
  totalDuration : float;
  totalCost : float
}.

(** [x || 0] on a number *)
Definition or_zero (x : float) : float :=
  if truthy (VNum x) then x else 0%float.

Definition count_status (s : string) (leadsData : list Lead) : nat :=
  List.length (filter (fun lead => String.eqb (status lead) s) leadsData).

Definition updateStats (leadsData : list Lead) : LeadStats :=
  {| completed := count_status "Completed" leadsData;
     inProgress := count_status "In Progress" leadsData;
     failed := count_status "Failed" leadsData;
     remaining := count_status "Pending" leadsData;
     totalDuration :=
       or_zero (fold_left (fun sum lead => (sum + or_zero (duration lead))%float)
                  leadsData 0%float);
     totalCost :=
       or_zero (fold_left (fun sum lead => (sum + or_zero (cost lead))%float)
                  leadsData 0%float) |}.

(* ================================================================== *)
(** * useCampaignExecution: the call dispatcher *)
(* ================================================================== *)

(** How [supabase.functions.invoke('trigger-call', ...)] ends. *)
Inductive InvokeReply : Type :=
| InvokeRejects                                   (* the await throws *)
| InvokeResponds (error : option string) (data : value).

(** What the hook does to the world, in order. *)
Inductive event : Type :=
| SetIsCallInProgress (b : bool)
| SetIsExecuting (b : bool)
| SetIntervalId (handle : option nat)
| SetInterval (delay : float)
| ClearInterval
| InvokeTriggerCall (leadId : string)     (* the request to the provider *)
| UpdateLead (leadId : string) (u : LeadUpdate) (updateError : bool)
| ConsoleError
| ToastError (msg : value)
| ToastSuccess (msg : value)
| ToastInfo (msg : value).

Definition call_initiated : LeadUpdate :=
  {| new_status := "In Progress";
     new_disposition := "Call initiated";
     new_duration := None;
     new_cost := None |}.

(** [triggerCall(leadId)], given the hook's [leads], the provider's reply
    and whether the repository reports an error for the update ([UpdateLead]
    records the update sent together with that answer). *)
Definition triggerCall (leads : list Lead) (leadId : string)
    (provider : InvokeReply) (updateError : bool) : list event :=
  let finally := [SetIsCallInProgress false] in
  let leadToCall := find (fun lead => String.eqb (id lead) leadId) leads in
  let call :=
    InvokeTriggerCall leadId ::
    match provider with
    | InvokeRejects =>
        ConsoleError :: ToastError (VStr "Failed to initiate call") :: finally
    | InvokeResponds (Some msg) _ =>
        ToastError (VStr ("Failed to initiate call: " ++ msg))
        :: ConsoleError :: finally
    | InvokeResponds None data =>
        match get data "success" with
        | Throw _ =>
            ConsoleError :: ToastError (VStr "Failed to initiate call")
            :: finally
        | Ok ok =>
            if truthy ok then
              ToastSuccess (VStr "Call initiated successfully")
              :: UpdateLead leadId call_initiated updateError
              :: ((if updateError then [ConsoleError] else []) ++ finally)%list
            else
              ToastError (if truthy (field data "message")
                          then field data "message"
                          else VStr "Failed to initiate call")
              :: finally
        end
    end in
  SetIsCallInProgress true ::
  match leadToCall with
  | Some lead =>
      if negb (String.eqb (status lead) "Pending") then
        ToastError (VStr ("Cannot call lead: " ++ name lead
                          ++ ". Lead status is " ++ status lead))
        :: SetIsCallInProgress false :: finally
      else call
  | None => call
  end.

(** [triggerCall] waits twice: for the provider's answer, and for the
    repository's.  Its trace in three parts, each with whether the call
    waits again at its end: up to the request, from the provider's answer
    on, and from the repository's answer on. *)
Definition triggerCall_starts (leads : list Lead) (leadId : string)
    : list event * bool :=
  let leadToCall := find (fun lead => String.eqb (id lead) leadId) leads in
  let request := ([SetIsCallInProgress true; InvokeTriggerCall leadId], true) in
  match leadToCall with
  | Some lead =>
      if negb (String.eqb (status lead) "Pending") then
        ([ SetIsCallInProgress true;
           ToastError (VStr ("Cannot call lead: " ++ name lead
                             ++ ". Lead status is " ++ status lead));
           SetIsCallInProgress false; SetIsCallInProgress false ], false)
      else request
  | None => request
  end.

Definition triggerCall_resumes (provider : InvokeReply) : list event * bool :=
  let finally := [SetIsCallInProgress false] in
  match provider with
  | InvokeRejects =>
      (ConsoleError :: ToastError (VStr "Failed to initiate call") :: finally,
       false)
  | InvokeResponds (Some msg) _ =>
      (ToastError (VStr ("Failed to initiate call: " ++ msg))
       :: ConsoleError :: finally, false)
  | InvokeResponds None data =>
      match get data "success" with
      | Throw _ =>
          (ConsoleError :: ToastError (VStr "Failed to initiate call")
           :: finally, false)
      | Ok ok =>
          if truthy ok then
            ([ToastSuccess (VStr "Call initiated successfully")], true)
          else
            (ToastError (if truthy (field data "message")
                         then field data "message"
                         else VStr "Failed to initiate call")
             :: finally, false)
      end
  end.

Definition triggerCall_ends (leadId : string) (updateError : bool)
    : list event :=
  UpdateLead leadId call_initiated updateError
  :: ((if updateError then [ConsoleError] else [])
      ++ [SetIsCallInProgress false])%list.

(** [isCallInProgress] once the events of a trace have happened. *)
Definition flag_after (trace : list event) (flag : bool) : bool :=
  fold_left (fun b e => match e with
                        | SetIsCallInProgress b' => b'
                        | _ => b
                        end) trace flag.

(** The repository after a run of the hook: the updates of the trace are
    applied, but for those the repository answered with an error. *)
Fixpoint stored_after (trace : list event) (rows : list Lead) : list Lead :=
  match trace with
  | [] => rows
  | UpdateLead leadId u false :: rest =>
      stored_after rest (update_eq_id leadId u rows)
  | _ :: rest => stored_after rest rows
  end.

(* ================================================================== *)
(** * useCampaignExecution: the pacing scheduler *)
(* ================================================================== *)

(** An armed interval timer together with what its callback closes over:
    the [leads] and the [isCallInProgress] of the render that started the
    run, the eligible leads, and the cursor. *)
Record Interval : Type := {
  delay : float;
  leads_seen : list Lead;
  flag_seen : bool;
  pendingLeads : list Lead;
  currentIndex : nat
}.

(** The state of the hook that a run touches; [interval] is the timer the
    browser holds for it. *)
Record Execution : Type := {
  isExecuting : bool;
  intervalId : option nat;
  interval : option Interval
}.

Definition string_of_nat (n : nat) : string :=
  NilEmpty.string_of_uint (Nat.to_uint n).

Definition eligible (lead : Lead) : bool :=
  let isPending := String.eqb (status lead) "Pending" in
  let hasPhoneId := match phone_id lead with Some _ => true | None => false end in
  isPending && hasPhoneId.

(** The handle [setInterval] returns. *)
Definition handle : nat := 1.

(** [startExecution()], given the [isCallInProgress], the [leads] and the
    [selectedPacing] of the render it is called from. *)
Definition startExecution (callInProgress : bool) (leads : list Lead)
    (selectedPacing : string) (h : Execution) : Execution * list event :=
  let pendingLeads := filter eligible leads in
  if (List.length pendingLeads =? 0)%nat then
    (h, [ToastError
           (VStr "No pending leads with phone IDs available to process")])
  else
    let pacingInterval := (1 / parseInt selectedPacing * 1000)%float in
    ({| isExecuting := true;
        intervalId := Some handle;
        interval := Some {| delay := pacingInterval;
                            leads_seen := leads;
                            flag_seen := callInProgress;
                            pendingLeads := pendingLeads;
                            currentIndex := 0 |} |},
     [ SetIsExecuting true;
       ToastSuccess (VStr ("Started processing "
                           ++ string_of_nat (List.length pendingLeads)
                           ++ " pending leads"));
       SetInterval pacingInterval;
       SetIntervalId (Some handle) ]).

Definition stopExecution (h : Execution) : Execution * list event :=
  ({| isExecuting := false; intervalId := None;
      interval := match intervalId h with
                  | Some _ => None
                  | None => interval h
                  end |},
   ((match intervalId h with
     | Some _ => [ClearInterval; SetIntervalId None]
     | None => []
     end) ++ [SetIsExecuting false; ToastInfo (VStr "Stopped execution")])%list).

(** ** Calls in flight *)

(** Where a call of [triggerCall] waits. *)
Inductive Stage : Type :=
| AwaitsProvider        (* await supabase.functions.invoke(...) *)
| AwaitsUpdate.         (* await supabase.from('leads').update(...) *)

(** A call that waits: the lead it is for, where it waits, and the run
    whose interval callback awaits it (none for a single call). *)
Record Call : Type := {
  callee : string;
  stage : Stage;
  of_run : option nat
}.

(** The hook between two turns of the event loop: its state, the number of
    runs started so far (the armed interval, if any, is that of the last
    one), and the calls that wait. *)
Record Session : Type := {
  hook : Execution;
  isCallInProgress : bool;
  runs : nat;
  calls : list Call
}.

(** What happens by itself: the timer fires, or the answer a waiting call
    waits for arrives ([k] counts the waiting calls from 0). *)
Inductive Step : Type :=
| TimerFires
| ProviderAnswers (k : nat) (reply : InvokeReply)
| RepositoryAnswers (k : nat) (updateError : bool).

(** [currentIndex++] *)
Definition advance (h : Execution) : Execution :=
  match interval h with
  | Some t =>
      {| isExecuting := isExecuting h;
         intervalId := intervalId h;
         interval := Some {| delay := delay t;
                             leads_seen := leads_seen t;
                             flag_seen := flag_seen t;
                             pendingLeads := pendingLeads t;
                             currentIndex := S (currentIndex t) |} |}
  | None => h
  end.

(** The interval callback that awaited [c] goes on, with [currentIndex++]:
    the cursor is that of the run which placed the call, seen by the armed
    interval when it is the interval of that run. *)
Definition callback_resumes (c : Call) (w : Session) : Execution :=
  match of_run c with
  | Some r => if (r =? runs w)%nat then advance (hook w) else hook w
  | None => hook w
  end.

Fixpoint remove_nth {A : Type} (k : nat) (l : list A) : list A :=
  match l, k with
  | [], _ => []
  | _ :: l', 0 => l'
  | x :: l', S k' => x :: remove_nth k' l'
  end.

Fixpoint replace_nth {A : Type} (k : nat) (y : A) (l : list A) : list A :=
  match l, k with
  | [], _ => []
  | _ :: l', 0 => y :: l'
  | x :: l', S k' => x :: replace_nth k' y l'
  end.

(** The interval callback, up to its first wait or to its end.  It reads
    the [isCallInProgress] and, through [triggerCall], the [leads] of the
    render that started the run; the cursor moves at the end of the
    callback, that is once the call it awaits is over. *)
Definition timer_fires (w : Session) : Session * list event :=
  match interval (hook w) with
  | None => (w, [])
  | Some t =>
      if (List.length (pendingLeads t) <=? currentIndex t)%nat then
        ({| hook := {| isExecuting := false; intervalId := None;
                       interval := None |};
            isCallInProgress := isCallInProgress w;
            runs := runs w;
            calls := calls w |},
         [ ClearInterval; SetIntervalId None; SetIsExecuting false;
           ToastSuccess (VStr "Campaign execution completed") ])
      else
        match nth_error (pendingLeads t) (currentIndex t) with
        | Some currentLead =>
            if negb (flag_seen t) then
              let started :=
                triggerCall_starts (leads_seen t) (id currentLead) in
              if snd started then
                ({| hook := hook w;
                    isCallInProgress :=
                      flag_after (fst started) (isCallInProgress w);
                    runs := runs w;
                    calls := (calls w
                              ++ [{| callee := id currentLead;
                                     stage := AwaitsProvider;
                                     of_run := Some (runs w) |}])%list |},
                 fst started)
              else
                ({| hook := advance (hook w);
                    isCallInProgress :=
                      flag_after (fst started) (isCallInProgress w);
                    runs := runs w;
                    calls := calls w |},
                 fst started)
            else
              ({| hook := advance (hook w);
                  isCallInProgress := isCallInProgress w;
                  runs := runs w;
                  calls := calls w |}, [])
        | None =>
            ({| hook := advance (hook w);
                isCallInProgress := isCallInProgress w;
                runs := runs w;
                calls := calls w |}, [])
        end
  end.

(** The provider's answer reaches the [k]-th waiting call. *)
Definition provider_answers (k : nat) (reply : InvokeReply) (w : Session)
    : Session * list event :=
  match nth_error (calls w) k with
  | Some c =>
      match stage c with
      | AwaitsProvider =>
          let resumed := triggerCall_resumes reply in
          if snd resumed then
            ({| hook := hook w;
                isCallInProgress :=
                  flag_after (fst resumed) (isCallInProgress w);
                runs := runs w;
                calls := replace_nth k {| callee := callee c;
                                          stage := AwaitsUpdate;
                                          of_run := of_run c |} (calls w) |},
             fst resumed)
          else
            ({| hook := callback_resumes c w;
                isCallInProgress :=
                  flag_after (fst resumed) (isCallInProgress w);
                runs := runs w;
                calls := remove_nth k (calls w) |},
             fst resumed)
      | AwaitsUpdate => (w, [])
      end
  | None => (w, [])
  end.

(** The repository's answer reaches the [k]-th waiting call. *)
Definition repository_answers (k : nat) (updateError : bool) (w : Session)
    : Session * list event :=
  match nth_error (calls w) k with
  | Some c =>
      match stage c with
      | AwaitsUpdate =>
          let trace := triggerCall_ends (callee c) updateError in
          ({| hook := callback_resumes c w;
              isCallInProgress := flag_after trace (isCallInProgress w);
              runs := runs w;
              calls := remove_nth k (calls w) |},
           trace)
      | AwaitsProvider => (w, [])
      end
  | None => (w, [])
  end.

Definition tick (st : Step) (w : Session) : Session * list event :=
  match st with
  | TimerFires => timer_fires w
  | ProviderAnswers k reply => provider_answers k reply w
  | RepositoryAnswers k updateError => repository_answers k updateError w
  end.

(** The hook after a series of steps, how many of them ran the interval
    callback (found the interval armed), and their trace. *)
Fixpoint run (fs : list Step) (w : Session) : Session :=
  match fs with
  | [] => w
  | st :: fs' => run fs' (fst (tick st w))
  end.

Fixpoint callbacks_run (fs : list Step) (w : Session) : nat :=
  match fs with
  | [] => 0
  | st :: fs' =>
      (match st, interval (hook w) with
       | TimerFires, Some _ => 1
       | _, _ => 0
       end)
      + callbacks_run fs' (fst (tick st w))
  end.

Fixpoint run_trace (fs : list Step) (w : Session) : list event :=
  match fs with
  | [] => []
  | st :: fs' => (snd (tick st w) ++ run_trace fs' (fst (tick st w)))%list
  end.

(* ================================================================== *)
(** * useCampaignExecution: the rest of the hook *)
(* ================================================================== *)

Definition toggleExecution (callInProgress : bool) (leads : list Lead)
    (selectedPacing : string) (h : Execution) : Execution * list event :=
  if negb (isExecuting h)
  then startExecution callInProgress leads selectedPacing h
  else stopExecution h.

(** [triggerSingleCall(leadId)], given the [isCallInProgress] the hook
    holds. *)
Definition triggerSingleCall (callInProgress : bool) (leads : list Lead)
    (leadId : string) (provider : InvokeReply) (updateError : bool)
    : list event :=
  if callInProgress then
    [ToastInfo (VStr "A call is already in progress, please wait")]
  else triggerCall leads leadId provider updateError.

(** The effect that watches the live leads: once none is pending with a
    phone id, none is in progress and the statistics count a completed
    call, the run is stopped. *)
Definition finishedEffect (leads : list Lead) (stats : LeadStats)
    (h : Execution) : Execution * list event :=
  if (0 <? List.length leads)%nat && isExecuting h then
    let pendingLeads := filter eligible leads in
    let inProgressLeads :=
      filter (fun lead => String.eqb (status lead) "In Progress") leads in
    if (List.length pendingLeads =? 0)%nat
       && (List.length inProgressLeads =? 0)%nat
       && (0 <? completed stats)%nat
    then
      (fst (stopExecution h),
       (snd (stopExecution h)
        ++ [ToastSuccess (VStr "Campaign Finished!")])%list)
    else (h, [])
  else (h, []).

(** ** The operations of the hook on a session *)

(** A run is started: a new interval, for a new run, when a lead is
    eligible. *)
Definition start (leads : list Lead) (selectedPacing : string) (w : Session)
    : Session * list event :=
  let r := startExecution (isCallInProgress w) leads selectedPacing (hook w) in
  ({| hook := fst r;
      isCallInProgress := isCallInProgress w;
      runs := if (List.length (filter eligible leads) =? 0)%nat
              then runs w else S (runs w);
      calls := calls w |},
   snd r).

Definition stop (w : Session) : Session * list event :=
  ({| hook := fst (stopExecution (hook w));
      isCallInProgress := isCallInProgress w;
      runs := runs w;
      calls := calls w |},
   snd (stopExecution (hook w))).

Definition toggle (leads : list Lead) (selectedPacing : string) (w : Session)
    : Session * list event :=
  if negb (isExecuting (hook w)) then start leads selectedPacing w
  else stop w.

Definition watch (leads : list Lead) (stats : LeadStats) (w : Session)
    : Session * list event :=
  ({| hook := fst (finishedEffect leads stats (hook w));
      isCallInProgress := isCallInProgress w;
      runs := runs w;
      calls := calls w |},
   snd (finishedEffect leads stats (hook w))).

(** [triggerSingleCall(leadId)] up to its first wait. *)
Definition single_call (leads : list Lead) (leadId : string) (w : Session)
    : Session * list event :=
  if isCallInProgress w then
    (w, [ToastInfo (VStr "A call is already in progress, please wait")])
  else
    let started := triggerCall_starts leads leadId in
    ({| hook := hook w;
        isCallInProgress := flag_after (fst started) (isCallInProgress w);
        runs := runs w;
        calls := if snd started
                 then (calls w ++ [{| callee := leadId;
                                      stage := AwaitsProvider;
                                      of_run := None |}])%list
                 else calls w |},
     fst started).

(* ================================================================== *)
(** * Dashboard: searching the leads *)
(* ================================================================== *)

(** [s.trim()] *)
Fixpoint trim_end (s : string) : string :=
  match s with
  | EmptyString => EmptyString
  | String c s' =>
      let r := trim_end s' in
      if is_space c && String.eqb r "" then EmptyString else String c r
  end.

Definition trim (s : string) : string := trim_end (skip_spaces s).

(** [array.filter(f)] for a callback that may throw. *)
Fixpoint filter_throwing {A : Type} (f : A -> result bool) (l : list A)
    : result (list A) :=
  match l with
  | [] => Ok []
  | x :: l' =>
      keep <- f x ;;
      rest <- filter_throwing f l' ;;
      Ok (if keep then x :: rest else rest)
  end.

(** The callback of the search: name, phone number, status or disposition
    holds the term.  A lead without phone number makes it throw once the
    name has not matched. *)
Definition search_matches (term : string) (lead : Lead) : result bool :=
  if includes (toLowerCase (name lead)) (toLowerCase term) then Ok true else
  match phone_number lead with
  | None => Throw TypeError
  | Some phone =>
      Ok (includes phone term
          || includes (toLowerCase (status lead)) (toLowerCase term)
          || match disposition lead with
             | Some d => negb (String.eqb d "")
                         && includes (toLowerCase d) (toLowerCase term)
             | None => false
             end)
  end.

Definition applySearchFilter (leadsToFilter : list Lead) (term : string)
    : result (list Lead) :=
  if String.eqb (trim term) "" then Ok leadsToFilter
  else filter_throwing (search_matches term) leadsToFilter.

(* ================================================================== *)
(** * The campaign service *)
(* ================================================================== *)

(** [leads.reduce((sum, lead) => sum + (lead.duration || 0), 0) || 0], and
    the same for the cost. *)
Definition total_duration (leads : list Lead) : float :=
  or_zero (fold_left (fun sum lead => (sum + or_zero (duration lead))%float)
             leads 0%float).

Definition total_cost (leads : list Lead) : float :=
  or_zero (fold_left (fun sum lead => (sum + or_zero (cost lead))%float)
             leads 0%float).

(** [s.replace(pattern, replacement)] for a pattern that is a string and a
    replacement without [$]: the first occurrence is replaced. *)
Fixpoint replace_first (s pattern replacement : string) : string :=
  if String.prefix pattern s then
    replacement
    ++ String.substring (String.length pattern)
         (String.length s - String.length pattern) s
  else
    match s with
    | EmptyString => EmptyString
    | String c s' => String c (replace_first s' pattern replacement)
    end.

(** [/[^a-z0-9]/i] *)
Definition is_alphanumeric (c : ascii) : bool :=
  let n := N_of_ascii c in
  ((48 <=? n) && (n <=? 57) || (65 <=? n) && (n <=? 90)
   || (97 <=? n) && (n <=? 122))%N.

(** [campaignName.replace(/[^a-z0-9]/gi, '_')] of [downloadCampaignReport] *)
Fixpoint sanitizedCampaignName (campaignName : string) : string :=
  match campaignName with
  | EmptyString => EmptyString
  | String c s =>
      String (if is_alphanumeric c then c else "_"%char)
        (sanitizedCampaignName s)
  end.

Module Campaign.

(** The status of a campaign, from the counts of its leads. *)
Definition status_of (inProgress completed failed : nat) : string :=
  if (0 <? inProgress)%nat then "in-progress"
  else if (0 <? completed)%nat then "completed"
  else if (0 <? failed)%nat then "partial"
  else "pending".

(** The columns [updateCampaignStats] writes. *)
Record Stats : Type := {
  status : string;
  completed : nat;
  in_progress : nat;
  remaining : nat;
  failed : nat;
  duration : float;
  cost : float
}.

(** The row [createCampaign] inserts. *)
Record Row : Type := {
  name : string;
  file_name : option string;
  leads_count : nat;
  stats : Stats
}.

End Campaign.

Definition campaign_stats (leads : list Lead) : Campaign.Stats :=
  let completed := count_status "Completed" leads in
  let inProgress := count_status "In Progress" leads in
  let failed := count_status "Failed" leads in
  let remaining := count_status "Pending" leads in
  {| Campaign.status := Campaign.status_of inProgress completed failed;
     Campaign.completed := completed;
     Campaign.in_progress := inProgress;
     Campaign.remaining := remaining;
     Campaign.failed := failed;
     Campaign.duration := total_duration leads;
     Campaign.cost := total_cost leads |}.

(** [updateCampaignStats]: the update it sends for the leads fetched for
    the campaign; none when there is no lead. *)
Definition updateCampaignStats (leads : list Lead) : option Campaign.Stats :=
  if (List.length leads =? 0)%nat then None else Some (campaign_stats leads).

(** [createCampaign(fileName)]: the campaign it inserts for the leads of
    the table, [localeDate] being today's [toLocaleDateString()]; none
    when there is no lead. *)
Definition createCampaign (fileName : option string) (localeDate : string)
    (leads : list Lead) : option Campaign.Row :=
  if (List.length leads =? 0)%nat then None else
  let campaignName :=
    match fileName with
    | Some f => if String.eqb f "" then "Campaign " ++ localeDate
                else replace_first f ".csv" ""
    | None => "Campaign " ++ localeDate
    end in
  Some {| Campaign.name := campaignName;
          Campaign.file_name := fileName;
          Campaign.leads_count := List.length leads;
          Campaign.stats := campaign_stats leads |}.

(* ================================================================== *)
(** * The specification's vocabulary *)
(* ================================================================== *)

(** The definitions of this part follow the words of the specification;
    the theorems compare them with the code above. *)

(** ** The disposition rules as an ordered table *)
Module Rules.

Record rule : Type := {
  label : string;
  (** keywords looked for in the case-folded content *)
  content_keywords : list string;
  (** keywords looked for in the case-folded end reason *)
  reason_keywords : list string;
  (** whether the rule needs both a content and a reason keyword (the
      sub-labels of a transfer) or either one *)
  needs_both : bool
}.

Definition mentions (text : string) (ks : list string) : bool :=
  existsb (includes text) ks.

Definition applies (content : string) (endReason : option string)
    (r : rule) : bool :=
  let in_content := mentions (toLowerCase content) (content_keywords r) in
  let in_reason :=
    match endReason with
    | Some e => mentions (toLowerCase e) (reason_keywords r)
    | None => false
    end in
  if needs_both r then in_content && in_reason else in_content || in_reason.

Definition forwarded : list string :=
  ["assistant forwarded call"; "assistant-forwarded-call"].

(** Highest priority first. *)
Definition priority : list rule :=
  [ {| label := "Answering Machine";
       content_keywords := ["leave a message"; "at the tone"; "voicemail";
                            "can't take your call"; "after the beep"];
       reason_keywords := ["voicemail"];
       needs_both := false |};
    {| label := "No Answer";
       content_keywords := [];
       reason_keywords := ["customer did not answer"; "customer-did-not-answer";
                           "twilio failed connection"; "no-answer"; "no_answer"];
       needs_both := false |};
    {| label := "Warm Transfer - Education";
       content_keywords := ["education consultant"; "education advisor";
                            "forwarded to education"; "transferred to education"];
       reason_keywords := forwarded;
       needs_both := true |};
    {| label := "Warm Transfer - Job";
       content_keywords := ["job consultant"; "job advisor";
                            "forwarded to job"; "transferred to job"];
       reason_keywords := forwarded;
       needs_both := true |};
    {| label := "Warm Transfer";
       content_keywords := [];
       reason_keywords := forwarded;
       needs_both := false |};
    {| label := "Do Not Contact";
       content_keywords := ["do not call"; "don't call"; "remove me";
                            "stop calling"; "take me off"; "unsubscribe"];
       reason_keywords := [];
       needs_both := false |};
    {| label := "Language Barrier";
       content_keywords := ["language barrier"; "no english";
                            "don't speak english"; habla_espanol;
                            "communication issue"; "language problem"];
       reason_keywords := [];
       needs_both := false |};
    {| label := "Not Qualified";
       content_keywords := ["not qualified"; "qualification failed";
                            "no high school diploma"; "no ged"; "under 18";
                            "not a us citizen"; "no green card";
                            "currently enrolled in school";
                            "currently enrolled in college";
                            "still in school"; "still in college"];
       reason_keywords := [];
       needs_both := false |};
    {| label := "Not Interested";
       content_keywords := ["not interested"; "no thanks"; "not right now";
                            "not looking"; "not for me"; "don't want"];
       reason_keywords := [];
       needs_both := false |};
    {| label := "Hang Up";
       content_keywords := [];
       reason_keywords := ["customer ended call"; "customer-ended-call"];
       needs_both := false |} ].

(** The label of the first rule that applies; failing that, the end reason
    when there is one, and "Unknown" when there is none. *)
Definition classify (content : string) (endReason : option string) : string :=
  match find (applies content endReason) priority with
  | Some r => label r
  | None =>
      match endReason with
      | Some e => "Other: " ++ e
      | None => "Unknown"
      end
  end.

End Rules.

(** A field of free text: present as a non-empty string, or absent. *)
Definition text_of (v : value) : option string :=
  match v with
  | VStr s => if String.eqb s "" then None else Some s
  | _ => None
  end.

Definition is_text (v : value) : bool :=
  match v with
  | VNull => true
  | VStr s => negb (String.eqb s "")
  | _ => false
  end.

Definition or_blank (o : option string) : string :=
  match o with Some s => s | None => "" end.

(** ** Failure markers of a payload *)

(** [s] holds [k] up to letter case: some stretch of [s] folds to [k]. *)
Definition holds_ignoring_case (s k : string) : Prop :=
  exists a u b, s = a ++ u ++ b /\ toLowerCase u = k.

Definition failure_marked (payload : value) : Prop :=
  field payload "success" = VBool false
  \/ field (field payload "message") "success" = VBool false
  \/ exists s, field payload "status" = VStr s /\ holds_ignoring_case s "fail".

(** ** The four steps of the lead matcher *)
Module Matcher.

Definition digits_of (s : string) : string := strip_non_digits s.

Definition first_match (steps : list (option Lead)) : option Lead :=
  fold_right (fun step rest =>
                match step with Some l => Some l | None => rest end)
             None steps.

(** (1) exact string match on the stored phone number *)
Definition exact (rows : list Lead) (phone : string) : option Lead :=
  find (fun l => match phone_number l with
                 | Some p => String.eqb p phone
                 | None => false
                 end) rows.

(** [s] holds [k] as a substring, letter case ignored. *)
Definition holds (s k : string) : bool :=
  includes (toLowerCase s) (toLowerCase k).

(** (2) stored numbers holding the last ten digits of the incoming one *)
Definition last_ten (rows : list Lead) (phone : string) : option Lead :=
  find (fun l => match phone_number l with
                 | Some p => holds p (slice_last 10 (digits_of phone))
                 | None => false
                 end) rows.

(** (3) at most 25 leads; digit-stripped suffixes compared with [endsWith]
    in either direction *)
Definition either_way (stored incoming : string) : bool :=
  endsWith stored (slice_last 10 incoming)
  || endsWith incoming (slice_last 10 stored).

Definition scan (rows : list Lead) (phone : string) : option Lead :=
  find (fun l => match phone_number l with
                 | Some p => negb (String.eqb p "")
                             && either_way (digits_of p) (digits_of phone)
                 | None => false
                 end) (firstn 25 rows).








(** A text without any of the characters that a pattern reads
    specially. *)
Definition is_pattern_unit (c : ascii) : bool :=
  is_any_run c || Ascii.eqb c "_" || Ascii.eqb c backslash.

Fixpoint plain (s : string) : bool :=
  match s with
  | EmptyString => true
  | String c s' => negb (is_pattern_unit c) && plain s'
  end.

End Matcher.

(** A repository all of whose [select] requests deliver. *)
Definition delivers (db : Backend) : Prop :=
  on_eq_phone db = Delivered /\ on_like_phone db = Delivered
  /\ on_scan db = Delivered /\ on_like_name db = Delivered.

(** ** The pacing rates the dashboard offers *)
Definition configured_rates : list string := ["1"; "2"; "3"; "5"].

(** ** Ordered fallback over candidate values *)

(** The first candidate that is truthy, [dflt] when none is. *)
Definition first_present (candidates : list value) (dflt : value) : value :=
  match find truthy candidates with
  | Some v => v
  | None => dflt
  end.

(** [v.k1.k2...kn], read without guards. *)
Definition deep (v : value) (ks : list string) : value :=
  fold_left field ks v.

(** The end reason, the summary and the transcript of a payload: each the
    first of its candidate paths that holds something. *)
Definition endReason_of (payload : value) : value :=
  first_present
    [ deep payload ["endedReason"]; deep payload ["message"; "endedReason"];
      deep payload ["end_reason"]; deep payload ["message"; "end_reason"] ]
    VNull.

Definition summary_of (payload : value) : value :=
  first_present
    [ deep payload ["message"; "analysis"; "summary"];
      deep payload ["analysis"; "summary"];
      deep payload ["summary"] ]
    VNull.

Definition transcript_of (payload : value) : value :=
  first_present
    [ deep payload ["message"; "transcript"]; deep payload ["transcript"] ]
    VNull.

(** The content the classifier reads: summary, a space, transcript. *)
Definition content_of (payload : value) : string :=
  or_blank (text_of (summary_of payload)) ++ " "
  ++ or_blank (text_of (transcript_of payload)).

(** ** The response contract *)




(** ** Delivering a webhook *)

(** What an update does to one row. *)
Definition rewrite_row (target : string) (u : LeadUpdate) (l : Lead) : Lead :=
  if String.eqb (id l) target then patch u l else l.

(** The repository with other rows in its table. *)
Definition with_leads (db : Backend) (rows : list Lead) : Backend :=
  {| leads := rows;
     on_eq_phone := on_eq_phone db;
     on_like_phone := on_like_phone db;
     on_scan := on_scan db;
     on_like_name := on_like_name db;
     on_update := on_update db |}.

(** The repository once a webhook has been handled. *)
Definition deliver `{Runtime} (db : Backend) (req : Request) : Backend :=
  with_leads db (table_after db (serve db req)).

(** ** The dispatcher and the scheduler *)

(** The provider reports success: the call settles without error and its
    data carry a truthy [success]. *)
Definition provider_success (reply : InvokeReply) : bool :=
  match reply with
  | InvokeResponds None data => truthy (field data "success")
  | _ => false
  end.

(** The lead with a given id, as the hook's [leads] have it. *)
Definition lead_by_id (leads : list Lead) (leadId : string) : option Lead :=
  find (fun lead => String.eqb (id lead) leadId) leads.

(** An interval with its cursor moved, a hook that holds an armed interval,
    and the hook once a run is over. *)
Definition at_index (t : Interval) (i : nat) : Interval :=
  {| delay := delay t; leads_seen := leads_seen t; flag_seen := flag_seen t;
     pendingLeads := pendingLeads t; currentIndex := i |}.

Definition armed (h : Execution) (t : Interval) : Execution :=
  {| isExecuting := isExecuting h; intervalId := intervalId h;
     interval := Some t |}.

Definition stopped : Execution :=
  {| isExecuting := false; intervalId := None; interval := None |}.

Definition no_leads_message : value :=
  VStr "No pending leads with phone IDs available to process".

(** ** The labels of the classifier *)

Definition fixed_labels : list string :=
  [ "Answering Machine"; "No Answer"; "Warm Transfer - Education";
    "Warm Transfer - Job"; "Warm Transfer"; "Do Not Contact";
    "Language Barrier"; "Not Qualified"; "Not Interested"; "Hang Up";
    "Unknown" ].

(** A label of the closed set, or the end reason after "Other: ". *)
Definition is_label (l : string) : Prop :=
  In l fixed_labels \/ exists r, l = "Other: " ++ r.

(** ** The candidate paths of the extractors *)

Definition contactId_paths : list (list string) :=
  [ ["metadata"; "contactId"];
    ["message"; "artifact"; "assistantOverrides"; "metadata"; "contactId"];
    ["assistantOverrides"; "metadata"; "contactId"];
    ["customer"; "contactId"];
    ["message"; "assistantOverrides"; "metadata"; "contactId"];
    ["message"; "metadata"; "contactId"] ].

Definition phoneNumber_paths : list (list string) :=
  [ ["customer"; "number"];
    ["message"; "artifact"; "customer"; "number"];
    ["message"; "customer"; "number"];
    ["to"];
    ["message"; "to"] ].

Definition customerName_paths : list (list string) :=
  [ ["customer"; "name"];
    ["message"; "artifact"; "customer"; "name"];
    ["message"; "customer"; "name"] ].

(** A lead that has a phone number stored, whatever it is. *)
Definition has_phone (l : Lead) : bool :=
  match phone_number l with Some _ => true | None => false end.

(** ** The statuses the statistics count *)
Definition counted_statuses : list string :=
  ["Completed"; "In Progress"; "Failed"; "Pending"].

Definition counted (s : string) : bool :=
  existsb (String.eqb s) counted_statuses.

(** ** The hook as its users drive it *)

(** The requests to the provider that a trace holds, in order. *)
Definition requests (trace : list event) : list string :=
  flat_map (fun e => match e with
                     | InvokeTriggerCall leadId => [leadId]
                     | _ => []
                     end) trace.

(** The hook of a dashboard that has just been mounted. *)
Definition mounted : Session :=
  {| hook := stopped; isCallInProgress := false; runs := 0; calls := [] |}.

(** The calls that wait and belong to the last run started, that is, the
    calls the callbacks of the armed interval await. *)
Definition of_this_run (r : nat) (c : Call) : bool :=
  match of_run c with
  | Some r' => (r' =? r)%nat
  | None => false
  end.

Definition awaited (w : Session) : nat :=
  List.length (filter (of_this_run (runs w)) (calls w)).

(** No call that waits belongs to a run that has not been started. *)
Definition tidy (w : Session) : Prop :=
  forall c r, In c (calls w) -> of_run c = Some r -> r <= runs w.

(** A firing of the timer followed by the answers to the call it placed,
    if any, before anything else happens; and a series of such rounds. *)
Definition round (answer : InvokeReply * bool) : list Step :=
  [ TimerFires; ProviderAnswers 0 (fst answer);
    RepositoryAnswers 0 (snd answer) ].

Definition rounds (answers : list (InvokeReply * bool)) : list Step :=
  flat_map round answers.

(** What happens to the hook of a dashboard: the operations it exports, a
    run of the effect that watches the leads, and the steps that happen
    by themselves. *)
Inductive action : Type :=
| Toggle (leads : list Lead) (selectedPacing : string)
| Stop
| Single (leads : list Lead) (leadId : string)
| Watch (leads : list Lead) (stats : LeadStats)
| Fire (st : Step).

Definition perform (w : Session) (a : action) : Session :=
  match a with
  | Toggle leads selectedPacing => fst (toggle leads selectedPacing w)
  | Stop => fst (stop w)
  | Single leads leadId => fst (single_call leads leadId w)
  | Watch leads stats => fst (watch leads stats w)
  | Fire st => fst (tick st w)
  end.

(** The session, and the state of the hook, after a history of actions
    from the mount on. *)
Definition session_after (history : list action) : Session :=
  fold_left perform history mounted.

Definition after (history : list action) : Execution :=
  hook (session_after history).

(** A run is on: the flag is set, a handle is held and a timer is armed. *)
Definition running (h : Execution) : Prop :=
  isExecuting h = true /\ intervalId h = Some handle
  /\ exists t, interval h = Some t.

(** The stored leads once a lead has been marked as called. *)
Definition marked_in_progress (leadId : string) (rows : list Lead)
    : list Lead :=
  map (fun l =>
         if String.eqb (id l) leadId then
           {| id := id l; name := name l; phone_number := phone_number l;
              phone_id := phone_id l; status := "In Progress";
              disposition := Some "Call initiated";
              duration := duration l; cost := cost l |}
         else l) rows.

(** The hook's copy of the leads does not hold the lead under another
    status than "Pending". *)
Definition held_pending (leads : list Lead) (leadId : string) : bool :=
  match lead_by_id leads leadId with
  | Some lead => String.eqb (status lead) "Pending"
  | None => true
  end.

(** ** Sample data *)
Module Sample.

Definition q : string := String (ascii_of_N 34) "".

(** The webhook of the specification's end-to-end example. *)
Definition webhook_text : string :=
  "{" ++ q ++ "customer" ++ q ++ ":{" ++ q ++ "number" ++ q ++ ":"
  ++ q ++ "+1 (555) 010-2222" ++ q ++ "}," ++ q ++ "success" ++ q ++ ":true,"
  ++ q ++ "durationSeconds" ++ q ++ ":90," ++ q ++ "summary" ++ q ++ ":"
  ++ q ++ "not interested, please remove me" ++ q ++ "}".

Definition webhook : value :=
  VObj [ ("customer", VObj [("number", VStr "+1 (555) 010-2222")]);
         ("success", VBool true);
         ("durationSeconds", VNum 90);
         ("summary", VStr "not interested, please remove me") ].

(** A runtime that parses the sample text and coerces [null] and the
    booleans; it is used to run the examples only. *)
Definition runtime : Runtime := {|
  ToString := fun v =>
    match v with
    | VNull => Ok "null"
    | VBool true => Ok "true"
    | VBool false => Ok "false"
    | _ => Throw TypeError
    end;
  ToNumber := fun v =>
    match v with
    | VNull => Ok 0%float
    | VBool true => Ok 1%float
    | VBool false => Ok 0%float
    | _ => Ok nan
    end;
  JSON_parse := fun s =>
    if String.eqb s webhook_text then Ok webhook
    else if String.eqb s "null" then Ok VNull
    else Throw SyntaxError
|}.

Definition lead (i phone : string) (st : string) : Lead :=
  {| id := i; name := "Ada Lovelace"; phone_number := Some phone;
     phone_id := Some "p1"; status := st; disposition := None;
     duration := 0; cost := 0 |}.

Definition db : Backend :=
  {| leads := [lead "L1" "5550102222" "In Progress"];
     on_eq_phone := Delivered; on_like_phone := Delivered;
     on_scan := Delivered; on_like_name := Delivered;
     on_update := None |}.

Definition post : Request := {| method := "POST"; text := Ok webhook_text |}.

Definition five_leads : list Lead :=
  [ lead "L1" "5550100001" "Pending"; lead "L2" "5550100002" "Pending";
    lead "L3" "5550100003" "Pending"; lead "L4" "5550100004" "Pending";
    lead "L5" "5550100005" "Pending" ].

Definition idle : Execution :=
  {| isExecuting := false; intervalId := None; interval := None |}.

Definition answered : InvokeReply * bool :=
  (InvokeResponds None (VObj [("success", VBool true)]), false).

(** A call that ended for a reason the classifier has no label for. *)
Definition other_reason : value :=
  VObj [ ("endedReason", VStr "pipeline-error") ].


(** A payload with an explicit zero at the first duration path. *)
Definition zero_then_nested : value :=
  VObj [ ("durationSeconds", VNum 0);
         ("message", VObj [("duration", VNum 42)]) ].

(** A connected call of zero length, and a payload whose status reads
    as a failure. *)
Definition zero_length_call : value :=
  VObj [ ("durationSeconds", VNum 0); ("endedReason", VStr "customer-ended-call") ].

Definition failed_status : value :=
  VObj [ ("status", VStr "Call FAILED") ].

(** A voicemail greeting that also declines, and an unanswered call. *)
Definition greeting : value :=
  VObj [ ("message",
          VObj [("transcript",
                 VStr "Please leave a message. I am not interested.")]) ].

Definition unanswered : value :=
  VObj [ ("endedReason", VStr "customer-did-not-answer") ].


(** A pending lead, called with the provider accepting. *)
Definition pending_lead : Lead := lead "L1" "5550100001" "Pending".

Definition accepts : InvokeReply :=
  InvokeResponds None (VObj [("success", VBool true)]).

(** Leads none of which can be dispatched. *)
Definition no_eligible : list Lead :=
  [ lead "L1" "5550100001" "Completed";
    {| id := "L2"; name := "Grace Hopper"; phone_number := Some "5550100002";
       phone_id := None; status := "Pending"; disposition := None;
       duration := 0; cost := 0 |} ].

(** A webhook that names its lead. *)
Definition correlated_text : string :=
  "{" ++ q ++ "metadata" ++ q ++ ":{" ++ q ++ "contactId" ++ q ++ ":"
  ++ q ++ "L9" ++ q ++ "}," ++ q ++ "status" ++ q ++ ":"
  ++ q ++ "failed" ++ q ++ "}".

Definition correlated : value :=
  VObj [ ("metadata", VObj [("contactId", VStr "L9")]);
         ("status", VStr "failed") ].

(** The sample runtime, knowing that text as well. *)
Definition runtime2 : Runtime := {|
  ToString := @ToString runtime;
  ToNumber := @ToNumber runtime;
  JSON_parse := fun s =>
    if String.eqb s correlated_text then Ok correlated
    else @JSON_parse runtime s
|}.

Definition correlated_post : Request :=
  {| method := "POST"; text := Ok correlated_text |}.

(** A repository whose first lookup is rejected. *)
Definition unreachable_db : Backend :=
  {| leads := leads db;
     on_eq_phone := Rejected; on_like_phone := Delivered;
     on_scan := Delivered; on_like_name := Delivered;
     on_update := None |}.

(** A table with a lead stored without any digit in its number. *)
Definition placeholder_db : Backend :=
  with_leads db [lead "L7" "unknown" "Pending"].

(** A table of two leads with distinct ids, one of them being called. *)
Definition calling_db : Backend :=
  with_leads db [ lead "L9" "5550100009" "In Progress";
                  lead "L2" "5550100002" "Pending" ].

End Sample.

(* ================================================================== *)
(** * Facts about strings *)
(* ================================================================== *)

Section StringFacts.

Lemma append_nil_r (s : string) : s ++ "" = s.
Proof. induction s as [|c s IH]; simpl; [reflexivity | now rewrite IH]. Qed.

Lemma append_assoc (a b c : string) : (a ++ b) ++ c = a ++ b ++ c.
Proof. induction a as [|x a IH]; simpl; [reflexivity | now rewrite IH]. Qed.

Lemma length_append (a b : string) :
  String.length (a ++ b) = String.length a + String.length b.
Proof. induction a as [|x a IH]; simpl; [reflexivity | now rewrite IH]. Qed.

Lemma prefix_iff (k s : string) :
  String.prefix k s = true <-> exists r, s = k ++ r.
Proof.
  revert s; induction k as [|a k IH]; intros s.
  - split; [intros _; now exists s | intros _; now destruct s].
  - destruct s as [|b s]; simpl.
    + split; [discriminate | intros [r Hr]; discriminate].
    + destruct (ascii_dec a b) as [->|Hab].
      * rewrite IH. split; intros [r Hr]; exists r.
        -- now rewrite Hr.
        -- now injection Hr.
      * split; [discriminate | intros [r Hr]; injection Hr; congruence].
Qed.

Lemma includes_iff (s k : string) :
  includes s k = true <-> exists a b, s = a ++ k ++ b.
Proof.
  induction s as [|c s IH]; cbn [includes].
  - rewrite orb_false_r, prefix_iff. split.
    + intros [r Hr]. now exists "", r.
    + intros [a [b Hab]]. destruct a; simpl in Hab.
      * now exists b.
      * discriminate.
  - rewrite orb_true_iff, IH, prefix_iff. split.
    + intros [[r Hr] | [a [b Hab]]].
      * now exists "", r.
      * exists (String c a), b. simpl. now rewrite Hab.
    + intros [a [b Hab]]. destruct a as [|x a]; simpl in Hab.
      * left. now exists b.
      * right. injection Hab as _ Hs. now exists a, b.
Qed.

Lemma toLowerCase_app (a b : string) :
  toLowerCase (a ++ b) = toLowerCase a ++ toLowerCase b.
Proof. induction a as [|x a IH]; simpl; [reflexivity | now rewrite IH]. Qed.

Lemma toLowerCase_app_inv (s x y : string) :
  toLowerCase s = x ++ y ->
  exists a b, s = a ++ b /\ toLowerCase a = x /\ toLowerCase b = y.
Proof.
  revert s; induction x as [|c x IH]; intros s H; simpl in H.
  - now exists "", s.
  - destruct s as [|d s]; simpl in H; [discriminate|].
    injection H as Hc Hs. destruct (IH _ Hs) as [a [b [-> [Ha Hb]]]].
    exists (String d a), b. simpl. now rewrite Hc, Ha.
Qed.

(** Searching the case-folded text for [k] finds the stretches of the
    text that fold to [k]. *)
Lemma includes_toLowerCase_iff (s k : string) :
  includes (toLowerCase s) k = true <-> holds_ignoring_case s k.
Proof.
  rewrite includes_iff. unfold holds_ignoring_case. split.
  - intros [x [y H]].
    destruct (toLowerCase_app_inv _ _ _ H) as [a [r [-> [Ha Hr]]]].
    destruct (toLowerCase_app_inv _ _ _ Hr) as [u [b [-> [Hu Hb]]]].
    now exists a, u, b.
  - intros [a [u [b [-> Hu]]]].
    exists (toLowerCase a), (toLowerCase b).
    now rewrite !toLowerCase_app, Hu.
Qed.

(** A text that holds a keyword written in lower case still holds it once
    the text is case-folded. *)
Lemma includes_folded (s k : string) :
  toLowerCase k = k -> includes s k = true ->
  includes (toLowerCase s) k = true.
Proof.
  intros Hk. rewrite includes_toLowerCase_iff, includes_iff.
  intros [a [b ->]]. now exists a, k, b.
Qed.

Lemma substring_all (s : string) (n : nat) :
  String.length s <= n -> String.substring 0 n s = s.
Proof.
  revert n; induction s as [|c s IH]; intros n Hn; simpl in *.
  - now destruct n.
  - destruct n as [|n]; [lia|]. now rewrite IH by lia.
Qed.

Lemma length_substring (s : string) (a n : nat) :
  String.length (String.substring a n s)
  = Nat.min n (String.length s - a).
Proof.
  revert a n; induction s as [|c s IH]; intros a n; simpl.
  - destruct a, n; simpl; try reflexivity; now rewrite Nat.min_0_r.
  - destruct a as [|a]; simpl.
    + destruct n as [|n]; simpl; [reflexivity|].
      rewrite IH, Nat.sub_0_r. reflexivity.
    + apply IH.
Qed.

Lemma length_slice_last (n : nat) (s : string) :
  String.length (slice_last n s) = Nat.min n (String.length s).
Proof. unfold slice_last. rewrite length_substring. lia. Qed.

Lemma slice_last_all (n : nat) (s : string) :
  String.length s <= n -> slice_last n s = s.
Proof.
  intros H. unfold slice_last.
  replace (String.length s - n) with 0 by lia. now apply substring_all.
Qed.

(** A string ends with every one of its tails [slice(-n)]. *)
Lemma endsWith_slice_last (n : nat) (s : string) :
  endsWith s (slice_last n s) = true.
Proof.
  unfold endsWith. rewrite length_slice_last.
  apply andb_true_iff; split.
  - apply Nat.leb_le. lia.
  - apply String.eqb_eq.
    destruct (Nat.le_gt_cases n (String.length s)) as [Hle|Hgt].
    + now rewrite Nat.min_l by assumption.
    + rewrite Nat.min_r by lia.
      rewrite !slice_last_all by lia. reflexivity.
Qed.

End StringFacts.

(* ================================================================== *)
(** * Payload normalisation: duration and status *)
(* ================================================================== *)

Section Normalisation.

Lemma get_not_null (payload : value) (k : string) :
  payload <> VNull -> get payload k = Ok (field payload k).
Proof. destruct payload; simpl; congruence. Qed.

Lemma field_truthy_parent (v : value) (k : string) :
  truthy (field v k) = true -> truthy v = true.
Proof. destruct v; simpl; try discriminate; reflexivity. Qed.

Lemma guarded_field (v : value) (k : string) :
  truthy v && truthy (field v k) = truthy (field v k).
Proof.
  destruct (truthy (field v k)) eqn:E.
  - now rewrite (field_truthy_parent _ _ E).
  - apply andb_false_r.
Qed.

Lemma is_false_iff (v : value) : is_false v = true <-> v = VBool false.
Proof.
  destruct v as [|[|]| | | |]; simpl; split; congruence.
Qed.

Lemma guarded_is_false (v : value) (k : string) :
  truthy v && is_false (field v k) = is_false (field v k).
Proof.
  destruct v; simpl; rewrite ?andb_false_r; reflexivity.
Qed.

Lemma extractDuration_first_present (payload : value) :
  payload <> VNull ->
  extractDuration payload
  = Ok (first_present
          [ field payload "durationSeconds";
            field (field payload "message") "durationSeconds";
            field payload "duration";
            field (field payload "message") "duration" ]
          (VNum 0)).
Proof.
  intros Hnn. unfold extractDuration, first_present.
  rewrite !(get_not_null _ _ Hnn). cbn [bind find].
  rewrite !guarded_field.
  destruct (truthy (field payload "durationSeconds")); [reflexivity|].
  destruct (truthy (field (field payload "message") "durationSeconds"));
    [reflexivity|].
  destruct (truthy (field payload "duration")); [reflexivity|].
  destruct (truthy (field (field payload "message") "duration"));
    reflexivity.
Qed.

(** C10. Duration extraction takes a falsy value at a path for an absent
    one.  On a payload whose top-level [durationSeconds] is the number 0,
    a number [d] other than 0 (and NaN) held at [message.durationSeconds],
    at the top-level [duration] or at [message.duration] is returned in
    place of the 0, the earlier of these paths being falsy; and the result
    is the default 0 exactly when all four paths are absent or falsy. *)
Theorem extractDuration_falsy_is_absent (payload : value) :
  payload <> VNull ->
  let p1 := field payload "durationSeconds" in
  let p2 := field (field payload "message") "durationSeconds" in
  let p3 := field payload "duration" in
  let p4 := field (field payload "message") "duration" in
  (forall d : float,
      p1 = VNum 0 -> truthy (VNum d) = true ->
      p2 = VNum d
      \/ (truthy p2 = false /\ p3 = VNum d)
      \/ (truthy p2 = false /\ truthy p3 = false /\ p4 = VNum d) ->
      extractDuration payload = Ok (VNum d))
  /\ (extractDuration payload = Ok (VNum 0)
      <-> truthy p1 = false /\ truthy p2 = false
          /\ truthy p3 = false /\ truthy p4 = false).
Proof.
  intros Hnn p1 p2 p3 p4.
  rewrite (extractDuration_first_present _ Hnn).
  fold p1 p2 p3 p4. unfold first_present. cbn [find].
  split.
  - intros d H1 Hd H. rewrite H1. cbn [truthy]. 
    change (negb (PrimFloat.eqb 0 0 || is_nan 0)) with false. cbv iota.
    destruct H as [H2 | [[H2 H3] | [H2 [H3 H4]]]].
    + rewrite H2, Hd. reflexivity.
    + rewrite H2, H3, Hd. reflexivity.
    + rewrite H2, H3, H4, Hd. reflexivity.
  - destruct (truthy p1) eqn:E1.
    { split; [intros H; injection H as H; rewrite H in E1; discriminate
             | intros [? _]; discriminate]. }
    destruct (truthy p2) eqn:E2.
    { split; [intros H; injection H as H; rewrite H in E2; discriminate
             | intros [_ [? _]]; discriminate]. }
    destruct (truthy p3) eqn:E3.
    { split; [intros H; injection H as H; rewrite H in E3; discriminate
             | intros [_ [_ [? _]]]; discriminate]. }
    destruct (truthy p4) eqn:E4.
    { split; [intros H; injection H as H; rewrite H in E4; discriminate
             | intros [_ [_ [_ ?]]]; discriminate]. }
    split; [now intros _ | reflexivity].
Qed.

Lemma extractDuration_falsy_is_absent_witness :
  extractDuration Sample.zero_then_nested = Ok (VNum 42).
Proof.
  refine (proj1 (extractDuration_falsy_is_absent Sample.zero_then_nested _)
            42%float eq_refl eq_refl _).
  - discriminate.
  - right; right. repeat split.
Defined.

Lemma determineCallStatus_eq (payload : value) :
  payload <> VNull ->
  determineCallStatus payload
  = Ok (if is_false (field payload "success")
           || is_false (field (field payload "message") "success")
           || match field payload "status" with
              | VStr s => includes (toLowerCase s) "fail"
              | _ => false
              end
        then "Failed" else "Completed").
Proof.
  intros Hnn. unfold determineCallStatus.
  rewrite !(get_not_null _ _ Hnn). cbn [bind].
  rewrite guarded_is_false.
  destruct (is_false (field payload "success")
            || is_false (field (field payload "message") "success"));
    [reflexivity|].
  cbn [orb].
  destruct (field payload "status") as [| | |s| |]; try reflexivity.
  destruct (includes (toLowerCase s) "fail") eqn:E.
  - destruct s as [|c s]; [discriminate E | reflexivity].
  - now rewrite andb_false_r.
Qed.

Lemma failure_marked_iff (payload : value) :
  failure_marked payload
  <-> is_false (field payload "success")
      || is_false (field (field payload "message") "success")
      || match field payload "status" with
         | VStr s => includes (toLowerCase s) "fail"
         | _ => false
         end = true.
Proof.
  unfold failure_marked.
  rewrite !orb_true_iff, !is_false_iff.
  split.
  - intros [H | [H | [s [Hs H]]]]; auto.
    right. rewrite Hs. now apply includes_toLowerCase_iff.
  - intros [[H | H] | H]; auto.
    right; right. destruct (field payload "status"); try discriminate.
    eexists; split; [reflexivity|]. now apply includes_toLowerCase_iff.
Qed.

(** C3. Status determination answers "Failed" exactly when the payload
    carries [success: false] at top level or under [message], or a
    [status] string that holds "fail" up to letter case; every other
    payload, whatever its duration, is "Completed". *)
Theorem determineCallStatus_failed_iff (payload : value) :
  payload <> VNull ->
  (determineCallStatus payload = Ok "Failed" <-> failure_marked payload)
  /\ (~ failure_marked payload ->
      determineCallStatus payload = Ok "Completed").
Proof.
  intros Hnn. rewrite (determineCallStatus_eq _ Hnn), failure_marked_iff.
  destruct (is_false (field payload "success")
            || is_false (field (field payload "message") "success")
            || match field payload "status" with
               | VStr s => includes (toLowerCase s) "fail"
               | _ => false
               end).
  - split; [tauto | intros H; now elim H].
  - split; [split; intros H; discriminate H | reflexivity].
Qed.

Lemma determineCallStatus_failed_iff_witness :
  determineCallStatus Sample.zero_length_call = Ok "Completed"
  /\ determineCallStatus Sample.failed_status = Ok "Failed".
Proof.
  split.
  - refine (proj2 (determineCallStatus_failed_iff Sample.zero_length_call _) _).
    + discriminate.
    + rewrite failure_marked_iff. discriminate.
  - refine (proj2 (proj1 (determineCallStatus_failed_iff Sample.failed_status _)) _).
    + discriminate.
    + right; right. exists "Call FAILED". split; [reflexivity|].
      now exists "Call ", "FAIL", "ED".
Defined.

End Normalisation.

(* ================================================================== *)
(** * The disposition classifier *)
(* ================================================================== *)

Section Disposition.

Context {rt : Runtime}.

Lemma deep_falsy (v : value) (k : string) (ks : list string) :
  truthy v = false -> deep v (k :: ks) = VNull.
Proof.
  intros Hv. unfold deep. cbn [fold_left].
  assert (E : field v k = VNull) by (destruct v; simpl in *; congruence).
  rewrite E. clear. induction ks as [|k' ks IH]; simpl; auto.
Qed.

(** A guarded chain and the unguarded read agree on truthiness, and on the
    value when it is truthy. *)
Lemma path_deep (ks : list string) (v : value) :
  v <> VNull ->
  exists x, path v ks = Ok x
            /\ truthy x = truthy (deep v ks)
            /\ (truthy x = true -> x = deep v ks).
Proof.
  revert v; induction ks as [|k ks IH]; intros v Hv.
  - exists v. repeat split; reflexivity.
  - cbn [path]. rewrite (get_not_null _ _ Hv). cbn [bind].
    destruct ks as [|k' ks'].
    + exists (field v k). repeat split; reflexivity.
    + destruct (truthy (field v k)) eqn:E.
      * assert (Hx : field v k <> VNull) by (intros C; rewrite C in E; discriminate).
        destruct (IH _ Hx) as [x [Hp [Ht Hd]]].
        exists x. split; [exact Hp|]. split; assumption.
      * exists (field v k). split; [reflexivity|].
        change (deep v (k :: k' :: ks')) with (deep (field v k) (k' :: ks')).
        rewrite (deep_falsy _ _ _ E). split; [exact E|].
        rewrite E. discriminate.
Qed.

Lemma first_truthy_first_present (payload : value)
    (chains : list (list string)) (dflt : value) :
  payload <> VNull ->
  first_truthy payload chains dflt
  = Ok (first_present (map (deep payload) chains) dflt).
Proof.
  intros Hnn. unfold first_present.
  induction chains as [|ks rest IH]; [reflexivity|].
  cbn [first_truthy map find].
  destruct (path_deep ks _ Hnn) as [x [Hp [Ht Hd]]].
  rewrite Hp. cbn [bind]. rewrite <- Ht.
  destruct (truthy x) eqn:E.
  - now rewrite (Hd eq_refl).
  - exact IH.
Qed.

Lemma any_of_pure (bs : list bool) :
  any_of (map Ok bs) = Ok (existsb (fun b => b) bs).
Proof.
  induction bs as [|b bs IH]; [reflexivity|].
  cbn [map any_of bind existsb]. destruct b; [reflexivity | exact IH].
Qed.

Ltac reify_oks l :=
  lazymatch l with
  | nil => constr:(@nil bool)
  | cons (Ok ?b) ?r => let r' := reify_oks r in constr:(cons b r')
  end.

Ltac pure_any_of :=
  repeat match goal with
         | |- context [any_of ?l] =>
             let bs := reify_oks l in
             change (any_of l) with (any_of (map Ok bs));
             rewrite any_of_pure
         end.

Ltac split_rule :=
  match goal with
  | |- context [if ?c then _ else _] =>
      lazymatch c with
      | context [andb] => fail
      | _ => destruct c eqn:?
      end
  end.

Lemma is_text_cases (v : value) :
  is_text v = true ->
  (v = VNull /\ text_of v = None)
  \/ exists s, v = VStr s /\ text_of v = Some s /\ truthy v = true.
Proof.
  destruct v; simpl; try discriminate; auto.
  intros H. right. exists s.
  destruct (String.eqb s ""); [discriminate | auto].
Qed.

Lemma or_empty_text (v : value) :
  is_text v = true -> or_empty v = Ok (or_blank (text_of v)).
Proof.
  intros H. destruct (is_text_cases _ H) as [[-> _] | [s [-> [E T]]]].
  - reflexivity.
  - unfold or_empty. rewrite T, E. reflexivity.
Qed.

(** The cascade of the code and the rule table agree on text fields. *)
Lemma extractDisposition_classify (payload : value) :
  payload <> VNull ->
  is_text (endReason_of payload) = true ->
  is_text (summary_of payload) = true ->
  is_text (transcript_of payload) = true ->
  extractDisposition payload
  = Ok (Rules.classify (content_of payload) (text_of (endReason_of payload))).
Proof.
  intros Hnn He Hs Ht. unfold extractDisposition.
  rewrite !(first_truthy_first_present _ _ _ Hnn). cbn [bind map].
  fold (endReason_of payload) (summary_of payload) (transcript_of payload).
  rewrite (or_empty_text _ Hs), (or_empty_text _ Ht).
  fold (content_of payload).
  assert (Hlog : truthy (summary_of payload)
                 && negb (is_string (summary_of payload)) = false).
  { destruct (is_text_cases _ Hs) as [[-> _] | [s [-> _]]];
      [reflexivity | apply andb_false_r]. }
  rewrite Hlog. cbn [bind]. cbv zeta.
  fold (content_of payload).
  generalize (content_of payload) as content. intros content.
  set (lc := toLowerCase content).
  unfold Rules.classify, Rules.priority.
  destruct (is_text_cases _ He) as [[-> ->] | [e [-> [-> T]]]];
    [|rewrite T].
  - cbn [er_includes]. pure_any_of.
    cbn -[includes toLowerCase habla_espanol String.append].
    fold lc. rewrite ?orb_false_r, ?orb_assoc.
    repeat (split_rule; cbn -[includes toLowerCase habla_espanol String.append];
            rewrite ?andb_false_r, ?andb_true_r; try reflexivity).
  - cbn [er_includes]. pure_any_of.
    cbn -[includes toLowerCase habla_espanol String.append].
    fold lc. rewrite ?orb_false_r, ?orb_assoc.
    repeat (split_rule; cbn -[includes toLowerCase habla_espanol String.append];
            rewrite ?andb_false_r, ?andb_true_r; try reflexivity).
Qed.

(** C1. The classifier evaluates its rules in the fixed priority order
    Answering Machine, No Answer, Warm Transfer (Education, then Job, then
    the generic label), Do Not Contact, Language Barrier, Not Qualified,
    Not Interested, Hang Up, and answers with the label of the first rule
    that applies, with "Other: <end reason>" when none applies and an end
    reason exists, and with "Unknown" otherwise.  In particular a content
    holding both "leave a message" and "not interested" is an "Answering
    Machine", and the end reason "customer-did-not-answer" with empty
    content is "No Answer".  The payload's end reason, summary and
    transcript are text or absent. *)
Theorem extractDisposition_priority (payload : value) :
  payload <> VNull ->
  is_text (endReason_of payload) = true ->
  is_text (summary_of payload) = true ->
  is_text (transcript_of payload) = true ->
  map Rules.label Rules.priority
  = [ "Answering Machine"; "No Answer"; "Warm Transfer - Education";
      "Warm Transfer - Job"; "Warm Transfer"; "Do Not Contact";
      "Language Barrier"; "Not Qualified"; "Not Interested"; "Hang Up" ]
  /\ extractDisposition payload
     = Ok (Rules.classify (content_of payload)
             (text_of (endReason_of payload)))
  /\ (includes (content_of payload) "leave a message" = true ->
      includes (content_of payload) "not interested" = true ->
      extractDisposition payload = Ok "Answering Machine")
  /\ (text_of (endReason_of payload) = Some "customer-did-not-answer" ->
      content_of payload = " " ->
      extractDisposition payload = Ok "No Answer").
Proof.
  intros Hnn He Hs Ht.
  rewrite (extractDisposition_classify _ Hnn He Hs Ht).
  split; [reflexivity|]. split; [reflexivity|]. split.
  - intros Hm _.
    unfold Rules.classify, Rules.priority, Rules.applies, Rules.mentions.
    cbn -[includes toLowerCase].
    rewrite (includes_folded _ "leave a message" eq_refl Hm). reflexivity.
  - intros -> ->. reflexivity.
Qed.

End Disposition.

Lemma extractDisposition_priority_witness :
  @extractDisposition Sample.runtime Sample.greeting = Ok "Answering Machine"
  /\ @extractDisposition Sample.runtime Sample.unanswered = Ok "No Answer".
Proof.
  split.
  - refine (proj1 (proj2 (proj2
      (@extractDisposition_priority Sample.runtime Sample.greeting
         _ eq_refl eq_refl eq_refl))) eq_refl eq_refl).
    discriminate.
  - refine (proj2 (proj2 (proj2
      (@extractDisposition_priority Sample.runtime Sample.unanswered
         _ eq_refl eq_refl eq_refl))) eq_refl eq_refl).
    discriminate.
Defined.

(* ================================================================== *)
(** * The webhook handler *)
(* ================================================================== *)

Section Handler.

Context {rt : Runtime}.

(** Every [bind] of a computation that is known to end is unfolded, and a
    computation whose end is not known is split on. *)
Ltac step_bind :=
  match goal with
  | H : ?c = Ok _ |- context [bind ?c _] => rewrite H; cbn [bind]
  | H : ?c = Throw _ |- context [bind ?c _] => rewrite H; cbn [bind]
  | |- context [bind ?c _] => destruct c eqn:?; cbn [bind]
  end.









Ltac split_branches :=
  repeat match goal with
         | |- context [if ?c then _ else _] => destruct c eqn:?
         | |- context [on_update ?d] => destruct (on_update d) eqn:?
         end.


(** The update the handler sends carries the extracted duration in
    minutes and the cost derived from it. *)
Lemma update_derives_cost (db : Backend) (req : Request)
    (target : string) (u : LeadUpdate) :
  update (serve db req) = Some (target, u) ->
  exists raw payload v d,
    text req = Ok raw /\ JSON_parse raw = Ok payload
    /\ extractDuration payload = Ok v /\ to_number v = Ok d
    /\ new_duration u = Some (d / 60)%float
    /\ new_cost u = Some (d / 60 * 0.99)%float.
Proof.
  unfold serve.
  destruct (String.eqb (method req) "OPTIONS"); [discriminate|].
  destruct (text req) as [raw|e0] eqn:T; cbn [bind]; [|discriminate].
  unfold process.
  destruct (JSON_parse raw) as [payload|e1] eqn:P; [|discriminate].
  destruct (object_keys payload); cbn [bind]; [|discriminate].
  destruct (extractContactId payload); cbn [bind]; [|discriminate].
  destruct (extractPhoneNumber payload); cbn [bind]; [|discriminate].
  destruct (extractDisposition payload); cbn [bind]; [|discriminate].
  destruct (extractDuration payload) as [v|] eqn:D; cbn [bind]; [|discriminate].
  destruct (to_number v) as [d|] eqn:N; cbn [bind]; [|discriminate].
  repeat step_bind; try discriminate.
  all: split_branches; try discriminate.
  all: intros H; injection H as _ <-;
    exists raw, payload, v, d; repeat split; try assumption; reflexivity.
Qed.

End Handler.


(** C4, as the code has it.  The update derives the cost as
    [(d / 60) * 0.99] and the stored duration as [d / 60], both in binary64
    arithmetic, from the extracted duration [d]; a payload with
    [durationSeconds: 90] yields the duration 1.5 and the cost
    1.4849999999999999, the binary64 product of 1.5 and 0.99, which lies
    below 1.485. *)
Theorem lead_update_cost_is_derived :
  (forall (rt : Runtime) (db : Backend) (req : Request)
          (target : string) (u : LeadUpdate),
      update (serve db req) = Some (target, u) ->
      exists raw payload v d,
        text req = Ok raw /\ JSON_parse raw = Ok payload
        /\ extractDuration payload = Ok v /\ to_number v = Ok d
        /\ new_duration u = Some (d / 60)%float
        /\ new_cost u = Some (d / 60 * 0.99)%float)
  /\ update (@serve Sample.runtime Sample.db Sample.post)
     = Some ("L1", {| new_status := "Completed";
                      new_disposition := "Do Not Contact";
                      new_duration := Some 1.5%float;
                      new_cost := Some 1.4849999999999999%float |})
  /\ (90 / 60 * 0.99)%float = 1.4849999999999999%float
  /\ PrimFloat.ltb 1.4849999999999999 1.485 = true.
Proof.
  split; [exact (@update_derives_cost)|].
  repeat split; reflexivity.
Qed.

Lemma lead_update_cost_is_derived_witness :
  exists raw payload v d,
    text Sample.post = Ok raw
    /\ @JSON_parse Sample.runtime raw = Ok payload
    /\ extractDuration payload = Ok v
    /\ @to_number Sample.runtime v = Ok d
    /\ Some 1.5%float = Some (d / 60)%float
    /\ Some 1.4849999999999999%float = Some (d / 60 * 0.99)%float.
Proof.
  exact (proj1 lead_update_cost_is_derived Sample.runtime Sample.db
           Sample.post "L1"
           {| new_status := "Completed";
              new_disposition := "Do Not Contact";
              new_duration := Some 1.5%float;
              new_cost := Some 1.4849999999999999%float |} eq_refl).
Defined.

(** The cost the claim announces for 90 seconds, 1.485, is not the cost the
    handler sends. *)
Lemma cost_of_90_seconds_is_not_1485 :
  option_map (fun sent => new_cost (snd sent))
    (update (@serve Sample.runtime Sample.db Sample.post))
  = Some (Some (90 / 60 * 0.99)%float)
  /\ PrimFloat.eqb (90 / 60 * 0.99) 1.485 = false.
Proof. split; reflexivity. Qed.

(* ================================================================== *)
(** * The lead matcher *)
(* ================================================================== *)

Section LeadMatcher.

Context {rt : Runtime}.

Lemma firstn_1_filter {A : Type} (f : A -> bool) (l : list A) :
  firstn 1 (filter f l)
  = match find f l with Some x => [x] | None => [] end.
Proof.
  induction l as [|a l IH]; [reflexivity|].
  cbn [filter find]. destruct (f a); [reflexivity | exact IH].
Qed.

Lemma endsWith_refl_slice (a c : string) (n : nat) :
  slice_last n a = slice_last n c -> endsWith a (slice_last n c) = true.
Proof. intros <-. apply endsWith_slice_last. Qed.

(** The four tests of the scan come down to the two [endsWith] tests. *)
Lemma cleaned_match_either_way (incoming : string) (lead : Lead) :
  cleaned_match (strip_non_digits incoming)
    (slice_last 10 (strip_non_digits incoming)) lead
  = match phone_number lead with
    | Some p => negb (String.eqb p "")
                && Matcher.either_way (Matcher.digits_of p)
                     (Matcher.digits_of incoming)
    | None => false
    end.
Proof.
  unfold cleaned_match, Matcher.either_way, Matcher.digits_of.
  destruct (phone_number lead) as [p|]; [|reflexivity].
  destruct (String.eqb p ""); [reflexivity|]. cbn [negb andb].
  set (a := strip_non_digits p). set (c := strip_non_digits incoming).
  destruct (String.eqb_spec a c) as [E|_].
  - cbn [orb]. rewrite (endsWith_refl_slice a c 10) by now rewrite E.
    reflexivity.
  - cbn [orb].
    destruct (String.eqb_spec (slice_last 10 a) (slice_last 10 c)) as [E|_].
    + cbn [orb]. now rewrite (endsWith_refl_slice a c 10 E).
    + reflexivity.
Qed.

Lemma find_ext {A : Type} (f g : A -> bool) (l : list A) :
  (forall x, f x = g x) -> find f l = find g l.
Proof.
  intros H. induction l as [|a l IH]; [reflexivity|].
  cbn [find]. now rewrite H, IH.
Qed.

(** *** Patterns without pattern characters *)

Lemma like_any_run (s : string) : like "%" s = true.
Proof.
  induction s as [|c s IH]; [reflexivity|].
  cbn in *. exact IH.
Qed.

Lemma like_unfold_run (rest s : string) :
  like (String "%" rest) s
  = like rest s
    || match s with
       | EmptyString => false
       | String _ s' => like (String "%" rest) s'
       end.
Proof. destruct s; reflexivity. Qed.

Lemma like_plain_unit (c : ascii) (rest s : string) :
  Matcher.is_pattern_unit c = false ->
  like (String c rest) s
  = match s with
    | EmptyString => false
    | String d s' => Ascii.eqb c d && like rest s'
    end.
Proof.
  unfold Matcher.is_pattern_unit. intros H.
  apply orb_false_iff in H. destruct H as [H B].
  apply orb_false_iff in H. destruct H as [A U].
  cbn [like]. now rewrite A, U, B.
Qed.

Lemma like_plain_prefix (k s : string) :
  Matcher.plain k = true -> like (k ++ "%") s = String.prefix k s.
Proof.
  revert s. induction k as [|c k IH]; intros s P.
  - cbn [append]. rewrite like_any_run. now destruct s.
  - cbn [Matcher.plain] in P. apply andb_true_iff in P. destruct P as [C P].
    apply negb_true_iff in C. cbn [append]. rewrite (like_plain_unit _ _ _ C).
    destruct s as [|d s]; [reflexivity|]. cbn [String.prefix].
    rewrite (IH _ P).
    destruct (Ascii.eqb_spec c d) as [->|N];
      destruct (ascii_dec _ _); try reflexivity; congruence.
Qed.

Lemma like_contains (k s : string) :
  Matcher.plain k = true -> like ("%" ++ k ++ "%") s = includes s k.
Proof.
  intros P. change ("%" ++ k ++ "%") with (String "%" (k ++ "%")).
  induction s as [|c s IH]; rewrite like_unfold_run, (like_plain_prefix _ _ P);
    cbn [includes]; [reflexivity|]. now rewrite IH.
Qed.

Lemma lower_unit_plain (c : ascii) :
  Matcher.is_pattern_unit (lower_unit c) = Matcher.is_pattern_unit c.
Proof. destruct c as [[] [] [] [] [] [] [] []]; reflexivity. Qed.

Lemma plain_toLowerCase (k : string) :
  Matcher.plain (toLowerCase k) = Matcher.plain k.
Proof.
  induction k as [|c k IH]; [reflexivity|].
  cbn [toLowerCase Matcher.plain]. now rewrite lower_unit_plain, IH.
Qed.

(** For a text without pattern characters the pattern search is the
    search for a substring, letter case ignored. *)
Lemma ilike_plain (column k : string) :
  Matcher.plain k = true ->
  ilike column ("%" ++ k ++ "%") = Matcher.holds column k.
Proof.
  intros P. unfold ilike, Matcher.holds.
  rewrite !toLowerCase_app. change (toLowerCase "%") with "%".
  apply like_contains. now rewrite plain_toLowerCase.
Qed.

Lemma plain_digits (s : string) : Matcher.plain (strip_non_digits s) = true.
Proof.
  induction s as [|c s IH]; [reflexivity|]. cbn [strip_non_digits].
  destruct (is_digit c) eqn:D; [|exact IH].
  cbn [Matcher.plain]. rewrite IH, andb_true_r.
  revert D. destruct c as [[] [] [] [] [] [] [] []]; cbn; congruence.
Qed.

Lemma plain_substring (n m : nat) (s : string) :
  Matcher.plain s = true -> Matcher.plain (String.substring n m s) = true.
Proof.
  revert n m. induction s as [|c s IH]; intros n m P.
  - now destruct n, m.
  - cbn [Matcher.plain] in P. apply andb_true_iff in P. destruct P as [C P].
    destruct n as [|n]; destruct m as [|m]; cbn [String.substring];
      try reflexivity; try (now apply IH).
    cbn [Matcher.plain]. now rewrite C, IH.
Qed.

Lemma phone_like_holds (s : string) (l : Lead) :
  phone_like (slice_last 10 (strip_non_digits s)) l
  = match phone_number l with
    | Some p => Matcher.holds p (slice_last 10 (Matcher.digits_of s))
    | None => false
    end.
Proof.
  unfold phone_like, Matcher.digits_of.
  destruct (phone_number l) as [p|]; [|reflexivity].
  apply ilike_plain. apply plain_substring, plain_digits.
Qed.

(** With a repository that delivers, [findLeadByPhoneNumber] is the first
    of the three phone steps that finds a lead. *)
Lemma findLeadByPhoneNumber_steps (db : Backend) (s : string) :
  delivers db ->
  findLeadByPhoneNumber db (VStr s)
  = Ok (Matcher.first_match
          [ Matcher.exact (leads db) s; Matcher.last_ten (leads db) s;
            Matcher.scan (leads db) s ]).
Proof.
  intros [E1 [E2 [E3 _]]]. unfold findLeadByPhoneNumber.
  rewrite E1, E2, E3. cbn [to_string select bind Matcher.first_match fold_right].
  rewrite !firstn_1_filter.
  change (find (phone_is s) (leads db)) with (Matcher.exact (leads db) s).
  destruct (Matcher.exact (leads db) s) as [l|]; [reflexivity|].
  rewrite (find_ext _ _ _ (phone_like_holds s)).
  fold (Matcher.last_ten (leads db) s).
  destruct (Matcher.last_ten (leads db) s) as [l|]; [reflexivity|].
  unfold Matcher.scan.
  rewrite (find_ext _ _ _ (cleaned_match_either_way s)).
  now destruct (find _ (firstn 25 (leads db))).
Qed.







End LeadMatcher.



(* ================================================================== *)
(** * Re-applying an outcome *)
(* ================================================================== *)

Section Idempotence.

Context {rt : Runtime}.

Lemma patch_twice (u : LeadUpdate) (l : Lead) :
  patch u (patch u l) = patch u l.
Proof.
  unfold patch. cbn.
  destruct (new_duration u), (new_cost u); reflexivity.
Qed.

Lemma update_eq_id_twice (target : string) (u : LeadUpdate)
    (rows : list Lead) :
  update_eq_id target u (update_eq_id target u rows)
  = update_eq_id target u rows.
Proof.
  unfold update_eq_id. rewrite map_map. apply map_ext. intros l.
  destruct (String.eqb (id l) target) eqn:E.
  - change (id (patch u l)) with (id l). rewrite E. apply patch_twice.
  - now rewrite E.
Qed.

(** The rewriting of rows an update performs leaves alone what the
    matcher looks at. *)
Lemma rewrite_row_id target u l : id (rewrite_row target u l) = id l.
Proof. unfold rewrite_row. now destruct (String.eqb (id l) target). Qed.

Lemma rewrite_row_name target u l : name (rewrite_row target u l) = name l.
Proof. unfold rewrite_row. now destruct (String.eqb (id l) target). Qed.

Lemma rewrite_row_phone target u l :
  phone_number (rewrite_row target u l) = phone_number l.
Proof. unfold rewrite_row. now destruct (String.eqb (id l) target). Qed.

Lemma find_map {A : Type} (f : A -> bool) (g : A -> A) (l : list A) :
  (forall x, f (g x) = f x) ->
  find f (map g l) = option_map g (find f l).
Proof.
  intros H. induction l as [|a l IH]; [reflexivity|].
  cbn [map find]. rewrite H. destruct (f a); [reflexivity | exact IH].
Qed.

Lemma filter_map_commute {A : Type} (f : A -> bool) (g : A -> A) (l : list A) :
  (forall x, f (g x) = f x) ->
  filter f (map g l) = map g (filter f l).
Proof.
  intros H. induction l as [|a l IH]; [reflexivity|].
  cbn [map filter]. rewrite H. destruct (f a); cbn [map]; now rewrite IH.
Qed.

Lemma head_map_data (g : Lead -> Lead) (rows : list Lead)
    (k : result (option Lead)) (k' : result (option Lead)) :
  (k' = match k with Ok o => Ok (option_map g o) | Throw e => Throw e end) ->
  match Data (map g rows) with
  | Data (lead :: _) => Ok (Some lead)
  | _ => k'
  end
  = match match Data rows with
          | Data (lead :: _) => Ok (Some lead)
          | _ => k
          end with
    | Ok o => Ok (option_map g o)
    | Throw e => Throw e
    end.
Proof. intros ->. now destruct rows. Qed.

Section Rewritten.

Variables (target : string) (u : LeadUpdate) (db : Backend).

Let g := rewrite_row target u.
Let db' := with_leads db (map g (leads db)).

Lemma phone_is_rewrite key l : phone_is key (g l) = phone_is key l.
Proof. unfold phone_is, g. now rewrite rewrite_row_phone. Qed.

Lemma phone_like_rewrite x l : phone_like x (g l) = phone_like x l.
Proof. unfold phone_like, g. now rewrite rewrite_row_phone. Qed.

Lemma cleaned_match_rewrite a b l :
  cleaned_match a b (g l) = cleaned_match a b l.
Proof. unfold cleaned_match, g. now rewrite rewrite_row_phone. Qed.

Lemma last_four_match_rewrite a l :
  last_four_match a (g l) = last_four_match a l.
Proof. unfold last_four_match, g. now rewrite rewrite_row_phone. Qed.

Lemma findLeadByPhoneNumber_rewrite (phoneNumber : value) :
  findLeadByPhoneNumber db' phoneNumber
  = match findLeadByPhoneNumber db phoneNumber with
    | Ok o => Ok (option_map g o)
    | Throw e => Throw e
    end.
Proof.
  unfold findLeadByPhoneNumber. cbn [db' with_leads leads on_eq_phone
    on_like_phone on_scan].
  destruct (to_string phoneNumber) as [key|]; cbn [bind]; [|reflexivity].
  rewrite (filter_map_commute _ _ _ (phone_is_rewrite key)), firstn_map.
  destruct (on_eq_phone db); cbn [select bind]; [| |reflexivity].
  - apply head_map_data.
    destruct phoneNumber as [| | |s| |]; try reflexivity.
    rewrite (filter_map_commute _ _ _ (phone_like_rewrite _)), firstn_map.
    destruct (on_like_phone db); cbn [select bind]; [| |reflexivity].
    + apply head_map_data. rewrite firstn_map.
      destruct (on_scan db); cbn [select bind]; try reflexivity.
      now rewrite (find_map _ _ _ (cleaned_match_rewrite _ _)).
    + rewrite firstn_map.
      destruct (on_scan db); cbn [select bind]; try reflexivity.
      now rewrite (find_map _ _ _ (cleaned_match_rewrite _ _)).
  - destruct phoneNumber as [| | |s| |]; try reflexivity.
    rewrite (filter_map_commute _ _ _ (phone_like_rewrite _)), firstn_map.
    destruct (on_like_phone db); cbn [select bind]; [| |reflexivity].
    + apply head_map_data. rewrite firstn_map.
      destruct (on_scan db); cbn [select bind]; try reflexivity.
      now rewrite (find_map _ _ _ (cleaned_match_rewrite _ _)).
    + rewrite firstn_map.
      destruct (on_scan db); cbn [select bind]; try reflexivity.
      now rewrite (find_map _ _ _ (cleaned_match_rewrite _ _)).
Qed.

Lemma findLeadByNameAndPhone_rewrite (customerName phoneNumber : value) :
  findLeadByNameAndPhone db' customerName phoneNumber
  = match findLeadByNameAndPhone db customerName phoneNumber with
    | Ok o => Ok (option_map g o)
    | Throw e => Throw e
    end.
Proof.
  unfold findLeadByNameAndPhone. cbn [db' with_leads leads on_like_name].
  destruct phoneNumber as [| | |s| |]; try reflexivity.
  destruct (to_string customerName) as [x|]; cbn [bind]; [|reflexivity].
  rewrite (filter_map_commute (name_like x) g).
  2:{ intros l. unfold name_like, g. now rewrite rewrite_row_name. }
  rewrite firstn_map.
  destruct (on_like_name db); cbn [select bind]; try reflexivity.
  destruct (firstn 10 _) as [|r rows]; [reflexivity|].
  change (map g (r :: rows)) with (g r :: map g rows).
  change (g r :: map g rows) with (map g (r :: rows)).
  now rewrite (find_map _ _ _ (last_four_match_rewrite _)).
Qed.

Lemma resolveContact_rewrite (payload contactId phoneNumber : value) :
  resolveContact db' payload contactId phoneNumber
  = resolveContact db payload contactId phoneNumber.
Proof.
  unfold resolveContact.
  destruct (negb (truthy contactId) && truthy phoneNumber); [|reflexivity].
  rewrite findLeadByPhoneNumber_rewrite.
  destruct (findLeadByPhoneNumber db phoneNumber) as [[l|]|];
    cbn [bind option_map]; [| |reflexivity].
  - unfold g. now rewrite rewrite_row_id.
  - destruct (extractCustomerName payload) as [nm|]; cbn [bind];
      [|reflexivity].
    destruct (truthy nm && truthy phoneNumber); [|reflexivity].
    rewrite findLeadByNameAndPhone_rewrite.
    destruct (findLeadByNameAndPhone db nm phoneNumber) as [[l|]|];
      cbn [bind option_map]; try reflexivity.
    unfold g. now rewrite rewrite_row_id.
Qed.

Lemma serve_rewrite (req : Request) : serve db' req = serve db req.
Proof.
  unfold serve. destruct (String.eqb (method req) "OPTIONS"); [reflexivity|].
  destruct (text req) as [raw|]; cbn [bind]; [|reflexivity].
  unfold process.
  destruct (JSON_parse raw) as [payload|]; [|reflexivity].
  destruct (object_keys payload); cbn [bind]; [|reflexivity].
  destruct (extractContactId payload); cbn [bind]; [|reflexivity].
  destruct (extractPhoneNumber payload); cbn [bind]; [|reflexivity].
  destruct (extractDisposition payload); cbn [bind]; [|reflexivity].
  destruct (extractDuration payload) as [v|]; cbn [bind]; [|reflexivity].
  destruct (to_number v); cbn [bind]; [|reflexivity].
  destruct (determineCallStatus payload); cbn [bind]; [|reflexivity].
  now rewrite resolveContact_rewrite.
Qed.

End Rewritten.

Lemma with_leads_same (db : Backend) : with_leads db (leads db) = db.
Proof. now destruct db. Qed.

Lemma table_after_cases (db : Backend) (o : Outcome) :
  table_after db o = leads db
  \/ exists target u,
       update o = Some (target, u) /\ on_update db = None
       /\ table_after db o = map (rewrite_row target u) (leads db).
Proof.
  unfold table_after.
  destruct (update o) as [[target u]|]; [|now left].
  destruct (on_update db); [now left|].
  right. now exists target, u.
Qed.

(** Handling the same webhook again is handling it once. *)
Lemma deliver_twice (db : Backend) (req : Request) :
  deliver (deliver db req) req = deliver db req.
Proof.
  unfold deliver.
  destruct (table_after_cases db (serve db req))
    as [H | [target [u [U [O H]]]]].
  - rewrite H, with_leads_same. rewrite H. apply with_leads_same.
  - rewrite H, serve_rewrite.
    unfold table_after. rewrite U. cbn [with_leads on_update leads].
    rewrite O. change (map (rewrite_row target u) (leads db))
      with (update_eq_id target u (leads db)).
    now rewrite update_eq_id_twice.
Qed.

(** C9. Applying the same outcome (status, disposition, duration and cost
    for a given lead) a second time changes nothing: the rows after the
    second application are the rows after the first, and so are the
    statistics recomputed from the rows; likewise for a webhook handled
    twice. *)
Theorem outcome_application_idempotent (target st disp : string)
    (dur c : float) (rows : list Lead) :
  let u := {| new_status := st; new_disposition := disp;
              new_duration := Some dur; new_cost := Some c |} in
  let once := update_eq_id target u rows in
  let twice := update_eq_id target u once in
  twice = once
  /\ updateStats twice = updateStats once
  /\ (forall (db : Backend) (req : Request),
         leads (deliver (deliver db req) req) = leads (deliver db req)
         /\ updateStats (leads (deliver (deliver db req) req))
            = updateStats (leads (deliver db req))).
Proof.
  intros u once twice. unfold twice, once.
  rewrite update_eq_id_twice. repeat split.
  all: intros; now rewrite deliver_twice.
Qed.

End Idempotence.

(* ================================================================== *)
(** * The call dispatcher *)
(* ================================================================== *)

Section Dispatcher.

Lemma get_success (data : value) :
  match get data "success" with
  | Ok ok => truthy ok = truthy (field data "success")
  | Throw _ => truthy (field data "success") = false
  end.
Proof. destruct data; reflexivity. Qed.

Lemma requests_app (t1 t2 : list event) :
  requests (t1 ++ t2) = (requests t1 ++ requests t2)%list.
Proof. apply flat_map_app. Qed.

Lemma stored_after_app (t1 t2 : list event) (rows : list Lead) :
  stored_after (t1 ++ t2) rows = stored_after t2 (stored_after t1 rows).
Proof.
  revert rows; induction t1 as [|ev t1 IH]; intros rows; [reflexivity|].
  cbn [app stored_after].
  destruct ev as [b|b|o|d| |i|i u b| |m|m|m]; try apply IH.
  destruct b; apply IH.
Qed.

Lemma triggerCall_resumes_waits (reply : InvokeReply) :
  snd (triggerCall_resumes reply) = provider_success reply.
Proof.
  destruct reply as [|[msg|] data]; try reflexivity.
  cbn [triggerCall_resumes provider_success].
  pose proof (get_success data) as G.
  destruct (get data "success") as [ok|]; [|now rewrite G].
  rewrite <- G. now destruct (truthy ok).
Qed.

(** The trace of a call is that of its parts, one after the other. *)
Lemma triggerCall_stages (leads : list Lead) (leadId : string)
    (reply : InvokeReply) (updateError : bool) :
  triggerCall leads leadId reply updateError
  = (fst (triggerCall_starts leads leadId)
     ++ if snd (triggerCall_starts leads leadId) then
          fst (triggerCall_resumes reply)
          ++ (if snd (triggerCall_resumes reply)
              then triggerCall_ends leadId updateError else [])
        else [])%list.
Proof.
  assert (C : forall reply',
    InvokeTriggerCall leadId ::
    match reply' with
    | InvokeRejects =>
        [ConsoleError; ToastError (VStr "Failed to initiate call");
         SetIsCallInProgress false]
    | InvokeResponds (Some msg) _ =>
        [ToastError (VStr ("Failed to initiate call: " ++ msg));
         ConsoleError; SetIsCallInProgress false]
    | InvokeResponds None data =>
        match get data "success" with
        | Throw _ =>
            [ConsoleError; ToastError (VStr "Failed to initiate call");
             SetIsCallInProgress false]
        | Ok ok =>
            if truthy ok then
              ToastSuccess (VStr "Call initiated successfully")
              :: UpdateLead leadId call_initiated updateError
              :: ((if updateError then [ConsoleError] else [])
                  ++ [SetIsCallInProgress false])%list
            else
              [ToastError (if truthy (field data "message")
                           then field data "message"
                           else VStr "Failed to initiate call");
               SetIsCallInProgress false]
        end
    end
    = (InvokeTriggerCall leadId :: fst (triggerCall_resumes reply')
       ++ (if snd (triggerCall_resumes reply')
           then triggerCall_ends leadId updateError else []))%list).
  { intros [|[msg|] data]; try reflexivity.
    cbn [triggerCall_resumes]. destruct (get data "success") as [ok|];
      [|reflexivity].
    now destruct (truthy ok). }
  unfold triggerCall, triggerCall_starts.
  destruct (find _ leads) as [lead|].
  - destruct (negb (String.eqb (status lead) "Pending")); [reflexivity|].
    cbn [fst snd app]. now rewrite <- C.
  - cbn [fst snd app]. now rewrite <- C.
Qed.

Lemma triggerCall_starts_held (leads : list Lead) (leadId : string) :
  snd (triggerCall_starts leads leadId) = held_pending leads leadId
  /\ requests (fst (triggerCall_starts leads leadId))
     = (if held_pending leads leadId then [leadId] else [])
  /\ (forall rows,
         stored_after (fst (triggerCall_starts leads leadId)) rows = rows)
  /\ (forall i u e,
         ~ In (UpdateLead i u e) (fst (triggerCall_starts leads leadId))).
Proof.
  unfold triggerCall_starts, held_pending, lead_by_id.
  destruct (find _ leads) as [lead|].
  - destruct (String.eqb (status lead) "Pending"); cbn;
      repeat split; intros; intuition discriminate.
  - cbn. repeat split; intros; intuition discriminate.
Qed.

Lemma triggerCall_resumes_quiet (reply : InvokeReply) :
  requests (fst (triggerCall_resumes reply)) = []
  /\ (forall rows, stored_after (fst (triggerCall_resumes reply)) rows = rows)
  /\ (forall i u e, ~ In (UpdateLead i u e) (fst (triggerCall_resumes reply))).
Proof.
  destruct reply as [|[msg|] data]; cbn [triggerCall_resumes].
  - cbn. repeat split; intros; intuition discriminate.
  - cbn. repeat split; intros; intuition discriminate.
  - destruct (get data "success") as [ok|].
    + destruct (truthy ok); cbn; repeat split; intros; intuition discriminate.
    + cbn. repeat split; intros; intuition discriminate.
Qed.

Lemma triggerCall_ends_stores (leadId : string) (updateError : bool)
    (rows : list Lead) :
  requests (triggerCall_ends leadId updateError) = []
  /\ stored_after (triggerCall_ends leadId updateError) rows
     = if updateError then rows else update_eq_id leadId call_initiated rows.
Proof. destruct updateError; split; reflexivity. Qed.

(** A call asks the provider once, unless the hook's copy holds the lead
    under another status than "Pending". *)
Lemma triggerCall_requests (leads : list Lead) (leadId : string)
    (reply : InvokeReply) (updateError : bool) :
  requests (triggerCall leads leadId reply updateError)
  = if held_pending leads leadId then [leadId] else [].
Proof.
  rewrite triggerCall_stages.
  destruct (triggerCall_starts_held leads leadId) as [W [R _]].
  destruct (triggerCall_resumes_quiet reply) as [R' _].
  rewrite requests_app, R, W.
  destruct (held_pending leads leadId); [|reflexivity].
  rewrite requests_app, R'.
  destruct (snd (triggerCall_resumes reply)); [|reflexivity].
  destruct (triggerCall_ends_stores leadId updateError []) as [Re _].
  now rewrite Re.
Qed.

(** C6, as the code has it.  The dispatcher writes status "In Progress"
    and disposition "Call initiated" to the stored lead exactly when its
    own copy of the leads (the [leads] its closure holds) does not hold
    the lead under another status than "Pending", the provider reports
    success and the repository accepts the update.  The stored status is
    not read.  When the copy holds another status the dispatch is turned
    down without a request to the provider; on a provider failure or
    transport error no update is sent and the stored leads stay as they
    were. *)
Theorem triggerCall_changes_state_iff (leads rows : list Lead)
    (leadId : string) (reply : InvokeReply) (updateError : bool) :
  let trace := triggerCall leads leadId reply updateError in
  let sent := held_pending leads leadId && provider_success reply in
  stored_after trace rows
  = (if sent && negb updateError
     then marked_in_progress leadId rows else rows)
  /\ ((exists i u e, In (UpdateLead i u e) trace) <-> sent = true)
  /\ (forall i u e,
         In (UpdateLead i u e) trace ->
         i = leadId /\ u = call_initiated /\ e = updateError)
  /\ requests trace = (if held_pending leads leadId then [leadId] else []).
Proof.
  cbv zeta. rewrite triggerCall_stages.
  destruct (triggerCall_starts_held leads leadId) as [W [R [S U]]].
  destruct (triggerCall_resumes_quiet reply) as [R' [S' U']].
  pose proof (triggerCall_resumes_waits reply) as W'.
  rewrite W. destruct (held_pending leads leadId); cbn [andb].
  - rewrite W'. rewrite !stored_after_app, !requests_app, S, S', R, R'.
    destruct (provider_success reply); cbn [negb andb].
    + destruct (triggerCall_ends_stores leadId updateError rows) as [Re Se].
      rewrite Se, Re. split; [now destruct updateError|].
      split; [|split; [|reflexivity]].
      * split; [reflexivity|]. intros _.
        exists leadId, call_initiated, updateError.
        apply in_or_app; right. apply in_or_app; right. now left.
      * intros i u e H. apply in_app_or in H. destruct H as [H|H];
          [now apply U in H|].
        apply in_app_or in H. destruct H as [H|H]; [now apply U' in H|].
        destruct H as [H|H]; [injection H as <- <- <-; auto|].
        destruct updateError; cbn in H; intuition discriminate.
    + cbn [stored_after requests flat_map app].
      split; [reflexivity|]. split; [|split; [|reflexivity]].
      * split; [|discriminate]. intros [i [u [e H]]].
        apply in_app_or in H. destruct H as [H|H]; [now apply U in H|].
        rewrite app_nil_r in H. now apply U' in H.
      * intros i u e H. apply in_app_or in H. destruct H as [H|H];
          [now apply U in H|].
        rewrite app_nil_r in H. now apply U' in H.
  - rewrite app_nil_r, S, R. split; [reflexivity|].
    split; [|split; [|reflexivity]].
    + split; [|discriminate]. intros [i [u [e H]]]. now apply U in H.
    + intros i u e H. now apply U in H.
Qed.

Lemma triggerCall_changes_state_iff_witness :
  stored_after
    (triggerCall [Sample.pending_lead] "L1" Sample.accepts false)
    [Sample.pending_lead]
  = marked_in_progress "L1" [Sample.pending_lead].
Proof.
  exact (proj1 (triggerCall_changes_state_iff [Sample.pending_lead]
                  [Sample.pending_lead] "L1" Sample.accepts false)).
Defined.

(** The hook holds a lead as "Pending" that the repository has as
    "Completed": the request goes to the provider, and the stored lead is
    written back to "In Progress". *)
Lemma stale_copy_overwrites_completed_lead :
  let copy := [Sample.lead "L1" "5550100001" "Pending"] in
  let stored := [Sample.lead "L1" "5550100001" "Completed"] in
  requests (triggerCall copy "L1" Sample.accepts false) = ["L1"]
  /\ map status stored = ["Completed"]
  /\ map status (stored_after (triggerCall copy "L1" Sample.accepts false)
                   stored)
     = ["In Progress"].
Proof. repeat split. Qed.

End Dispatcher.

(* ================================================================== *)
(** * The pacing scheduler *)
(* ================================================================== *)

Section Scheduler.

Lemma armed_same (h : Execution) (t : Interval) :
  interval h = Some t -> armed h (at_index t (currentIndex t)) = h.
Proof. intros H. destruct h, t; cbn in *. now subst. Qed.

Lemma advance_armed (h : Execution) (t : Interval) :
  interval h = Some t ->
  advance h = armed h (at_index t (S (currentIndex t))).
Proof. intros H. unfold advance. now rewrite H. Qed.

Lemma advance_idle (h : Execution) : interval h = None -> advance h = h.
Proof. intros H. unfold advance. now rewrite H. Qed.

Lemma callback_resumes_cases (c : Call) (w : Session) :
  callback_resumes c w
  = if of_this_run (runs w) c then advance (hook w) else hook w.
Proof.
  unfold callback_resumes, of_this_run. now destruct (of_run c).
Qed.

Lemma callback_resumes_idle (c : Call) (w : Session) :
  interval (hook w) = None -> callback_resumes c w = hook w.
Proof.
  intros H. rewrite callback_resumes_cases, (advance_idle _ H).
  now destruct (of_this_run _ _).
Qed.

Lemma triggerCall_ends_quiet (leadId : string) (updateError : bool) :
  requests (triggerCall_ends leadId updateError) = [].
Proof. now destruct updateError. Qed.

(** Nothing fires when no interval is armed; the answers to the calls that
    wait still arrive, and leave the state of the run alone. *)
Lemma tick_idle (st : Step) (w : Session) :
  interval (hook w) = None ->
  hook (fst (tick st w)) = hook w
  /\ requests (snd (tick st w)) = []
  /\ (calls w = [] \/ st = TimerFires -> tick st w = (w, [])).
Proof.
  intros H. destruct st as [|k reply|k updateError]; cbn [tick].
  - unfold timer_fires. rewrite H. auto.
  - unfold provider_answers.
    destruct (nth_error (calls w) k) as [c|] eqn:N.
    + destruct (stage c).
      * destruct (triggerCall_resumes_quiet reply) as [R _].
        destruct (snd (triggerCall_resumes reply)); cbn [fst snd hook];
          rewrite ?callback_resumes_idle by exact H;
          (split; [reflexivity|]); (split; [exact R|]);
          intros [E|E]; [|discriminate| |discriminate];
          rewrite E in N; now destruct k.
      * auto.
    + auto.
  - unfold repository_answers.
    destruct (nth_error (calls w) k) as [c|] eqn:N.
    + destruct (stage c).
      * auto.
      * cbn [fst snd hook]. rewrite callback_resumes_idle by exact H.
        split; [reflexivity|]. split; [apply triggerCall_ends_quiet|].
        intros [E|E]; [|discriminate]. rewrite E in N. now destruct k.
    + auto.
Qed.

Lemma run_idle (fs : list Step) (w : Session) :
  interval (hook w) = None ->
  hook (run fs w) = hook w
  /\ callbacks_run fs w = 0
  /\ requests (run_trace fs w) = []
  /\ (calls w = [] -> run fs w = w /\ run_trace fs w = []).
Proof.
  revert w. induction fs as [|st fs IH]; intros w H; [now auto|].
  cbn [run run_trace callbacks_run]. rewrite H.
  destruct (tick_idle st w H) as [E [R Q]].
  assert (H' : interval (hook (fst (tick st w))) = None) by now rewrite E.
  destruct (IH _ H') as [E' [C' [R' Q']]].
  rewrite E', E, C', requests_app, R, R'.
  split; [reflexivity|]. split; [now destruct st|]. split; [reflexivity|].
  intros K. rewrite (Q (or_introl K)) in *. cbn [fst snd app] in *.
  now apply Q'.
Qed.

Lemma filter_remove_nth {A : Type} (f : A -> bool) (k : nat) (l : list A)
    (c : A) :
  nth_error l k = Some c ->
  List.length (filter f (remove_nth k l)) + (if f c then 1 else 0)
  = List.length (filter f l).
Proof.
  revert k. induction l as [|x l IH]; intros [|k] N; try discriminate.
  - cbn in N. injection N as ->. cbn [remove_nth filter].
    destruct (f c); cbn [List.length]; lia.
  - cbn in N. specialize (IH k N). cbn [remove_nth filter].
    destruct (f x); cbn [List.length]; lia.
Qed.

Lemma filter_replace_nth {A : Type} (f : A -> bool) (k : nat) (y : A)
    (l : list A) (c : A) :
  nth_error l k = Some c -> f y = f c ->
  List.length (filter f (replace_nth k y l)) = List.length (filter f l).
Proof.
  revert k. induction l as [|x l IH]; intros [|k] N E; try discriminate.
  - cbn in N. injection N as ->. cbn [replace_nth filter]. rewrite E. now destruct (f c).
  - cbn in N. specialize (IH k N E). cbn [replace_nth filter].
    destruct (f x); cbn [List.length]; lia.
Qed.

(** One step of an armed run: the timer cancels itself, or the cursor and
    the calls that wait keep count of the callbacks. *)
Lemma tick_counts (st : Step) (w : Session) (t : Interval) :
  interval (hook w) = Some t ->
  (st = TimerFires /\ List.length (pendingLeads t) <= currentIndex t
   /\ hook (fst (tick st w)) = stopped)
  \/ (exists i,
        hook (fst (tick st w)) = armed (hook w) (at_index t i)
        /\ i + awaited (fst (tick st w))
           = currentIndex t + awaited w
             + match st with TimerFires => 1 | _ => 0 end
        /\ runs (fst (tick st w)) = runs w
        /\ (st = TimerFires ->
            currentIndex t < List.length (pendingLeads t))).
Proof.
  intros H. destruct st as [|k reply|k updateError]; cbn [tick].
  - unfold timer_fires. rewrite H.
    destruct (Nat.leb_spec (List.length (pendingLeads t)) (currentIndex t))
      as [L|L]; [left; now auto|].
    right.
    destruct (nth_error (pendingLeads t) (currentIndex t)) as [lead|].
    + destruct (flag_seen t); cbn [negb].
      * exists (S (currentIndex t)). cbn [fst hook runs].
        rewrite (advance_armed _ _ H). unfold awaited. cbn [runs calls].
        repeat split; auto; lia.
      * destruct (snd (triggerCall_starts (leads_seen t) (id lead))).
        -- exists (currentIndex t). cbn [fst hook runs].
           rewrite (armed_same _ _ H). unfold awaited. cbn [runs calls].
           rewrite filter_app, length_app. cbn [filter].
           unfold of_this_run at 2. cbn [of_run]. rewrite Nat.eqb_refl.
           cbn [List.length]. repeat split; auto; lia.
        -- exists (S (currentIndex t)). cbn [fst hook runs].
           rewrite (advance_armed _ _ H). unfold awaited. cbn [runs calls].
           repeat split; auto; lia.
    + exists (S (currentIndex t)). cbn [fst hook runs].
      rewrite (advance_armed _ _ H). unfold awaited. cbn [runs calls].
      repeat split; auto; lia.
  - right. unfold provider_answers.
    destruct (nth_error (calls w) k) as [c|] eqn:N.
    2:{ exists (currentIndex t). rewrite (armed_same _ _ H).
        repeat split; auto; (lia || discriminate). }
    destruct (stage c).
    2:{ exists (currentIndex t). rewrite (armed_same _ _ H).
        repeat split; auto; (lia || discriminate). }
    destruct (snd (triggerCall_resumes reply)); cbn [fst hook runs].
    + exists (currentIndex t). rewrite (armed_same _ _ H).
      unfold awaited. cbn [runs calls].
      rewrite (filter_replace_nth _ _ _ _ _ N) by reflexivity.
      repeat split; auto; (lia || discriminate).
    + rewrite callback_resumes_cases. unfold awaited. cbn [runs calls].
      pose proof (filter_remove_nth (of_this_run (runs w)) _ _ _ N) as F.
      destruct (of_this_run (runs w) c).
      * exists (S (currentIndex t)). rewrite (advance_armed _ _ H).
        repeat split; auto; (lia || discriminate).
      * exists (currentIndex t). rewrite (armed_same _ _ H).
        repeat split; auto; (lia || discriminate).
  - right. unfold repository_answers.
    destruct (nth_error (calls w) k) as [c|] eqn:N.
    2:{ exists (currentIndex t). rewrite (armed_same _ _ H).
        repeat split; auto; (lia || discriminate). }
    destruct (stage c).
    { exists (currentIndex t). rewrite (armed_same _ _ H).
      repeat split; auto; (lia || discriminate). }
    cbn [fst hook runs].
    rewrite callback_resumes_cases. unfold awaited. cbn [runs calls].
    pose proof (filter_remove_nth (of_this_run (runs w)) _ _ _ N) as F.
    destruct (of_this_run (runs w) c).
    + exists (S (currentIndex t)). rewrite (advance_armed _ _ H).
      repeat split; auto; (lia || discriminate).
    + exists (currentIndex t). rewrite (armed_same _ _ H).
      repeat split; auto; (lia || discriminate).
Qed.

(** Over any steps of an armed run: while the interval is armed its cursor
    is the number of callbacks that have run to their end; and once the
    timer has cancelled itself, one callback more has run than there are
    leads left. *)
Lemma run_counts (fs : list Step) (w : Session) (t : Interval) :
  interval (hook w) = Some t ->
  match interval (hook (run fs w)) with
  | Some t' =>
      currentIndex t' + awaited (run fs w)
      = currentIndex t + awaited w + callbacks_run fs w
      /\ hook (run fs w) = armed (hook w) (at_index t (currentIndex t'))
  | None =>
      List.length (pendingLeads t) + 1
      <= currentIndex t + awaited w + callbacks_run fs w
      /\ hook (run fs w) = stopped
  end.
Proof.
  revert w t. induction fs as [|st fs IH]; intros w t H.
  - cbn [run callbacks_run]. rewrite H.
    split; [lia | now rewrite (armed_same _ _ H)].
  - cbn [run callbacks_run]. rewrite H.
    destruct (tick_counts st w t H) as [[-> [L E]]|[i [E [C [R T]]]]].
    + assert (I : interval (hook (fst (tick TimerFires w))) = None)
        by now rewrite E.
      destruct (run_idle fs _ I) as [E' [C' _]].
      rewrite E', E, C'. cbn [interval stopped]. split; [lia | reflexivity].
    + assert (I : interval (hook (fst (tick st w))) = Some (at_index t i))
        by now rewrite E.
      specialize (IH _ _ I). cbn [at_index currentIndex pendingLeads] in IH.
      destruct (interval (hook (run fs (fst (tick st w))))) as [t'|].
      * destruct IH as [IH1 IH2].
        split; [destruct st; cbv beta iota in *; lia|].
        rewrite IH2, E. reflexivity.
      * destruct IH as [IH1 IH2].
        split; [destruct st; cbv beta iota in *; lia | exact IH2].
Qed.

Lemma configured_interval (selectedPacing : string) :
  In selectedPacing configured_rates ->
  (1 / parseInt selectedPacing * 1000)%float
  = (1000 / parseInt selectedPacing)%float.
Proof.
  intros [<-|[<-|[<-|[<-|[]]]]]; vm_compute; reflexivity.
Qed.

Lemma startExecution_starts (callInProgress : bool) (leads : list Lead)
    (selectedPacing : string) (h : Execution) :
  filter eligible leads <> [] ->
  fst (startExecution callInProgress leads selectedPacing h)
  = {| isExecuting := true;
       intervalId := Some handle;
       interval :=
         Some {| delay := (1 / parseInt selectedPacing * 1000)%float;
                 leads_seen := leads;
                 flag_seen := callInProgress;
                 pendingLeads := filter eligible leads;
                 currentIndex := 0 |} |}.
Proof.
  intros N. unfold startExecution.
  destruct (filter eligible leads) as [|l rest]; [contradiction|].
  reflexivity.
Qed.

Lemma start_starts (leads : list Lead) (selectedPacing : string)
    (w : Session) :
  filter eligible leads <> [] ->
  fst (start leads selectedPacing w)
  = {| hook := fst (startExecution (isCallInProgress w) leads selectedPacing
                      (hook w));
       isCallInProgress := isCallInProgress w;
       runs := S (runs w);
       calls := calls w |}.
Proof.
  intros N. unfold start. cbn [fst].
  destruct (filter eligible leads) as [|l rest]; [contradiction|].
  reflexivity.
Qed.

Lemma awaited_start (leads : list Lead) (selectedPacing : string)
    (w : Session) :
  tidy w -> filter eligible leads <> [] ->
  awaited (fst (start leads selectedPacing w)) = 0.
Proof.
  intros T N. rewrite (start_starts _ _ _ N). unfold awaited.
  cbn [runs calls].
  assert (F : forall l, (forall c r, In c l -> of_run c = Some r ->
                                     r <= runs w) ->
                        filter (of_this_run (S (runs w))) l = []).
  { induction l as [|c l IH]; intros B; [reflexivity|].
    cbn [filter]. unfold of_this_run at 1.
    assert (B' : forall c' r', In c' l -> of_run c' = Some r' ->
                               r' <= runs w)
      by (intros c' r' I O'; apply (B c' r'); [now right | exact O']).
    destruct (of_run c) as [r|] eqn:O; [|now apply IH].
    pose proof (B c r (or_introl eq_refl) O).
    destruct (Nat.eqb_spec r (S (runs w))); [lia | now apply IH]. }
  now rewrite (F _ T).
Qed.


(** The callback of a firing that finds a lead under the cursor. *)
Lemma timer_fires_lead (w : Session) (t : Interval) (lead : Lead) :
  interval (hook w) = Some t ->
  nth_error (pendingLeads t) (currentIndex t) = Some lead ->
  timer_fires w
  = if flag_seen t then
      ({| hook := advance (hook w);
          isCallInProgress := isCallInProgress w;
          runs := runs w; calls := calls w |}, [])
    else if snd (triggerCall_starts (leads_seen t) (id lead)) then
      ({| hook := hook w;
          isCallInProgress :=
            flag_after (fst (triggerCall_starts (leads_seen t) (id lead)))
              (isCallInProgress w);
          runs := runs w;
          calls := (calls w ++ [{| callee := id lead;
                                   stage := AwaitsProvider;
                                   of_run := Some (runs w) |}])%list |},
       fst (triggerCall_starts (leads_seen t) (id lead)))
    else
      ({| hook := advance (hook w);
          isCallInProgress :=
            flag_after (fst (triggerCall_starts (leads_seen t) (id lead)))
              (isCallInProgress w);
          runs := runs w; calls := calls w |},
       fst (triggerCall_starts (leads_seen t) (id lead))).
Proof.
  intros H N. unfold timer_fires. rewrite H.
  assert (L : currentIndex t < List.length (pendingLeads t))
    by (apply nth_error_Some; now rewrite N).
  destruct (Nat.leb_spec (List.length (pendingLeads t)) (currentIndex t));
    [lia|].
  rewrite N. now destruct (flag_seen t).
Qed.

(** A round from a session in which no call waits: the callback runs to
    its end, the cursor moves by one, and the trace is that of one call of
    [triggerCall], if the callback places one. *)
Lemma round_advances (a : InvokeReply * bool) (w : Session) (t : Interval) :
  calls w = [] -> interval (hook w) = Some t ->
  currentIndex t < List.length (pendingLeads t) ->
  exists lead,
    nth_error (pendingLeads t) (currentIndex t) = Some lead
    /\ hook (run (round a) w)
       = armed (hook w) (at_index t (S (currentIndex t)))
    /\ calls (run (round a) w) = []
    /\ runs (run (round a) w) = runs w
    /\ callbacks_run (round a) w = 1
    /\ run_trace (round a) w
       = if flag_seen t then []
         else triggerCall (leads_seen t) (id lead) (fst a) (snd a).
Proof.
  intros K H L.
  destruct (nth_error (pendingLeads t) (currentIndex t)) as [lead|] eqn:N;
    [|apply nth_error_None in N; lia].
  exists lead. split; [reflexivity|].
  unfold round. cbn [run run_trace callbacks_run tick]. rewrite H.
  rewrite (timer_fires_lead _ _ _ H N), triggerCall_stages, K.
  rewrite <- (advance_armed _ _ H).
  destruct (flag_seen t); [cbn; now auto|].
  destruct (snd (triggerCall_starts (leads_seen t) (id lead))).
  2:{ cbn. rewrite !app_nil_r. now auto. }
  cbn [fst snd app]. unfold provider_answers at 1 2 3 4 5.
  cbn [calls nth_error stage callee of_run].
  destruct (snd (triggerCall_resumes (fst a))).
  - cbn [fst snd replace_nth hook runs calls isCallInProgress].
    unfold repository_answers. cbn [calls nth_error stage callee of_run].
    cbn [fst snd remove_nth hook runs calls isCallInProgress].
    unfold callback_resumes. cbn [of_run runs hook].
    rewrite Nat.eqb_refl, !app_nil_r. cbn. now auto.
  - cbn [fst snd remove_nth hook runs calls isCallInProgress].
    unfold repository_answers. cbn [calls nth_error].
    unfold callback_resumes. cbn [of_run runs hook fst snd].
    rewrite Nat.eqb_refl, !app_nil_r. cbn. now auto.
Qed.


Lemma run_app (fs gs : list Step) (w : Session) :
  run (fs ++ gs) w = run gs (run fs w).
Proof.
  revert w; induction fs as [|f fs IH]; intros w; [reflexivity|].
  cbn [app run]. apply IH.
Qed.

Lemma callbacks_run_app (fs gs : list Step) (w : Session) :
  callbacks_run (fs ++ gs) w
  = callbacks_run fs w + callbacks_run gs (run fs w).
Proof.
  revert w; induction fs as [|f fs IH]; intros w; [reflexivity|].
  cbn [app run callbacks_run]. rewrite IH. lia.
Qed.

Lemma run_trace_app (fs gs : list Step) (w : Session) :
  run_trace (fs ++ gs) w = (run_trace fs w ++ run_trace gs (run fs w))%list.
Proof.
  revert w; induction fs as [|f fs IH]; intros w; [reflexivity|].
  cbn [app run run_trace]. now rewrite IH, app_assoc.
Qed.

(** Rounds from a session in which no call waits: after each of them the
    cursor has moved by one, and no call waits. *)
Lemma rounds_advance (answers : list (InvokeReply * bool)) (w : Session)
    (t : Interval) :
  calls w = [] -> interval (hook w) = Some t ->
  currentIndex t + List.length answers <= List.length (pendingLeads t) ->
  hook (run (rounds answers) w)
  = armed (hook w) (at_index t (currentIndex t + List.length answers))
  /\ calls (run (rounds answers) w) = []
  /\ runs (run (rounds answers) w) = runs w
  /\ callbacks_run (rounds answers) w = List.length answers.
Proof.
  revert w t. induction answers as [|a answers IH]; intros w t K H L.
  - cbn [rounds flat_map run callbacks_run List.length].
    rewrite Nat.add_0_r, (armed_same _ _ H). auto.
  - cbn [List.length] in *.
    change (rounds (a :: answers)) with (round a ++ rounds answers)%list.
    rewrite run_app, callbacks_run_app.
    destruct (round_advances a w t K H) as [lead [_ [E [K' [R [C _]]]]]];
      [lia|].
    assert (H' : interval (hook (run (round a) w))
                 = Some (at_index t (S (currentIndex t))))
      by now rewrite E.
    destruct (IH _ _ K' H') as [E2 [K2 [R2 C2]]].
    { cbn [at_index currentIndex pendingLeads]. lia. }
    rewrite E2, K2, R2, C2, C, R, E.
    cbn [at_index armed currentIndex isExecuting intervalId delay
           leads_seen flag_seen pendingLeads].
    rewrite Nat.add_succ_r. auto.
Qed.

Lemma In_remove_nth {A : Type} (k : nat) (l : list A) (x : A) :
  In x (remove_nth k l) -> In x l.
Proof.
  revert k. induction l as [|y l IH]; intros [|k] H; cbn in *; auto.
  destruct H as [H|H]; [now left | right; now apply (IH k)].
Qed.

Lemma In_replace_nth {A : Type} (k : nat) (y : A) (l : list A) (x : A) :
  In x (replace_nth k y l) -> x = y \/ In x l.
Proof.
  revert k. induction l as [|z l IH]; intros [|k] H; cbn in *; auto.
  - destruct H as [H|H]; auto.
  - destruct H as [H|H]; [auto|]. destruct (IH k H); auto.
Qed.

Lemma tick_tidy (st : Step) (w : Session) : tidy w -> tidy (fst (tick st w)).
Proof.
  intros T. destruct st as [|k reply|k updateError]; cbn [tick].
  - unfold timer_fires. destruct (interval (hook w)) as [t|]; [|exact T].
    destruct (List.length (pendingLeads t) <=? currentIndex t)%nat;
      [exact T|].
    destruct (nth_error (pendingLeads t) (currentIndex t)) as [lead|];
      [|exact T].
    destruct (negb (flag_seen t)); [|exact T].
    destruct (snd (triggerCall_starts (leads_seen t) (id lead))); [|exact T].
    intros c r I O. cbn [fst calls runs] in *.
    apply in_app_or in I. destruct I as [I|[<-|[]]]; [now apply (T c)|].
    cbn in O. injection O as <-. lia.
  - unfold provider_answers.
    destruct (nth_error (calls w) k) as [c|] eqn:N; [|exact T].
    destruct (stage c); [|exact T].
    destruct (snd (triggerCall_resumes reply)); intros c' r I O;
      cbn [fst calls runs] in *.
    + apply In_replace_nth in I. destruct I as [->|I]; [|now apply (T c')].
      cbn in O. apply (T c); [now apply nth_error_In in N | exact O].
    + apply In_remove_nth in I. now apply (T c').
  - unfold repository_answers.
    destruct (nth_error (calls w) k) as [c|] eqn:N; [|exact T].
    destruct (stage c); [exact T|]. intros c' r I O.
    cbn [fst calls runs] in *. apply In_remove_nth in I. now apply (T c').
Qed.

Lemma perform_tidy (w : Session) (a : action) : tidy w -> tidy (perform w a).
Proof.
  intros T. destruct a as [leads p| |leads leadId|leads stats|st];
    cbn [perform].
  - unfold toggle. destruct (negb (isExecuting (hook w))).
    + intros c r I O. cbn [start fst calls runs] in *.
      pose proof (T c r I O).
      destruct (List.length (filter eligible leads) =? 0)%nat; lia.
    + exact T.
  - exact T.
  - unfold single_call. destruct (isCallInProgress w); [exact T|].
    intros c r I O. cbn [fst calls runs] in *.
    destruct (snd (triggerCall_starts leads leadId)); [|now apply (T c)].
    apply in_app_or in I. destruct I as [I|[<-|[]]]; [now apply (T c)|].
    discriminate O.
  - exact T.
  - now apply tick_tidy.
Qed.

Lemma session_tidy (history : list action) : tidy (session_after history).
Proof.
  unfold session_after.
  assert (G : forall w, tidy w -> tidy (fold_left perform history w)).
  { induction history as [|a history IH]; intros w T; [exact T|].
    cbn [fold_left]. apply IH. now apply perform_tidy. }
  apply G. intros c r [].
Qed.

(** C8. Starting a run when no lead is eligible (status "Pending" with a
    phone-resource id) does nothing but report the error: the hook is left
    as it was, with no interval and not executing, no lead is touched, and
    no firing ever follows. *)
Theorem startExecution_without_eligible_leads (callInProgress : bool)
    (leads : list Lead) (selectedPacing : string) (h : Execution) :
  filter eligible leads = [] ->
  startExecution callInProgress leads selectedPacing h
  = (h, [ToastError no_leads_message])
  /\ (forall rows,
         stored_after
           (snd (startExecution callInProgress leads selectedPacing h)) rows
         = rows)
  /\ (interval h = None ->
      forall w fs,
        hook w = fst (startExecution callInProgress leads selectedPacing h) ->
        hook (run fs w) = h
        /\ callbacks_run fs w = 0
        /\ requests (run_trace fs w) = []
        /\ (calls w = [] -> run fs w = w /\ run_trace fs w = [])).
Proof.
  intros E.
  assert (S : startExecution callInProgress leads selectedPacing h
              = (h, [ToastError no_leads_message]))
    by (unfold startExecution; now rewrite E).
  rewrite S. split; [reflexivity|]. split; [reflexivity|].
  intros I w fs W. cbn [fst] in W. rewrite <- W in *.
  now apply run_idle.
Qed.

Lemma startExecution_without_eligible_leads_witness :
  startExecution false Sample.no_eligible "2" Sample.idle
  = (Sample.idle, [ToastError no_leads_message]).
Proof.
  exact (proj1 (startExecution_without_eligible_leads false
                  Sample.no_eligible "2" Sample.idle eq_refl)).
Defined.

(** C2, as the code has it.  For a configured rate R and a non-empty
    snapshot of n eligible leads, starting a run arms an interval of
    1000/R milliseconds with the cursor at 0.  The callback of every
    firing that finds a lead under the cursor moves the cursor by exactly
    one, whether or not it places a call: it does so at its end, that is
    at once when it places no call, and once the call is over when it
    places one; so the cursor is, at any time, the number of callbacks
    that have run to their end.  The first firing that finds the cursor at
    the end of the snapshot cancels the interval: at least n + 1 firings
    occur, and when every call is over before the next firing, exactly
    n + 1, after which the run is over without a call to stop. *)
Theorem pacing_run (history : list action) (leads : list Lead)
    (selectedPacing : string) :
  In selectedPacing configured_rates ->
  filter eligible leads <> [] ->
  let n := List.length (filter eligible leads) in
  let started := fst (start leads selectedPacing (session_after history)) in
  (exists t,
      interval (hook started) = Some t
      /\ delay t = (1000 / parseInt selectedPacing)%float
      /\ pendingLeads t = filter eligible leads
      /\ currentIndex t = 0 /\ isExecuting (hook started) = true)
  /\ (forall fs t,
         interval (hook (run fs started)) = Some t ->
         currentIndex t + awaited (run fs started) = callbacks_run fs started
         /\ isExecuting (hook (run fs started)) = true
         /\ (currentIndex t < n ->
             exists t',
               interval (hook (fst (tick TimerFires (run fs started))))
               = Some t')
         /\ (n <= currentIndex t ->
             hook (fst (tick TimerFires (run fs started))) = stopped))
  /\ (forall fs,
         interval (hook (run fs started)) = None ->
         n + 1 <= callbacks_run fs started
         /\ hook (run fs started) = stopped)
  /\ (calls (session_after history) = [] ->
      forall answers,
        (List.length answers <= n ->
         exists t,
           interval (hook (run (rounds answers) started)) = Some t
           /\ currentIndex t = List.length answers
           /\ isExecuting (hook (run (rounds answers) started)) = true
           /\ callbacks_run (rounds answers) started = List.length answers)
        /\ (List.length answers = n ->
            hook (run (rounds answers ++ [TimerFires]) started) = stopped
            /\ callbacks_run (rounds answers ++ [TimerFires]) started
               = n + 1)).
Proof.
  intros R N n started.
  set (w := session_after history) in *.
  set (t0 := {| delay := (1 / parseInt selectedPacing * 1000)%float;
                leads_seen := leads;
                flag_seen := isCallInProgress w;
                pendingLeads := filter eligible leads;
                currentIndex := 0 |}).
  assert (H0 : interval (hook started) = Some t0).
  { subst started. rewrite (start_starts _ _ _ N). cbn [hook].
    now rewrite (startExecution_starts _ _ _ _ N). }
  assert (X0 : isExecuting (hook started) = true).
  { subst started. rewrite (start_starts _ _ _ N). cbn [hook].
    now rewrite (startExecution_starts _ _ _ _ N). }
  assert (A0 : awaited started = 0)
    by (apply awaited_start; [apply session_tidy | exact N]).
  split; [|split; [|split]].
  - exists t0. repeat split; auto. apply (configured_interval _ R).
  - intros fs t H. pose proof (run_counts fs started t0 H0) as C.
    rewrite H in C. destruct C as [C E]. rewrite A0 in C.
    cbn [currentIndex t0] in C.
    assert (P : pendingLeads t = filter eligible leads).
    { rewrite E in H. cbn [armed interval] in H. injection H as <-.
      reflexivity. }
    split; [lia|]. split; [now rewrite E|]. split.
    + intros L.
      destruct (tick_counts TimerFires _ _ H) as [[_ [L' _]]|[i [E' _]]].
      * rewrite P in L'. fold n in L'. lia.
      * rewrite E'. eexists. reflexivity.
    + intros L. cbn [tick]. unfold timer_fires. rewrite H, P. fold n.
      now destruct (Nat.leb_spec n (currentIndex t)); [|lia].
  - intros fs H. pose proof (run_counts fs started t0 H0) as C.
    rewrite H in C. destruct C as [C E]. rewrite A0 in C.
    cbn [currentIndex pendingLeads t0] in C. fold n in C.
    split; [lia | exact E].
  - intros K answers.
    assert (K0 : calls started = []).
    { subst started. now rewrite (start_starts _ _ _ N). }
    split.
    + intros L.
      destruct (rounds_advance answers started t0 K0 H0) as [E [_ [_ C]]];
        [exact L|].
      exists (at_index t0 (List.length answers)).
      rewrite E, C. cbn [armed interval isExecuting]. now auto.
    + intros L.
      destruct (rounds_advance answers started t0 K0 H0) as [E [_ [_ C]]];
        [cbn [currentIndex pendingLeads t0]; fold n; lia|].
      rewrite run_app, callbacks_run_app, C.
      cbn [run callbacks_run tick]. rewrite E. cbn [armed interval].
      unfold timer_fires. rewrite E.
      cbn [armed interval at_index pendingLeads currentIndex t0 Nat.add].
      fold n. rewrite L, Nat.leb_refl. cbn [fst hook]. split; [reflexivity|].
      lia.
Qed.

Lemma pacing_run_witness :
  hook (run (rounds (repeat Sample.answered 5) ++ [TimerFires])
          (fst (start Sample.five_leads "2" mounted)))
  = stopped
  /\ callbacks_run (rounds (repeat Sample.answered 5) ++ [TimerFires])
       (fst (start Sample.five_leads "2" mounted))
     = 6.
Proof.
  refine (proj2 (proj2 (proj2 (proj2
                    (pacing_run [] Sample.five_leads "2" _ _)))
                   eq_refl (repeat Sample.answered 5)) eq_refl).
  - right; left; reflexivity.
  - discriminate.
Defined.

(** With rate 2 and five eligible leads, each call being over before the
    next firing, the run is not over after the fifth firing: the interval
    is still armed, its cursor at 5, and a sixth firing occurs, which ends
    the run. *)
Lemma five_leads_take_six_firings :
  let started := fst (start Sample.five_leads "2" mounted) in
  let five := rounds (repeat Sample.answered 5) in
  isExecuting (hook (run five started)) = true
  /\ option_map currentIndex (interval (hook (run five started))) = Some 5
  /\ callbacks_run five started = 5
  /\ callbacks_run (five ++ [TimerFires]) started = 6
  /\ hook (run (five ++ [TimerFires]) started) = stopped.
Proof. repeat split. Qed.

End Scheduler.

(* ================================================================== *)
(** * Worked examples *)
(* ================================================================== *)

(** Two firings before the first answer, then a firing after each answer:
    the first lead is asked for twice, and the cursor moves on as the calls
    end. *)
Example overlapping_firings :
  requests
    (run_trace
       [ TimerFires; TimerFires; ProviderAnswers 0 InvokeRejects;
         TimerFires; ProviderAnswers 0 InvokeRejects; TimerFires ]
       (fst (start
               [ Sample.lead "L1" "5550100001" "Pending";
                 Sample.lead "L2" "5550100002" "Pending";
                 Sample.lead "L3" "5550100003" "Completed";
                 Sample.lead "L4" "5550100004" "Pending" ] "2" mounted)))
  = ["L1"; "L1"; "L2"; "L4"].
Proof. reflexivity. Qed.

(** An end reason that is no string makes the classifier throw; the
    handler then answers through its catch branch. *)
Example numeric_end_reason_throws :
  @extractDisposition Sample.runtime (VObj [("endedReason", VNum 5)])
  = Throw TypeError.
Proof. reflexivity. Qed.

(** A phone number that matches no lead: nothing is updated and the
    webhook is acknowledged as processed. *)
Example unmatched_phone_is_acknowledged :
  @serve Sample.runtime (with_leads Sample.db []) Sample.post
  = respond 200 true "Webhook processed successfully" None None.
Proof. reflexivity. Qed.

(** The end-to-end example of the specification: dispatch, then the
    webhook. *)
Example end_to_end :
  let imported := [Sample.lead "L1" "5550102222" "Pending"] in
  let dispatched :=
    stored_after (triggerCall imported "L1" Sample.accepts false) imported in
  let db := with_leads Sample.db dispatched in
  map status dispatched = ["In Progress"]
  /\ map disposition dispatched = [Some "Call initiated"]
  /\ map status (table_after db (@serve Sample.runtime db Sample.post))
     = ["Completed"]
  /\ map disposition (table_after db (@serve Sample.runtime db Sample.post))
     = [Some "Do Not Contact"]
  /\ map duration (table_after db (@serve Sample.runtime db Sample.post))
     = [1.5%float].
Proof. repeat split. Qed.

(* ================================================================== *)
(** * Further properties: the webhook function *)
(* ================================================================== *)

Section Extractors.

Lemma first_present_null_or_truthy (candidates : list value) :
  first_present candidates VNull = VNull
  \/ truthy (first_present candidates VNull) = true.
Proof.
  unfold first_present.
  destruct (find truthy candidates) as [v|] eqn:F; [|now left].
  right. exact (proj2 (find_some _ _ F)).
Qed.

Lemma first_present_head (v : value) (rest : list value) (dflt : value) :
  truthy v = true -> first_present (v :: rest) dflt = v.
Proof. intros T. unfold first_present. cbn [find]. now rewrite T. Qed.

(** X1. Each of the three extractors returns the value at the first of
    its candidate paths that is truthy, read without regard to the guards
    (a value that is no object on the way holds nothing, and throws
    nothing), and [null] when no path holds a truthy value: a contact id,
    phone number or name that is [0], [""] or [false] counts as absent. *)
Theorem extractors_first_truthy (payload : value) :
  payload <> VNull ->
  extractContactId payload
  = Ok (first_present (map (deep payload) contactId_paths) VNull)
  /\ extractPhoneNumber payload
     = Ok (first_present (map (deep payload) phoneNumber_paths) VNull)
  /\ extractCustomerName payload
     = Ok (first_present (map (deep payload) customerName_paths) VNull)
  /\ (forall r,
         extractContactId payload = Ok r
         \/ extractPhoneNumber payload = Ok r
         \/ extractCustomerName payload = Ok r ->
         r = VNull \/ truthy r = true).
Proof.
  intros Hnn.
  unfold extractContactId, extractPhoneNumber, extractCustomerName.
  rewrite !(first_truthy_first_present _ _ _ Hnn).
  fold contactId_paths phoneNumber_paths customerName_paths.
  split; [reflexivity|]. split; [reflexivity|]. split; [reflexivity|].
  intros r [H|[H|H]]; injection H as <-; apply first_present_null_or_truthy.
Qed.

Lemma extractors_first_truthy_witness :
  extractPhoneNumber Sample.webhook = Ok (VStr "+1 (555) 010-2222").
Proof.
  refine (proj1 (proj2 (extractors_first_truthy Sample.webhook _))).
  discriminate.
Defined.

End Extractors.

Section Labels.

Context {rt : Runtime}.

Ltac open_bind :=
  match goal with
  | |- context [bind ?c _] => destruct c eqn:?; cbn [bind]
  end.

Ltac open_if :=
  match goal with
  | |- context [if ?c then _ else _] => destruct c eqn:?
  end.

Lemma fixed_is_label (l : string) : In l fixed_labels -> is_label l.
Proof. now left. Qed.

Lemma extractDisposition_is_label (payload : value) (l : string) :
  extractDisposition payload = Ok l -> is_label l.
Proof.
  unfold extractDisposition.
  repeat open_bind; try discriminate.
  all: repeat open_if; repeat open_bind; try discriminate.
  all: intros H; injection H as <-.
  all: first [ right; eexists; reflexivity
             | apply fixed_is_label; cbn; tauto ].
Qed.

(** X2. Whatever the payload, a label the classifier returns is one of
    the eleven fixed labels, or "Other: " followed by the end reason of
    the payload, which then is a string that is not empty. *)
Theorem extractDisposition_labels (payload : value) (l : string) :
  extractDisposition payload = Ok l ->
  In l fixed_labels
  \/ exists e,
       endReason_of payload = VStr e /\ e <> "" /\ l = "Other: " ++ e.
Proof.
  intros H.
  assert (N : payload <> VNull) by (intros ->; discriminate H).
  revert H. unfold extractDisposition.
  rewrite !first_truthy_first_present by exact N.
  change (first_present
            (map (deep payload)
               [ ["endedReason"]; ["message"; "endedReason"];
                 ["end_reason"]; ["message"; "end_reason"] ]) VNull)
    with (endReason_of payload).
  destruct (endReason_of payload) as [|b|x|e|a|o] eqn:ER;
    cbn [bind to_string].
  all: repeat open_bind; try discriminate.
  all: repeat open_if; repeat open_bind; try discriminate.
  all: intros H; injection H as <-.
  all: try (left; cbn; tauto).
  all: right; exists e; split; [reflexivity|]; split; [|reflexivity].
  all: intros ->; discriminate.
Qed.

End Labels.

Lemma extractDisposition_labels_witness :
  In "Other: pipeline-error" fixed_labels
  \/ exists e,
       endReason_of Sample.other_reason = VStr e /\ e <> ""
       /\ "Other: pipeline-error" = "Other: " ++ e.
Proof.
  exact (@extractDisposition_labels Sample.runtime Sample.other_reason
           "Other: pipeline-error" eq_refl).
Defined.

Section Deliveries.

Context {rt : Runtime}.

Lemma determineCallStatus_values (payload : value) (s : string) :
  determineCallStatus payload = Ok s -> s = "Completed" \/ s = "Failed".
Proof.
  unfold determineCallStatus.
  destruct (get payload "success"); cbn [bind]; [|discriminate].
  destruct (get payload "message"); cbn [bind]; [|discriminate].
  destruct (is_false a || truthy a0 && is_false (field a0 "success")).
  { intros H; injection H as <-. now right. }
  destruct (get payload "status") as [st|]; cbn [bind]; [|discriminate].
  destruct st; try (intros H; injection H as <-; now left).
  destruct (truthy (VStr s0) && includes (toLowerCase s0) "fail");
    intros H; injection H as <-; auto.
Qed.

(** What the update of a run of the handler is made of. *)
Lemma update_parts (db : Backend) (req : Request)
    (target : string) (u : LeadUpdate) :
  update (serve db req) = Some (target, u) ->
  exists raw payload d,
    text req = Ok raw /\ JSON_parse raw = Ok payload
    /\ determineCallStatus payload = Ok (new_status u)
    /\ extractDisposition payload = Ok (new_disposition u)
    /\ new_duration u = Some (d / 60)%float
    /\ new_cost u = Some (calculateCallCost (d / 60)).
Proof.
  unfold serve.
  destruct (String.eqb (method req) "OPTIONS"); [discriminate|].
  destruct (text req) as [raw|e0] eqn:T; cbn [bind]; [|discriminate].
  unfold process.
  destruct (JSON_parse raw) as [payload|e1] eqn:P; [|discriminate].
  destruct (object_keys payload); cbn [bind]; [|discriminate].
  destruct (extractContactId payload); cbn [bind]; [|discriminate].
  destruct (extractPhoneNumber payload); cbn [bind]; [|discriminate].
  destruct (extractDisposition payload) as [disp|] eqn:D; cbn [bind];
    [|discriminate].
  destruct (extractDuration payload) as [v|]; cbn [bind]; [|discriminate].
  destruct (to_number v) as [d|]; cbn [bind]; [|discriminate].
  destruct (determineCallStatus payload) as [st|] eqn:S; cbn [bind];
    [|discriminate].
  destruct (resolveContact db payload a0 a1) as [c|]; cbn [bind];
    [|discriminate].
  destruct (negb (truthy c) && negb (truthy a1)); [discriminate|].
  destruct (truthy c); [|discriminate].
  destruct (to_string c) as [tg|]; cbn [bind]; [|discriminate].
  destruct (on_update db); intros H; injection H as _ <-;
    exists raw, payload, d; cbn; auto 10.
Qed.

Lemma update_is_terminal_parts (db : Backend) (req : Request)
    (target : string) (u : LeadUpdate) :
  update (serve db req) = Some (target, u) ->
  new_status u = "Completed" \/ new_status u = "Failed".
Proof.
  intros H.
  destruct (update_parts _ _ _ _ H) as [raw [payload [d [_ [_ [S _]]]]]].
  exact (determineCallStatus_values _ _ S).
Qed.

(** X3. The update a run of the handler sends always carries the status
    "Completed" or "Failed", a disposition of the classifier's label set,
    and both a duration and a cost: the handler never writes a lead back
    to "Pending" or "In Progress". *)
Theorem update_is_terminal (db : Backend) (req : Request)
    (target : string) (u : LeadUpdate) :
  update (serve db req) = Some (target, u) ->
  (new_status u = "Completed" \/ new_status u = "Failed")
  /\ is_label (new_disposition u)
  /\ (exists minutes,
         new_duration u = Some minutes
         /\ new_cost u = Some (calculateCallCost minutes)).
Proof.
  intros H.
  destruct (update_parts _ _ _ _ H) as [raw [payload [d [_ [_ [S [D [M C]]]]]]]].
  split; [exact (determineCallStatus_values _ _ S)|].
  split; [exact (extractDisposition_is_label _ _ D)|].
  now exists (d / 60)%float.
Qed.

(** X4. A payload that names its lead makes the handler look nothing up:
    its outcome is the same whatever the table holds and however the
    lookups would end, and the update goes to the named id. *)
Theorem contact_id_skips_lookup (db db' : Backend) (req : Request)
    (raw : string) (payload c : value) :
  text req = Ok raw -> JSON_parse raw = Ok payload ->
  extractContactId payload = Ok c -> truthy c = true ->
  on_update db' = on_update db ->
  serve db' req = serve db req
  /\ (forall target u,
         update (serve db req) = Some (target, u) -> to_string c = Ok target).
Proof.
  intros T P C Tc U. unfold serve.
  destruct (String.eqb (method req) "OPTIONS"); [split; [reflexivity|discriminate]|].
  rewrite T. cbn [bind]. unfold process. rewrite P, C, U.
  destruct (object_keys payload); cbn [bind];
    [|split; [reflexivity|discriminate]].
  destruct (extractPhoneNumber payload) as [p|]; cbn [bind];
    [|split; [reflexivity|discriminate]].
  destruct (extractDisposition payload); cbn [bind];
    [|split; [reflexivity|discriminate]].
  destruct (extractDuration payload) as [v|]; cbn [bind];
    [|split; [reflexivity|discriminate]].
  destruct (to_number v); cbn [bind]; [|split; [reflexivity|discriminate]].
  destruct (determineCallStatus payload); cbn [bind];
    [|split; [reflexivity|discriminate]].
  unfold resolveContact. rewrite Tc. cbn [negb andb bind]. rewrite Tc.
  split; [reflexivity|].
  destruct (to_string c) as [tg|]; cbn [bind]; [|discriminate].
  destruct (on_update db); intros target u H; injection H as <- _;
    reflexivity.
Qed.

(** X5. When the payload names no lead but a phone number, and the
    repository rejects the first lookup, the delivery fails as a whole:
    the handler answers "Failed to process webhook" with [success: false]
    and sends no update. *)
Theorem rejected_lookup_fails_delivery (db : Backend) (req : Request)
    (raw : string) (payload c p : value) :
  method req <> "OPTIONS" ->
  text req = Ok raw -> JSON_parse raw = Ok payload ->
  extractContactId payload = Ok c -> truthy c = false ->
  extractPhoneNumber payload = Ok p -> truthy p = true ->
  on_eq_phone db = Rejected ->
  exists e,
    serve db req
    = respond 200 false "Failed to process webhook" (Some e) None.
Proof.
  intros M T P C Tc Hp Tp R. unfold serve.
  apply String.eqb_neq in M. rewrite M, T. cbn [bind].
  unfold process. rewrite P, C, Hp.
  destruct (object_keys payload); cbn [bind]; [|eexists; reflexivity].
  destruct (extractDisposition payload); cbn [bind]; [|eexists; reflexivity].
  destruct (extractDuration payload) as [v|]; cbn [bind];
    [|eexists; reflexivity].
  destruct (to_number v); cbn [bind]; [|eexists; reflexivity].
  destruct (determineCallStatus payload); cbn [bind];
    [|eexists; reflexivity].
  unfold resolveContact, findLeadByPhoneNumber.
  rewrite Tc, Tp, R. cbn [negb andb].
  destruct (to_string p); cbn [bind select]; eexists; reflexivity.
Qed.

End Deliveries.

Lemma update_is_terminal_witness :
  ("Failed" = "Completed" \/ "Failed" = "Failed")
  /\ is_label "Unknown"
  /\ (exists minutes,
         Some 0%float = Some minutes
         /\ Some 0%float = Some (calculateCallCost minutes)).
Proof.
  exact (@update_is_terminal Sample.runtime2 Sample.db Sample.correlated_post
           "L9"
           {| new_status := "Failed"; new_disposition := "Unknown";
              new_duration := Some 0%float; new_cost := Some 0%float |}
           eq_refl).
Defined.

Lemma contact_id_skips_lookup_witness :
  @serve Sample.runtime2 Sample.unreachable_db Sample.correlated_post
  = @serve Sample.runtime2 Sample.db Sample.correlated_post.
Proof.
  exact (proj1 (@contact_id_skips_lookup Sample.runtime2 Sample.db
                  Sample.unreachable_db Sample.correlated_post
                  Sample.correlated_text Sample.correlated (VStr "L9")
                  eq_refl eq_refl eq_refl eq_refl eq_refl)).
Defined.

Lemma rejected_lookup_fails_delivery_witness :
  exists e,
    @serve Sample.runtime Sample.unreachable_db Sample.post
    = respond 200 false "Failed to process webhook" (Some e) None.
Proof.
  refine (@rejected_lookup_fails_delivery Sample.runtime
            Sample.unreachable_db Sample.post Sample.webhook_text
            Sample.webhook VNull (VStr "+1 (555) 010-2222")
            _ eq_refl eq_refl eq_refl eq_refl eq_refl eq_refl eq_refl).
  discriminate.
Defined.

Section Wildcards.

Context {rt : Runtime}.

Lemma includes_empty (s : string) : includes s "" = true.
Proof. destruct s; reflexivity. Qed.

Lemma substring_nothing (n : nat) (s : string) : String.substring n 0 s = "".
Proof.
  revert n; induction s as [|c s IH]; intros [|n]; try reflexivity.
  cbn. apply IH.
Qed.

Lemma endsWith_empty (s : string) : endsWith s "" = true.
Proof.
  unfold endsWith, slice_last. cbn [String.length].
  now rewrite substring_nothing.
Qed.

Lemma In_firstn {A : Type} (n : nat) (l : list A) (x : A) :
  In x (firstn n l) -> In x l.
Proof.
  intros H. rewrite <- (firstn_skipn n l). apply in_or_app. now left.
Qed.

Lemma find_has_witness {A : Type} (f : A -> bool) (l : list A) (x : A) :
  In x l -> f x = true -> exists y, find f l = Some y.
Proof.
  intros I F. destruct (find f l) as [y|] eqn:E; [now exists y|].
  rewrite (find_none _ _ E x I) in F. discriminate.
Qed.

(** X6. An incoming phone number without any digit matches, when no stored
    number equals it, the first lead of the table that has a phone number
    stored: the last ten digits are the empty string, which every stored
    number holds. *)
Theorem digitless_number_matches_first_stored (db : Backend) (s : string) :
  delivers db -> strip_non_digits s = "" ->
  findLeadByPhoneNumber db (VStr s)
  = Ok (Matcher.first_match
          [Matcher.exact (leads db) s; find has_phone (leads db)]).
Proof.
  intros Hd Hs. rewrite (findLeadByPhoneNumber_steps _ _ Hd).
  cbn [Matcher.first_match fold_right].
  destruct (Matcher.exact (leads db) s); [reflexivity|].
  assert (E : Matcher.last_ten (leads db) s = find has_phone (leads db)).
  { unfold Matcher.last_ten, Matcher.digits_of. rewrite Hs.
    apply find_ext. intros l. unfold has_phone.
    destruct (phone_number l) as [p|]; [|reflexivity].
    unfold Matcher.holds. apply includes_empty. }
  rewrite E. destruct (find has_phone (leads db)) as [l|] eqn:F; [reflexivity|].
  destruct (Matcher.scan (leads db) s) as [l|] eqn:S; [|reflexivity].
  exfalso. unfold Matcher.scan in S.
  destruct (find_some _ _ S) as [I P]. apply In_firstn in I.
  pose proof (find_none _ _ F l I) as N. unfold has_phone in N.
  destruct (phone_number l); discriminate.
Qed.

(** X7. A lead stored with a phone number that holds no digit (and is not
    empty) matches every incoming number in the scan, its digits being
    the empty suffix: with such a lead among the first 25 rows the matcher
    always finds some lead. *)
Theorem digitless_stored_number_matches_any (db : Backend) (s : string)
    (l : Lead) (p : string) :
  delivers db -> In l (firstn 25 (leads db)) ->
  phone_number l = Some p -> p <> "" -> strip_non_digits p = "" ->
  cleaned_match (strip_non_digits s) (slice_last 10 (strip_non_digits s)) l
  = true
  /\ exists l', findLeadByPhoneNumber db (VStr s) = Ok (Some l').
Proof.
  intros Hd I Hp Hn Hz.
  assert (M : cleaned_match (strip_non_digits s)
                (slice_last 10 (strip_non_digits s)) l = true).
  { unfold cleaned_match. rewrite Hp.
    apply String.eqb_neq in Hn. rewrite Hn, Hz.
    change (slice_last 10 "") with "". rewrite endsWith_empty.
    now rewrite !orb_true_r. }
  split; [exact M|].
  rewrite (findLeadByPhoneNumber_steps _ _ Hd).
  cbn [Matcher.first_match fold_right].
  destruct (Matcher.exact (leads db) s) as [l1|]; [now exists l1|].
  destruct (Matcher.last_ten (leads db) s) as [l2|]; [now exists l2|].
  unfold Matcher.scan.
  rewrite <- (find_ext _ _ _ (cleaned_match_either_way s)).
  destruct (find_has_witness _ _ _ I M) as [y ->]. now exists y.
Qed.

End Wildcards.

Lemma digitless_number_matches_first_stored_witness :
  @findLeadByPhoneNumber Sample.runtime Sample.db (VStr "anonymous")
  = Ok (Some (Sample.lead "L1" "5550102222" "In Progress")).
Proof.
  refine (@digitless_number_matches_first_stored Sample.runtime Sample.db
            "anonymous" _ eq_refl).
  repeat split.
Defined.

Lemma digitless_stored_number_matches_any_witness :
  exists l',
    @findLeadByPhoneNumber Sample.runtime Sample.placeholder_db
      (VStr "+1 (555) 010-2222")
    = Ok (Some l').
Proof.
  refine (proj2 (@digitless_stored_number_matches_any Sample.runtime
                   Sample.placeholder_db "+1 (555) 010-2222"
                   (Sample.lead "L7" "unknown" "Pending") "unknown"
                   _ _ eq_refl _ eq_refl)).
  - repeat split.
  - left; reflexivity.
  - discriminate.
Defined.

(* ================================================================== *)
(** * Further properties: statistics *)
(* ================================================================== *)

Section Statistics.

Context {rt : Runtime}.

Lemma count_status_cons (s : string) (l : Lead) (rows : list Lead) :
  count_status s (l :: rows)
  = (if String.eqb (status l) s then 1 else 0) + count_status s rows.
Proof.
  unfold count_status. cbn [filter].
  now destruct (String.eqb (status l) s).
Qed.

Lemma counted_sum (l : Lead) :
  (if String.eqb (status l) "Completed" then 1 else 0)
  + (if String.eqb (status l) "In Progress" then 1 else 0)
  + (if String.eqb (status l) "Failed" then 1 else 0)
  + (if String.eqb (status l) "Pending" then 1 else 0)
  = if counted (status l) then 1 else 0.
Proof.
  unfold counted, counted_statuses. cbn [existsb].
  destruct (String.eqb_spec (status l) "Completed") as [->|_]; [reflexivity|].
  destruct (String.eqb_spec (status l) "In Progress") as [->|_]; [reflexivity|].
  destruct (String.eqb_spec (status l) "Failed") as [->|_]; [reflexivity|].
  now destruct (String.eqb (status l) "Pending").
Qed.

Lemma counts_total (rows : list Lead) :
  count_status "Completed" rows + count_status "In Progress" rows
  + count_status "Failed" rows + count_status "Pending" rows
  = List.length (filter (fun l => counted (status l)) rows).
Proof.
  induction rows as [|l rows IH]; [reflexivity|].
  rewrite !count_status_cons. cbn [filter].
  pose proof (counted_sum l) as C.
  destruct (counted (status l)); cbn [List.length]; lia.
Qed.

Lemma filter_all_length {A : Type} (f : A -> bool) (l : list A) :
  List.length (filter f l) = List.length l <-> forall x, In x l -> f x = true.
Proof.
  induction l as [|a l IH]; [cbn; tauto|].
  cbn [filter]. pose proof (filter_length_le f l) as B.
  destruct (f a) eqn:E; cbn [List.length].
  - split.
    + intros H x [<-|I]; [exact E|]. apply IH; [lia | exact I].
    + intros H. f_equal. apply IH. intros x I. apply H. now right.
  - split; [lia|]. intros H. rewrite (H a) in E by now left. discriminate.
Qed.

(** X9. The four counts of the statistics never add up to more than the
    number of leads, and add up to it exactly when every lead has one of
    the four statuses "Completed", "In Progress", "Failed", "Pending": a
    lead with any other status is counted nowhere. *)
Theorem updateStats_counts (leadsData : list Lead) :
  let s := updateStats leadsData in
  completed s + inProgress s + failed s + remaining s
  <= List.length leadsData
  /\ (completed s + inProgress s + failed s + remaining s
      = List.length leadsData
      <-> forall l, In l leadsData -> counted (status l) = true).
Proof.
  intros s. subst s. cbn [updateStats completed inProgress failed remaining].
  rewrite counts_total. split.
  - apply filter_length_le.
  - apply filter_all_length.
Qed.

Lemma or_zero_not_nan (x : float) : is_nan (or_zero x) = false.
Proof.
  unfold or_zero. cbn [truthy].
  destruct (is_nan x) eqn:N.
  - rewrite orb_true_r. reflexivity.
  - rewrite orb_false_r.
    destruct (PrimFloat.eqb x 0); cbn [negb]; [reflexivity | exact N].
Qed.

Lemma or_zero_nonzero (x : float) :
  PrimFloat.eqb (or_zero x) 0 = true -> or_zero x = 0%float.
Proof.
  unfold or_zero. cbn [truthy].
  destruct (PrimFloat.eqb x 0) eqn:E; cbn [orb negb]; [reflexivity|].
  destruct (is_nan x); cbn [negb]; [reflexivity|].
  intros H. rewrite H in E. discriminate E.
Qed.

(** X10. The totals of the statistics are never NaN, and a total that
    equals zero is the positive zero: whatever the durations and costs of
    the leads, [|| 0] puts 0 in the place of a NaN and of a negative
    zero. *)
Theorem updateStats_totals (leadsData : list Lead) :
  is_nan (totalDuration (updateStats leadsData)) = false
  /\ is_nan (totalCost (updateStats leadsData)) = false
  /\ (PrimFloat.eqb (totalDuration (updateStats leadsData)) 0 = true ->
      totalDuration (updateStats leadsData) = 0%float)
  /\ (PrimFloat.eqb (totalCost (updateStats leadsData)) 0 = true ->
      totalCost (updateStats leadsData) = 0%float).
Proof.
  cbn [updateStats totalDuration totalCost].
  split; [apply or_zero_not_nan|]. split; [apply or_zero_not_nan|].
  split; apply or_zero_nonzero.
Qed.

Lemma update_eq_id_absent (target : string) (u : LeadUpdate)
    (rows : list Lead) :
  ~ In target (map id rows) -> update_eq_id target u rows = rows.
Proof.
  induction rows as [|a rows IH]; intros N; [reflexivity|].
  cbn [update_eq_id map] in *.
  destruct (String.eqb_spec (id a) target) as [E|_].
  - exfalso. apply N. now left.
  - f_equal. apply IH. intros C. apply N. now right.
Qed.

(** Updating the one row of an id moves that row from the count of its
    old status to the count of the new one. *)
Lemma count_status_update (s target : string) (u : LeadUpdate)
    (rows : list Lead) (l : Lead) :
  NoDup (map id rows) -> In l rows -> id l = target ->
  count_status s (update_eq_id target u rows)
  + (if String.eqb (status l) s then 1 else 0)
  = count_status s rows + (if String.eqb (new_status u) s then 1 else 0).
Proof.
  induction rows as [|a rows IH]; intros D I E; [contradiction|].
  cbn [map] in D. apply NoDup_cons_iff in D. destruct D as [Na D].
  cbn [update_eq_id map]. fold (update_eq_id target u rows).
  rewrite !count_status_cons.
  destruct I as [->|I].
  - rewrite E, String.eqb_refl in *.
    rewrite update_eq_id_absent by assumption.
    change (status (patch u l)) with (new_status u). lia.
  - destruct (String.eqb_spec (id a) target) as [Ea|_].
    + exfalso. apply Na. rewrite Ea, <- E. now apply in_map.
    + specialize (IH D I E). lia.
Qed.

(** X11. When the handler updates a lead that was "In Progress", in a
    table where ids are unique and with the repository accepting the
    update, the statistics recomputed from the table count one lead less
    in progress and one more completed or failed; the pending count
    stays. *)
Theorem delivery_moves_one_lead (db : Backend) (req : Request)
    (target : string) (u : LeadUpdate) (l : Lead) :
  update (serve db req) = Some (target, u) -> on_update db = None ->
  NoDup (map id (leads db)) -> In l (leads db) -> id l = target ->
  status l = "In Progress" ->
  let before := updateStats (leads db) in
  let after := updateStats (table_after db (serve db req)) in
  inProgress after + 1 = inProgress before
  /\ completed after + failed after = completed before + failed before + 1
  /\ remaining after = remaining before.
Proof.
  intros U O D I E S before after. subst before after.
  unfold table_after. rewrite U, O.
  cbn [updateStats completed inProgress failed remaining].
  pose proof (count_status_update "In Progress" _ u _ _ D I E) as P.
  pose proof (count_status_update "Completed" _ u _ _ D I E) as C.
  pose proof (count_status_update "Failed" _ u _ _ D I E) as F.
  pose proof (count_status_update "Pending" _ u _ _ D I E) as R.
  rewrite S in P, C, F, R. cbn in P, C, F, R.
  destruct (update_is_terminal_parts _ _ _ _ U) as [T|T];
    rewrite T in P, C, F, R; cbn in P, C, F, R; lia.
Qed.

End Statistics.

Lemma delivery_moves_one_lead_witness :
  let before := updateStats (leads Sample.calling_db) in
  let after :=
    updateStats (table_after Sample.calling_db
                   (@serve Sample.runtime2 Sample.calling_db
                      Sample.correlated_post)) in
  inProgress after + 1 = inProgress before
  /\ completed after + failed after = completed before + failed before + 1
  /\ remaining after = remaining before.
Proof.
  refine (@delivery_moves_one_lead Sample.runtime2 Sample.calling_db
            Sample.correlated_post "L9"
            {| new_status := "Failed"; new_disposition := "Unknown";
               new_duration := Some 0%float; new_cost := Some 0%float |}
            (Sample.lead "L9" "5550100009" "In Progress")
            eq_refl eq_refl _ _ eq_refl eq_refl).
  - repeat constructor; cbn; intuition discriminate.
  - left; reflexivity.
Defined.
(* ================================================================== *)
(** * The hook over its lifetime *)
(* ================================================================== *)

Section Lifetime.

Lemma lead_by_id_unique (leads : list Lead) (l : Lead) :
  NoDup (map id leads) -> In l leads -> lead_by_id leads (id l) = Some l.
Proof.
  induction leads as [|a leads IH]; intros D I; [contradiction|].
  cbn [map] in D. apply NoDup_cons_iff in D. destruct D as [Na D].
  unfold lead_by_id. cbn [find]. fold (lead_by_id leads (id l)).
  destruct I as [->|I]; [now rewrite String.eqb_refl|].
  destruct (String.eqb_spec (id a) (id l)) as [E|_].
  - exfalso. apply Na. rewrite E. now apply in_map.
  - now apply IH.
Qed.

Lemma eligible_pending (l : Lead) : eligible l = true -> status l = "Pending".
Proof.
  unfold eligible. intros H. apply andb_true_iff in H.
  now apply String.eqb_eq.
Qed.

(** Among leads with distinct ids, the hook holds an eligible lead as
    pending. *)
Lemma eligible_held (leads : list Lead) (l : Lead) :
  NoDup (map id leads) -> In l (filter eligible leads) ->
  held_pending leads (id l) = true.
Proof.
  intros D I. apply filter_In in I. destruct I as [I E].
  unfold held_pending. rewrite (lead_by_id_unique _ _ D I).
  rewrite (eligible_pending _ E). reflexivity.
Qed.

Lemma skipn_nth {A : Type} (l : list A) (i : nat) (x : A) :
  nth_error l i = Some x -> skipn i l = x :: skipn (S i) l.
Proof.
  revert i. induction l as [|a l IH]; intros [|i] N; try discriminate.
  - cbn in N. now injection N as ->.
  - cbn [skipn]. now apply IH.
Qed.

(** The requests of a series of rounds from a session in which no call
    waits. *)
Lemma rounds_requests (answers : list (InvokeReply * bool)) (w : Session)
    (t : Interval) :
  calls w = [] -> interval (hook w) = Some t ->
  (forall l, In l (pendingLeads t) ->
             held_pending (leads_seen t) (id l) = true) ->
  requests (run_trace (rounds answers) w)
  = if flag_seen t then []
    else map id (firstn (List.length answers)
                   (skipn (currentIndex t) (pendingLeads t))).
Proof.
  revert w t. induction answers as [|a answers IH]; intros w t K H P.
  - cbn. now destruct (flag_seen t).
  - change (rounds (a :: answers)) with (round a ++ rounds answers)%list.
    rewrite run_trace_app, requests_app.
    destruct (Nat.ltb_spec (currentIndex t) (List.length (pendingLeads t)))
      as [L|L].
    + destruct (round_advances a w t K H L) as [lead [N [E [K' [_ [_ T]]]]]].
      assert (H' : interval (hook (run (round a) w))
                   = Some (at_index t (S (currentIndex t))))
        by now rewrite E.
      rewrite (IH _ _ K' H') by exact P. rewrite T.
      cbn [at_index flag_seen currentIndex pendingLeads List.length].
      destruct (flag_seen t); [reflexivity|].
      rewrite triggerCall_requests, (P lead (nth_error_In _ _ N)).
      rewrite (skipn_nth _ _ _ N). reflexivity.
    + rewrite skipn_all2 by exact L. rewrite firstn_nil.
      assert (F : tick TimerFires w
                  = ({| hook := stopped;
                        isCallInProgress := isCallInProgress w;
                        runs := runs w; calls := calls w |},
                     [ ClearInterval; SetIntervalId None;
                       SetIsExecuting false;
                       ToastSuccess
                         (VStr "Campaign execution completed") ])).
      { cbn [tick]. unfold timer_fires. rewrite H.
        now destruct (Nat.leb_spec (List.length (pendingLeads t))
                        (currentIndex t)); [|lia]. }
      unfold round at 1 2. cbn [run run_trace]. rewrite F.
      cbn [fst snd]. set (w1 := {| hook := stopped |}).
      assert (I1 : interval (hook w1) = None) by reflexivity.
      destruct (tick_idle (ProviderAnswers 0 (fst a)) w1 I1) as [_ [_ Q]].
      rewrite (Q (or_introl K)). cbn [fst snd].
      destruct (tick_idle (RepositoryAnswers 0 (snd a)) w1 I1) as [_ [_ Q']].
      rewrite (Q' (or_introl K)). cbn [fst snd app requests flat_map].
      destruct (run_idle (rounds answers) w1 I1) as [_ [_ [R _]]].
      rewrite R. now destruct (flag_seen t).
Qed.

Lemma NoDup_map_filter (f : Lead -> bool) (leads : list Lead) :
  NoDup (map id leads) -> NoDup (map id (filter f leads)).
Proof.
  induction leads as [|a leads IH]; intros D; [constructor|].
  cbn [map] in D. apply NoDup_cons_iff in D. destruct D as [Na D].
  cbn [filter]. destruct (f a); [|now apply IH].
  cbn [map]. constructor; [|now apply IH].
  intros C. apply Na. apply in_map_iff in C. destruct C as [x [E Hx]].
  apply filter_In in Hx. rewrite <- E. apply in_map. tauto.
Qed.

Lemma NoDup_take {A : Type} (k : nat) (l : list A) :
  NoDup l -> NoDup (firstn k l).
Proof.
  revert k. induction l as [|a l IH]; intros [|k] D; cbn [firstn];
    try constructor.
  - apply NoDup_cons_iff in D. destruct D as [Na D].
    intros C. apply Na. revert C. clear. revert k.
    induction l as [|b l IH]; intros [|k] C; cbn in *; try contradiction.
    destruct C as [C|C]; [now left | right; now apply (IH k)].
  - apply NoDup_cons_iff in D. now apply IH.
Qed.

(** X12. A run over leads with distinct ids, started when no call waits
    and each of whose calls is over before the next firing, asks the
    provider for the eligible leads in the order of the list, one lead
    per firing and none twice.  When the run was started while
    [isCallInProgress] was set, its callbacks, which go on reading the
    value from the start of the run, pass every lead over and ask for
    none. *)
Theorem run_requests_in_order (leads : list Lead) (selectedPacing : string)
    (w : Session) (answers : list (InvokeReply * bool)) :
  NoDup (map id leads) -> interval (hook w) = None -> calls w = [] ->
  requests (run_trace (rounds answers) (fst (start leads selectedPacing w)))
  = (if isCallInProgress w then []
     else map id (firstn (List.length answers) (filter eligible leads)))
  /\ NoDup (requests
              (run_trace (rounds answers)
                 (fst (start leads selectedPacing w)))).
Proof.
  intros D I K.
  assert (R : requests
                (run_trace (rounds answers)
                   (fst (start leads selectedPacing w)))
              = if isCallInProgress w then []
                else map id (firstn (List.length answers)
                               (filter eligible leads))).
  { destruct (filter eligible leads) as [|l0 rest] eqn:F.
    - unfold start, startExecution. rewrite F. cbn [List.length Nat.eqb fst].
      set (w' := {| hook := hook w |}).
      destruct (run_idle (rounds answers) w' I) as [_ [_ [_ Q]]].
      destruct (Q K) as [_ T]. rewrite T, firstn_nil.
      now destruct (isCallInProgress w).
    - assert (N : filter eligible leads <> []) by (rewrite F; discriminate).
      rewrite (start_starts _ _ _ N), (startExecution_starts _ _ _ _ N).
      erewrite rounds_requests; [| exact K | reflexivity |];
        cbn [leads_seen flag_seen pendingLeads currentIndex skipn];
        [now rewrite F|].
      intros l Hl. now apply eligible_held. }
  split; [exact R|]. rewrite R.
  destruct (isCallInProgress w); [constructor|].
  rewrite <- firstn_map. apply NoDup_take. now apply NoDup_map_filter.
Qed.

(** The callbacks of a run that was started with no call in progress,
    firing one after the other with no answer in between. *)
Lemma firings_repeat (k : nat) (w : Session) (t : Interval) (lead : Lead) :
  interval (hook w) = Some t -> flag_seen t = false ->
  nth_error (pendingLeads t) (currentIndex t) = Some lead ->
  held_pending (leads_seen t) (id lead) = true ->
  requests (run_trace (repeat TimerFires k) w) = repeat (id lead) k
  /\ hook (run (repeat TimerFires k) w) = hook w
  /\ List.length (calls (run (repeat TimerFires k) w))
     = List.length (calls w) + k.
Proof.
  revert w. induction k as [|k IH]; intros w H F N P.
  - cbn. auto.
  - cbn [repeat run run_trace tick].
    rewrite (timer_fires_lead _ _ _ H N), F.
    destruct (triggerCall_starts_held (leads_seen t) (id lead)) as [W [R _]].
    rewrite P in W, R. rewrite W. cbn [fst snd].
    set (w1 := {| hook := hook w |}).
    destruct (IH w1 H F N P) as [R1 [E1 L1]].
    rewrite requests_app, R, R1, E1, L1. subst w1. cbn [hook calls].
    rewrite length_app. cbn [List.length]. repeat split. lia.
Qed.

(** X21. A firing that comes before the call of the firing before it is
    over finds the cursor where it was, and asks the provider for the same
    lead again: with no answer arriving, every firing of a run started
    with no call in progress asks for the first eligible lead, and leaves
    one more call waiting. *)
Theorem unanswered_call_is_placed_again (leads : list Lead)
    (selectedPacing : string) (w : Session) (first : Lead)
    (rest : list Lead) (k : nat) :
  NoDup (map id leads) -> filter eligible leads = first :: rest ->
  isCallInProgress w = false ->
  requests (run_trace (repeat TimerFires k)
              (fst (start leads selectedPacing w)))
  = repeat (id first) k
  /\ option_map currentIndex
       (interval (hook (run (repeat TimerFires k)
                          (fst (start leads selectedPacing w)))))
     = Some 0
  /\ List.length (calls (run (repeat TimerFires k)
                           (fst (start leads selectedPacing w))))
     = List.length (calls w) + k.
Proof.
  intros D F C.
  assert (N : filter eligible leads <> []) by (rewrite F; discriminate).
  set (started := fst (start leads selectedPacing w)).
  assert (S : started
              = {| hook := fst (startExecution (isCallInProgress w) leads
                                  selectedPacing (hook w));
                   isCallInProgress := isCallInProgress w;
                   runs := S (runs w); calls := calls w |})
    by apply (start_starts _ _ _ N).
  rewrite (startExecution_starts _ _ _ _ N) in S.
  destruct (firings_repeat k started
              {| delay := (1 / parseInt selectedPacing * 1000)%float;
                 leads_seen := leads; flag_seen := isCallInProgress w;
                 pendingLeads := filter eligible leads;
                 currentIndex := 0 |} first) as [R [E L]].
  - now rewrite S.
  - exact C.
  - cbn [pendingLeads currentIndex]. now rewrite F.
  - cbn [leads_seen]. apply eligible_held; [exact D|]. rewrite F. now left.
  - rewrite R, E, L. rewrite S. cbn [hook interval option_map currentIndex
      calls]. auto.
Qed.

Lemma advance_keeps (h : Execution) :
  h = stopped \/ running h -> advance h = stopped \/ running (advance h).
Proof.
  intros [->|[E [I [t T]]]]; [now left|]. right.
  rewrite (advance_armed _ _ T). repeat split; auto. eexists. reflexivity.
Qed.

Lemma callback_resumes_keeps (c : Call) (w : Session) :
  hook w = stopped \/ running (hook w) ->
  callback_resumes c w = stopped \/ running (callback_resumes c w).
Proof.
  intros H. rewrite callback_resumes_cases.
  destruct (of_this_run (runs w) c); [now apply advance_keeps | exact H].
Qed.

(** Every operation leaves the hook either at rest or running. *)
Lemma perform_keeps (w : Session) (a : action) :
  hook w = stopped \/ running (hook w) ->
  hook (perform w a) = stopped \/ running (hook (perform w a)).
Proof.
  assert (Stop' : forall h', h' = stopped \/ running h' ->
                             fst (stopExecution h') = stopped).
  { intros h' [->|[_ [I _]]]; [reflexivity|].
    unfold stopExecution. now rewrite I. }
  intros H. destruct a as [leads p| |leads leadId|leads stats|st];
    cbn [perform].
  - unfold toggle. destruct (negb (isExecuting (hook w))).
    + cbn [start fst hook]. unfold startExecution.
      destruct (List.length (filter eligible leads) =? 0)%nat; [exact H|].
      right. repeat split. eexists. reflexivity.
    + left. now apply Stop'.
  - left. now apply Stop'.
  - unfold single_call. now destruct (isCallInProgress w).
  - cbn [watch fst hook]. unfold finishedEffect.
    destruct ((0 <? List.length leads)%nat && isExecuting (hook w));
      [|exact H].
    match goal with |- context [if ?c then _ else _] => destruct c end;
      cbn [fst]; auto.
  - destruct st as [|k reply|k updateError]; cbn [tick].
    + unfold timer_fires. destruct (interval (hook w)) as [t|]; [|exact H].
      destruct (List.length (pendingLeads t) <=? currentIndex t)%nat;
        [now left|].
      destruct (nth_error (pendingLeads t) (currentIndex t)) as [lead|];
        [|now apply advance_keeps].
      destruct (negb (flag_seen t)); [|now apply advance_keeps].
      destruct (snd (triggerCall_starts (leads_seen t) (id lead)));
        [exact H | now apply advance_keeps].
    + unfold provider_answers.
      destruct (nth_error (calls w) k) as [c|]; [|exact H].
      destruct (stage c); [|exact H].
      destruct (snd (triggerCall_resumes reply));
        [exact H | now apply callback_resumes_keeps].
    + unfold repository_answers.
      destruct (nth_error (calls w) k) as [c|]; [|exact H].
      destruct (stage c); [exact H | now apply callback_resumes_keeps].
Qed.

Lemma after_keeps (history : list action) :
  after history = stopped \/ running (after history).
Proof.
  unfold after, session_after.
  assert (G : forall w, hook w = stopped \/ running (hook w) ->
                hook (fold_left perform history w) = stopped
                \/ running (hook (fold_left perform history w))).
  { induction history as [|a history IH]; intros w H; [exact H|].
    cbn [fold_left]. apply IH. now apply perform_keeps. }
  apply G. now left.
Qed.

(** X13. Over any history of toggles, stops, single calls, runs of the
    watching effect, firings and answers, the three parts of the hook's
    state agree: it is executing exactly when a timer is armed, and
    exactly then it holds the timer's handle.  So a toggle starts a run
    only when no timer is armed. *)
Theorem hook_state_agrees (history : list action) :
  (isExecuting (after history) = true
   <-> exists t, interval (after history) = Some t)
  /\ (intervalId (after history) = Some handle
      <-> exists t, interval (after history) = Some t)
  /\ (isExecuting (after history) = false
      <-> interval (after history) = None)
  /\ (intervalId (after history) = None
      <-> interval (after history) = None).
Proof.
  destruct (after_keeps history) as [->|[E [I [t T]]]].
  - cbn. repeat split; try discriminate; try reflexivity;
      intros [t T]; discriminate.
  - rewrite E, I, T. repeat split; try discriminate; eauto.
Qed.

(** X14. Stopping ends a run for good: after [stopExecution], at any
    point of any history, the hook is back in its initial state; whatever
    happens then by itself, no callback of the interval runs, no request
    goes to the provider and the hook stays as it is; and firings of the
    timer alone change nothing at all. *)
Theorem stopExecution_is_final (history : list action) (fs : list Step)
    (n : nat) :
  fst (stopExecution (after history)) = stopped
  /\ hook (session_after (history ++ [Stop])) = stopped
  /\ hook (run fs (session_after (history ++ [Stop]))) = stopped
  /\ callbacks_run fs (session_after (history ++ [Stop])) = 0
  /\ requests (run_trace fs (session_after (history ++ [Stop]))) = []
  /\ run (repeat TimerFires n) (session_after (history ++ [Stop]))
     = session_after (history ++ [Stop])
  /\ run_trace (repeat TimerFires n) (session_after (history ++ [Stop]))
     = [].
Proof.
  assert (S : fst (stopExecution (after history)) = stopped).
  { destruct (after_keeps history) as [->|[_ [I _]]]; [reflexivity|].
    unfold stopExecution. now rewrite I. }
  split; [exact S|].
  set (w := session_after (history ++ [Stop])).
  assert (W : hook w = stopped).
  { subst w. unfold session_after. rewrite fold_left_app. exact S. }
  assert (I : interval (hook w) = None) by now rewrite W.
  destruct (run_idle fs w I) as [E [C [R _]]].
  rewrite E, C, R, W. repeat split.
  - induction n as [|n IH]; [reflexivity|].
    cbn [repeat run]. destruct (tick_idle TimerFires w I) as [_ [_ Q]].
    now rewrite (Q (or_intror eq_refl)).
  - induction n as [|n IH]; [reflexivity|].
    cbn [repeat run run_trace]. destruct (tick_idle TimerFires w I) as [_ [_ Q]].
    now rewrite (Q (or_intror eq_refl)).
Qed.

End Lifetime.

Lemma run_requests_in_order_witness :
  requests
    (run_trace
       (rounds [ (InvokeRejects, false); (Sample.accepts, false);
                 (Sample.accepts, true) ])
       (fst (start
               [ Sample.lead "L1" "5550100001" "Pending";
                 Sample.lead "L2" "5550100002" "Pending";
                 Sample.lead "L3" "5550100003" "Completed";
                 Sample.lead "L4" "5550100004" "Pending" ] "2" mounted)))
  = ["L1"; "L2"; "L4"].
Proof.
  refine (proj1 (run_requests_in_order
                   [ Sample.lead "L1" "5550100001" "Pending";
                     Sample.lead "L2" "5550100002" "Pending";
                     Sample.lead "L3" "5550100003" "Completed";
                     Sample.lead "L4" "5550100004" "Pending" ] "2" mounted
                   [ (InvokeRejects, false); (Sample.accepts, false);
                     (Sample.accepts, true) ]
                   _ eq_refl eq_refl)).
  repeat constructor; cbn; intuition discriminate.
Defined.

Lemma unanswered_call_is_placed_again_witness :
  requests
    (run_trace [TimerFires; TimerFires]
       (fst (start
               [ Sample.lead "L1" "5550100001" "Pending";
                 Sample.lead "L2" "5550100002" "Pending" ] "2" mounted)))
  = ["L1"; "L1"].
Proof.
  refine (proj1 (unanswered_call_is_placed_again
                   [ Sample.lead "L1" "5550100001" "Pending";
                     Sample.lead "L2" "5550100002" "Pending" ] "2" mounted
                   (Sample.lead "L1" "5550100001" "Pending")
                   [Sample.lead "L2" "5550100002" "Pending"] 2
                   _ eq_refl eq_refl)).
  repeat constructor; cbn; intuition discriminate.
Defined.

(* ================================================================== *)
(** * Single calls and the watching effect *)
(* ================================================================== *)

Section Watching.

Lemma filter_none_length {A : Type} (f : A -> bool) (l : list A) :
  List.length (filter f l) = 0 <-> forall x, In x l -> f x = false.
Proof.
  induction l as [|a l IH]; [cbn; tauto|].
  cbn [filter]. destruct (f a) eqn:E; cbn [List.length].
  - split; [discriminate|]. intros H. specialize (H a (or_introl eq_refl)).
    congruence.
  - rewrite IH. split.
    + intros H x [<-|I]; auto.
    + intros H x I. apply H. now right.
Qed.

Lemma filter_some_length {A : Type} (f : A -> bool) (l : list A) :
  0 < List.length (filter f l) <-> exists x, In x l /\ f x = true.
Proof.
  induction l as [|a l IH]; [cbn; split; [lia | intros [x [[] _]]]|].
  cbn [filter]. destruct (f a) eqn:E; cbn [List.length].
  - split; [|lia]. intros _. exists a. split; [now left | exact E].
  - rewrite IH. split.
    + intros [x [I F]]. exists x. split; [now right | exact F].
    + intros [x [[<-|I] F]]; [congruence|]. now exists x.
Qed.

(** X15. With the statistics of the leads it watches, the effect ends a
    run exactly when no lead is left eligible, none is in progress and at
    least one call was completed; otherwise it leaves the hook alone.  So
    a run in which every call failed is not ended by the effect. *)
Theorem finishedEffect_stops_iff (leads : list Lead) (h : Execution) :
  running h ->
  (fst (finishedEffect leads (updateStats leads) h) = stopped
   <-> (forall l, In l leads ->
                  eligible l = false /\ status l <> "In Progress")
       /\ exists l, In l leads /\ status l = "Completed")
  /\ (fst (finishedEffect leads (updateStats leads) h) = stopped
      \/ finishedEffect leads (updateStats leads) h = (h, [])).
Proof.
  intros [E [I [t T]]].
  assert (NS : h <> stopped) by (intros ->; discriminate).
  assert (St : fst (stopExecution h) = stopped)
    by (unfold stopExecution; now rewrite I).
  unfold finishedEffect. rewrite E, andb_true_r.
  cbn [updateStats completed].
  destruct (Nat.ltb_spec 0 (List.length leads)) as [L|L].
  2: { assert (leads = []) as -> by (destruct leads; [easy | cbn in L; lia]).
       cbn [fst]. split; [|now right].
       split; [intros H; now elim NS|]. intros [_ [l [[] _]]]. }
  cbn [andb].
  destruct (Nat.eqb_spec (List.length (filter eligible leads)) 0) as [P|P].
  2: { cbn [andb fst]. split; [|now right].
       split; [intros H; now elim NS|]. intros [A _]. elim P.
       apply filter_none_length. intros x Hx. now apply A. }
  destruct (Nat.eqb_spec
              (List.length
                 (filter (fun lead => String.eqb (status lead) "In Progress")
                    leads)) 0) as [Q|Q].
  2: { cbn [andb fst]. split; [|now right].
       split; [intros H; now elim NS|]. intros [A _]. elim Q.
       apply filter_none_length. intros x Hx. apply String.eqb_neq.
       now apply A. }
  cbn [andb]. unfold count_status.
  destruct (Nat.ltb_spec 0
              (List.length
                 (filter (fun lead => String.eqb (status lead) "Completed")
                    leads))) as [C|C]; cbn [fst].
  - split; [|now left]. split; [intros _|intros _; exact St].
    split.
    + intros l Hl. split.
      * now apply (proj1 (filter_none_length _ _) P).
      * apply String.eqb_neq. now apply (proj1 (filter_none_length _ _) Q).
    + apply filter_some_length in C. destruct C as [l [Hl S]].
      exists l. split; [exact Hl | now apply String.eqb_eq].
  - split; [|now right]. split; [intros H; now elim NS|].
    intros [_ [l [Hl S]]]. exfalso.
    assert (0 < List.length
                  (filter (fun lead => String.eqb (status lead) "Completed")
                     leads)); [|lia].
    apply filter_some_length. exists l. split; [exact Hl|].
    now apply String.eqb_eq.
Qed.

(** X16. A single call, however it goes (the lead no longer pending, the
    provider failing or its answer missing, the update refused) sends at
    most one request, and when it raises the in-progress flag it raises it
    once, first, and lowers it last.  While a call is in progress it sends
    nothing and updates nothing. *)
Theorem triggerSingleCall_brackets (callInProgress : bool)
    (leads : list Lead) (leadId : string) (reply : InvokeReply)
    (updateError : bool) :
  List.length
    (requests (triggerSingleCall callInProgress leads leadId reply
                 updateError)) <= 1
  /\ (callInProgress = false ->
      exists body,
        triggerSingleCall callInProgress leads leadId reply updateError
        = (SetIsCallInProgress true :: body
           ++ [SetIsCallInProgress false])%list
        /\ ~ In (SetIsCallInProgress true) body)
  /\ (callInProgress = true ->
      requests (triggerSingleCall callInProgress leads leadId reply
                  updateError) = []
      /\ forall rows,
           stored_after (triggerSingleCall callInProgress leads leadId reply
                           updateError) rows = rows).
Proof.
  unfold triggerSingleCall. destruct callInProgress.
  - split; [cbn; lia|]. split; [discriminate|]. intros _. now split.
  - assert (G : List.length (requests (triggerCall leads leadId reply
                                         updateError)) <= 1
                /\ exists body,
                     triggerCall leads leadId reply updateError
                     = (SetIsCallInProgress true :: body
                        ++ [SetIsCallInProgress false])%list
                     /\ ~ In (SetIsCallInProgress true) body).
    { unfold triggerCall.
      assert (Call : forall tail,
        tail = InvokeTriggerCall leadId ::
               match reply with
               | InvokeRejects =>
                   [ConsoleError; ToastError (VStr "Failed to initiate call");
                    SetIsCallInProgress false]
               | InvokeResponds (Some msg) _ =>
                   [ToastError (VStr ("Failed to initiate call: " ++ msg));
                    ConsoleError; SetIsCallInProgress false]
               | InvokeResponds None data =>
                   match get data "success" with
                   | Throw _ =>
                       [ConsoleError;
                        ToastError (VStr "Failed to initiate call");
                        SetIsCallInProgress false]
                   | Ok ok =>
                       if truthy ok then
                         ToastSuccess (VStr "Call initiated successfully")
                         :: UpdateLead leadId call_initiated updateError
                         :: ((if updateError then [ConsoleError] else [])
                             ++ [SetIsCallInProgress false])%list
                       else
                         [ToastError (if truthy (field data "message")
                                      then field data "message"
                                      else VStr "Failed to initiate call");
                          SetIsCallInProgress false]
                   end
               end ->
        List.length (requests (SetIsCallInProgress true :: tail)) <= 1
        /\ exists body,
             (SetIsCallInProgress true :: tail
              = SetIsCallInProgress true :: body
                ++ [SetIsCallInProgress false])%list
             /\ ~ In (SetIsCallInProgress true) body).
      { intros tail ->.
        destruct reply as [|[msg|] data].
        - split; [cbn; lia|]. eexists [_; _; _]. split; [reflexivity|].
          cbn. intuition discriminate.
        - split; [cbn; lia|]. eexists [_; _; _]. split; [reflexivity|].
          cbn. intuition discriminate.
        - destruct (get data "success") as [ok|].
          + destruct (truthy ok).
            * destruct updateError.
              -- split; [cbn; lia|]. eexists [_; _; _; _].
                 split; [reflexivity|]. cbn. intuition discriminate.
              -- split; [cbn; lia|]. eexists [_; _; _].
                 split; [reflexivity|]. cbn. intuition discriminate.
            * split; [cbn; lia|]. eexists [_; _]. split; [reflexivity|].
              cbn. intuition discriminate.
          + split; [cbn; lia|]. eexists [_; _; _]. split; [reflexivity|].
            cbn. intuition discriminate. }
      destruct (find (fun lead => String.eqb (id lead) leadId) leads)
        as [lead|]; [|now apply Call].
      destruct (negb (String.eqb (status lead) "Pending")); [|now apply Call].
      split; [cbn; lia|]. eexists [_; _]. split; [reflexivity|].
      cbn. intuition discriminate. }
    destruct G as [G1 G2]. split; [exact G1|]. split; [intros _; exact G2|].
    discriminate.
Qed.

End Watching.

Lemma finishedEffect_stops_iff_witness :
  fst (finishedEffect
         [ Sample.lead "L1" "5550100001" "Completed";
           Sample.lead "L2" "5550100002" "Failed" ]
         (updateStats [ Sample.lead "L1" "5550100001" "Completed";
                        Sample.lead "L2" "5550100002" "Failed" ])
         (fst (startExecution false
                 [Sample.lead "L1" "5550100001" "Pending"] "1" stopped)))
  = stopped.
Proof.
  refine (proj2 (proj1 (finishedEffect_stops_iff
                          [ Sample.lead "L1" "5550100001" "Completed";
                            Sample.lead "L2" "5550100002" "Failed" ]
                          (fst (startExecution false
                                  [Sample.lead "L1" "5550100001" "Pending"]
                                  "1" stopped)) _)) _).
  - repeat split. eexists. reflexivity.
  - split.
    + intros l [<-|[<-|[]]]; split; (reflexivity || discriminate).
    + eexists. split; [left; reflexivity | reflexivity].
Defined.
(* ================================================================== *)
(** * Searching the leads *)
(* ================================================================== *)

Section Searching.

Lemma filter_throwing_ok {A : Type} (f : A -> result bool) (l found : list A) :
  filter_throwing f l = Ok found ->
  (forall x, In x found -> In x l /\ f x = Ok true)
  /\ List.length found <= List.length l.
Proof.
  revert found. induction l as [|a l IH]; intros found H.
  - cbn in H. injection H as <-. split; [intros x []|cbn; lia].
  - cbn [filter_throwing] in H. destruct (f a) as [keep|e] eqn:F;
      [|discriminate].
    cbn in H. destruct (filter_throwing f l) as [rest|e]; [|discriminate].
    cbn in H. injection H as <-. destruct (IH rest eq_refl) as [I L].
    destruct keep; cbn [List.length].
    + split; [|lia]. intros x [<-|Hx]; [split; [now left | exact F]|].
      destruct (I x Hx). split; [now right | assumption].
    + split; [|lia]. intros x Hx. destruct (I x Hx).
      split; [now right | assumption].
Qed.

Lemma filter_throwing_all {A : Type} (f : A -> result bool) (l : list A) :
  (forall x, In x l -> f x = Ok true) -> filter_throwing f l = Ok l.
Proof.
  induction l as [|a l IH]; intros H; [reflexivity|].
  cbn [filter_throwing]. rewrite (H a (or_introl eq_refl)). cbn.
  rewrite IH by (intros x Hx; apply H; now right). reflexivity.
Qed.

(** X17. A search that returns gives leads of the list it was given, each
    of them matching the term; searching the result again with the same
    term changes nothing; and a term of white space only returns the list
    as it is. *)
Theorem applySearchFilter_idempotent (leadsToFilter found : list Lead)
    (term : string) :
  applySearchFilter leadsToFilter term = Ok found ->
  applySearchFilter found term = Ok found
  /\ (forall l, In l found -> In l leadsToFilter)
  /\ List.length found <= List.length leadsToFilter
  /\ (trim term = "" -> found = leadsToFilter)
  /\ (trim term <> "" ->
      forall l, In l found -> search_matches term l = Ok true).
Proof.
  unfold applySearchFilter. intros H.
  destruct (String.eqb_spec (trim term) "") as [E|E].
  - injection H as <-. repeat split; auto. intros N. now elim N.
  - destruct (filter_throwing_ok _ _ _ H) as [I L].
    split; [apply filter_throwing_all; intros x Hx; now apply I|].
    split; [intros l Hl; now apply I|]. split; [exact L|].
    split; [intros C; now elim E|]. intros _ l Hl. now apply I.
Qed.

End Searching.

Lemma applySearchFilter_idempotent_witness :
  applySearchFilter [Sample.lead "L2" "5550100002" "Pending"] "pend"
  = Ok [Sample.lead "L2" "5550100002" "Pending"].
Proof.
  exact (proj1 (applySearchFilter_idempotent
                  [ Sample.lead "L1" "5550100001" "Completed";
                    Sample.lead "L2" "5550100002" "Pending" ]
                  [Sample.lead "L2" "5550100002" "Pending"] "pend"
                  eq_refl)).
Defined.

(* ================================================================== *)
(** * The campaign service *)
(* ================================================================== *)

Section Campaigns.

Lemma count_positive (s : string) (leads : list Lead) :
  (0 <? count_status s leads)%nat = true
  <-> exists l, In l leads /\ status l = s.
Proof.
  unfold count_status. rewrite Nat.ltb_lt. split.
  - induction leads as [|a leads IH]; cbn [filter]; [cbn; lia|].
    destruct (String.eqb_spec (status a) s) as [E|_].
    + intros _. exists a. split; [now left | exact E].
    + intros H. destruct (IH H) as [l [I S]]. exists l.
      split; [now right | exact S].
  - intros [l [I S]]. induction leads as [|a leads IH]; [contradiction|].
    cbn [filter]. destruct (String.eqb_spec (status a) s) as [_|N];
      [cbn; lia|].
    destruct I as [->|I]; [contradiction | now apply IH].
Qed.

Lemma count_zero (s : string) (leads : list Lead) :
  (0 <? count_status s leads)%nat = false
  <-> forall l, In l leads -> status l <> s.
Proof.
  split.
  - intros H l I S.
    assert (P : (0 <? count_status s leads)%nat = true)
      by (apply count_positive; now exists l).
    congruence.
  - intros H. destruct (0 <? count_status s leads)%nat eqn:P; [|reflexivity].
    apply count_positive in P. destruct P as [l [I S]]. now elim (H l I).
Qed.

(** X18. The status [createCampaign] and [updateCampaignStats] give a
    campaign, from the leads they read: "in-progress" when a lead is in
    progress; otherwise "completed" when a lead is completed, whether or
    not pending leads remain; otherwise "partial" when a lead has failed;
    "pending" when no lead is in progress, completed or failed.  Both
    functions write the same figures, and nothing for an empty list. *)
Theorem campaign_status_of_leads (fileName : option string)
    (localeDate : string) (leads : list Lead) :
  (leads = [] ->
   createCampaign fileName localeDate leads = None
   /\ updateCampaignStats leads = None)
  /\ (leads <> [] ->
      exists row st,
        createCampaign fileName localeDate leads = Some row
        /\ updateCampaignStats leads = Some st
        /\ Campaign.stats row = st
        /\ Campaign.leads_count row = List.length leads
        /\ (Campaign.status st = "in-progress"
            <-> exists l, In l leads /\ status l = "In Progress")
        /\ (Campaign.status st = "completed"
            <-> (forall l, In l leads -> status l <> "In Progress")
                /\ exists l, In l leads /\ status l = "Completed")
        /\ (Campaign.status st = "partial"
            <-> (forall l, In l leads -> status l <> "In Progress")
                /\ (forall l, In l leads -> status l <> "Completed")
                /\ exists l, In l leads /\ status l = "Failed")
        /\ (Campaign.status st = "pending"
            <-> (forall l, In l leads -> status l <> "In Progress")
                /\ (forall l, In l leads -> status l <> "Completed")
                /\ (forall l, In l leads -> status l <> "Failed"))).
Proof.
  split; [intros ->; now split|]. intros N.
  unfold createCampaign, updateCampaignStats.
  destruct leads as [|l0 rest]; [contradiction|]. clear N.
  cbn [List.length Nat.eqb]. set (leads := l0 :: rest).
  eexists. eexists. split; [reflexivity|]. split; [reflexivity|].
  cbn [Campaign.stats Campaign.leads_count]. split; [reflexivity|].
  split; [reflexivity|].
  unfold campaign_stats. cbn [Campaign.status]. unfold Campaign.status_of.
  pose proof (count_positive "In Progress" leads) as P1.
  pose proof (count_zero "In Progress" leads) as Z1.
  pose proof (count_positive "Completed" leads) as P2.
  pose proof (count_zero "Completed" leads) as Z2.
  pose proof (count_positive "Failed" leads) as P3.
  pose proof (count_zero "Failed" leads) as Z3.
  destruct (0 <? count_status "In Progress" leads)%nat.
  { assert (X : exists l, In l leads /\ status l = "In Progress")
      by now apply P1.
    destruct X as [l [I S]].
    repeat split; try discriminate; try tauto; try (now exists l);
      intros [A _]; now elim (A l I). }
  assert (A1 : forall l, In l leads -> status l <> "In Progress")
    by now apply Z1.
  destruct (0 <? count_status "Completed" leads)%nat.
  { assert (X : exists l, In l leads /\ status l = "Completed")
      by now apply P2.
    destruct X as [l [I S]].
    repeat split; try discriminate; try assumption; try (now exists l).
    - intros [l' [I' S']]. now elim (A1 l' I').
    - intros [_ [A _]]. now elim (A l I).
    - intros [_ [A _]]. now elim (A l I). }
  assert (A2 : forall l, In l leads -> status l <> "Completed")
    by now apply Z2.
  destruct (0 <? count_status "Failed" leads)%nat.
  { assert (X : exists l, In l leads /\ status l = "Failed")
      by now apply P3.
    destruct X as [l [I S]].
    repeat split; try discriminate; try assumption; try (now exists l).
    - intros [l' [I' S']]. now elim (A1 l' I').
    - intros [_ [l' [I' S']]]. now elim (A2 l' I').
    - intros [_ [_ A]]. now elim (A l I). }
  assert (A3 : forall l, In l leads -> status l <> "Failed")
    by now apply Z3.
  repeat split; try discriminate; try assumption.
  - intros [l' [I' S']]. now elim (A1 l' I').
  - intros [_ [l' [I' S']]]. now elim (A2 l' I').
  - intros [_ [_ [l' [I' S']]]]. now elim (A3 l' I').
Qed.

Lemma prefix_nothing (s : string) : String.prefix "" s = true.
Proof. now destruct s. Qed.

Ltac split_chars :=
  repeat (cbn [String.prefix append] in *;
          match goal with
          | |- context [ascii_dec ?a ?b] =>
              destruct (ascii_dec a b); try discriminate; subst
          | H : context [ascii_dec ?a ?b] |- _ =>
              destruct (ascii_dec a b); try discriminate; subst
          end);
  cbn [String.prefix append] in *; rewrite ?prefix_nothing in *;
  try reflexivity; try discriminate.

(** An occurrence of ".csv" cannot begin inside a text and end outside it,
    in the ".csv" that follows. *)
Lemma prefix_csv_app (s rest : string) :
  String.prefix ".csv" s = false ->
  s <> "" ->
  String.prefix ".csv" (s ++ ".csv" ++ rest) = false.
Proof.
  intros P N.
  destruct s as [|a [|b [|c [|d s]]]]; [contradiction|..];
    cbn [String.prefix append] in *; split_chars.
Qed.

Lemma replace_first_csv (stem rest : string) :
  includes stem ".csv" = false ->
  replace_first (stem ++ ".csv" ++ rest) ".csv" "" = stem ++ rest.
Proof.
  induction stem as [|c stem IH]; intros H.
  - cbn. rewrite prefix_nothing, Nat.sub_0_r. now apply substring_all.
  - cbn [includes] in H. apply orb_false_iff in H. destruct H as [P I].
    specialize (IH I).
    assert (Q := prefix_csv_app (String c stem) rest P ltac:(discriminate)).
    cbn [append] in *. cbn [replace_first]. rewrite Q. now rewrite IH.
Qed.

Lemma replace_first_absent (s : string) :
  includes s ".csv" = false -> replace_first s ".csv" "" = s.
Proof.
  induction s as [|c s IH]; intros H; [reflexivity|].
  cbn [includes] in H. apply orb_false_iff in H. destruct H as [P I].
  cbn [replace_first]. rewrite P. now rewrite IH.
Qed.

(** X19. The name [createCampaign] gives a campaign made from a file: the
    file name with its first ".csv" taken out, wherever it stands and
    whatever follows it; a file name without ".csv" as it is.  The file
    name itself is stored unchanged. *)
Theorem createCampaign_name (f localeDate : string) (leads : list Lead)
    (row : Campaign.Row) :
  createCampaign (Some f) localeDate leads = Some row -> f <> "" ->
  Campaign.file_name row = Some f
  /\ (includes f ".csv" = false -> Campaign.name row = f)
  /\ (forall stem rest,
        f = stem ++ ".csv" ++ rest -> includes stem ".csv" = false ->
        Campaign.name row = stem ++ rest).
Proof.
  unfold createCampaign. intros H N.
  destruct (List.length leads =? 0)%nat; [discriminate|].
  apply String.eqb_neq in N. rewrite N in H. injection H as <-.
  cbn [Campaign.file_name Campaign.name].
  split; [reflexivity|]. split; [apply replace_first_absent|].
  intros stem rest -> I. now apply replace_first_csv.
Qed.

(** X20. The name [downloadCampaignReport] puts in the file name of a
    report is as long as the campaign's name, holds only letters, digits
    and underscores, keeps the letters and digits of the name in place,
    and is unchanged by a second pass. *)
Theorem sanitizedCampaignName_safe (campaignName : string) :
  String.length (sanitizedCampaignName campaignName)
  = String.length campaignName
  /\ (forall i c,
        String.get i (sanitizedCampaignName campaignName) = Some c ->
        is_alphanumeric c = true \/ c = "_"%char)
  /\ (forall i c,
        String.get i campaignName = Some c -> is_alphanumeric c = true ->
        String.get i (sanitizedCampaignName campaignName) = Some c)
  /\ sanitizedCampaignName (sanitizedCampaignName campaignName)
     = sanitizedCampaignName campaignName.
Proof.
  induction campaignName as [|a s [L [A [K I]]]].
  - cbn. repeat split; try discriminate.
  - cbn [sanitizedCampaignName String.length]. split; [now rewrite L|].
    split; [|split].
    + intros [|i] c; cbn [String.get]; [|apply A].
      intros H. injection H as <-.
      destruct (is_alphanumeric a) eqn:E; [now left | now right].
    + intros [|i] c; cbn [String.get]; [|apply K].
      intros H E. injection H as ->. now rewrite E.
    + rewrite I. f_equal.
      destruct (is_alphanumeric a) eqn:E; [now rewrite E | reflexivity].
Qed.

End Campaigns.

Lemma createCampaign_name_witness :
  option_map Campaign.name
    (createCampaign (Some "leads.csv.backup.csv") "11/2/2026"
       [Sample.lead "L1" "5550100001" "Pending"])
  = Some "leads.backup.csv".
Proof.
  refine (f_equal Some
            (proj2 (proj2 (createCampaign_name "leads.csv.backup.csv"
                             "11/2/2026"
                             [Sample.lead "L1" "5550100001" "Pending"]
                             {| Campaign.name := "leads.backup.csv";
                                Campaign.file_name :=
                                  Some "leads.csv.backup.csv";
                                Campaign.leads_count := 1;
                                Campaign.stats :=
                                  campaign_stats
                                    [Sample.lead "L1" "5550100001"
                                       "Pending"] |}
                             eq_refl _))
               "leads" ".backup.csv" eq_refl eq_refl)).
  discriminate.
Defined.
